(** * tmdb-twitter-bot: a shallow embedding of [bot.py] and its properties

    The bot fetches one movie from the TMDB web service, renders a short
    text and posts it.  The embedding follows [bot.py] function by function:

    - Python [str] values are lists of Unicode code points, so that [len],
      slicing and concatenation count what Python counts;
    - JSON numbers are the exact rational value of the parsed number;
    - an item of a result list is a record whose numbers are there or
      missing; [Json] has the items in which a number can be [null] as
      well, with the selection that then can raise;
    - the network, the random generator, the clock and the console are
      events of a small free monad [prog], interpreted against a [world]
      that answers them; an interpretation yields the list of events that
      happened and either a returned value or the exception that escaped. *)

From Stdlib Require Import ZArith QArith Qround Qabs List String Ascii Bool Lia Lqa.
From Stdlib Require Import DecimalString.
Import ListNotations.
Open Scope string_scope.
Open Scope list_scope.
Open Scope Z_scope.

(** ** Python strings *)

Module PyStr.

Definition codepoint := N.
Definition str := list codepoint.

(** Decoding of the UTF-8 bytes of a literal of this file into code points. *)
Fixpoint utf8_decode (bs : list N) : str :=
  match bs with
  | [] => []
  | b0 :: r0 =>
    if (b0 <? 128)%N then b0 :: utf8_decode r0
    else if (b0 <? 224)%N then
      match r0 with
      | b1 :: r1 => ((b0 - 192) * 64 + (b1 - 128))%N :: utf8_decode r1
      | [] => [b0]
      end
    else if (b0 <? 240)%N then
      match r0 with
      | b1 :: b2 :: r2 =>
        ((b0 - 224) * 4096 + (b1 - 128) * 64 + (b2 - 128))%N :: utf8_decode r2
      | _ => [b0]
      end
    else
      match r0 with
      | b1 :: b2 :: b3 :: r3 =>
        ((b0 - 240) * 262144 + (b1 - 128) * 4096 + (b2 - 128) * 64
         + (b3 - 128))%N :: utf8_decode r3
      | _ => [b0]
      end
  end.

Fixpoint bytes_of (s : string) : list N :=
  match s with
  | EmptyString => []
  | String a s' => N_of_ascii a :: bytes_of s'
  end.

(** [U "..."] is the Python string written between the quotes. *)
Definition U (s : string) : str := utf8_decode (bytes_of s).

Definition nl : str := [10%N].
Definition space : codepoint := 32%N.
(** U+2026 HORIZONTAL ELLIPSIS, the one-character marker of [shorten]. *)
Definition ellipsis : codepoint := 8230%N.

(** [len(s)] *)
Definition len (s : str) : Z := Z.of_nat (List.length s).

(** [s[:n]], with Python's reading of a negative bound. *)
Definition slice_to (s : str) (n : Z) : str :=
  if n <? 0 then firstn (Z.to_nat (Z.max 0 (len s + n))) s
  else firstn (Z.to_nat n) s.

Fixpoint str_eqb (a b : str) : bool :=
  match a, b with
  | [], [] => true
  | x :: a', y :: b' => (x =? y)%N && str_eqb a' b'
  | _, _ => false
  end.

Fixpoint starts_with (p s : str) : bool :=
  match p, s with
  | [], _ => true
  | x :: p', y :: s' => (x =? y)%N && starts_with p' s'
  | _ :: _, [] => false
  end.

(** [sub in s] *)
Fixpoint contains (sub s : str) : bool :=
  starts_with sub s ||
  match s with
  | [] => false
  | _ :: s' => contains sub s'
  end.

(** [s.endswith(suffix)] *)
Definition ends_with (suffix s : str) : bool :=
  starts_with (rev suffix) (rev s).

(** The split of [s] at the last occurrence of the one-character separator
    [sep]: the text before it and the text after it. *)
Fixpoint split_last (sep : codepoint) (s : str) : option (str * str) :=
  match s with
  | [] => None
  | c :: s' =>
    match split_last sep s' with
    | Some (a, b) => Some (c :: a, b)
    | None => if (c =? sep)%N then Some ([], s') else None
    end
  end.

(** [s.rsplit(sep, 1)] for a one-character [sep]. *)
Definition rsplit1 (sep : codepoint) (s : str) : list str :=
  match split_last sep s with
  | Some (a, b) => [a; b]
  | None => [s]
  end.

(** [sep.join(parts)] *)
Fixpoint join (sep : str) (parts : list str) : str :=
  match parts with
  | [] => []
  | [p] => p
  | p :: ps => p ++ sep ++ join sep ps
  end.

(** [str(n)] for an [int]. *)
Definition str_of_Z (n : Z) : str :=
  U (NilZero.string_of_int (Z.to_int n)).

(** Truthiness of an optional string: [None] and [""] are false. *)
Definition truthy (o : option str) : bool :=
  match o with
  | Some (_ :: _) => true
  | _ => false
  end.

(** The characters Python's [str.isspace] accepts. *)
Definition is_whitespace (c : codepoint) : bool :=
  existsb (N.eqb c)
    [9; 10; 11; 12; 13; 28; 29; 30; 31; 32; 133; 160; 5760; 8192; 8193; 8194;
     8195; 8196; 8197; 8198; 8199; 8200; 8201; 8202; 8232; 8233; 8239; 8287;
     12288]%N.

End PyStr.
Import PyStr.

(** ** Text helpers of [bot.py] *)

(** [shorten(text, max_len=180)], lines 63-68.  [None] is a summary that the
    service left out or sent as [null]. *)
Definition shorten (text : option str) (max_len : Z) : str :=
  match text with
  | None => []
  | Some [] => []
  | Some t =>
    if len t <=? max_len then t
    else hd [] (rsplit1 space (slice_to t (max_len - 1))) ++ [ellipsis]
  end.

Definition shorten_default : Z := 180.

(** The length guard of [tweet], lines 84-88. *)
Definition max_len : Z := 270.

Definition tweet_clip (text : str) : str :=
  if len text >? max_len then slice_to text (max_len - 3) ++ U "..."
  else text.

(** ** Records of the metadata service *)

(** A JSON member that holds a string when it is there: the key can be
    absent, or present with [null]. *)
Inductive jstr : Type :=
| Absent
| Null
| Str (s : str).

(** [d.get(key)]: [None] for an absent key and for [null]. *)
Definition get (f : jstr) : option str :=
  match f with
  | Str s => Some s
  | _ => None
  end.

(** [d.get(key, default)]: the default replaces an absent key only. *)
Definition get_default (f : jstr) (default : str) : option str :=
  match f with
  | Absent => Some default
  | Null => None
  | Str s => Some s
  end.

(** One item of a TMDB result list.  For the numbers and for [title] and
    [id], [None] is an absent key. *)
Record movie : Type := {
  movie_id : option Z;
  title : option str;
  release_date : jstr;
  vote_average : option Q;
  vote_count : option Z;
  popularity : option Q;
  poster_path : jstr;
  overview : jstr;
  (** whether the object has members other than those above *)
  other_members : bool
}.

(** The JSON object of a list endpoint; [None] is an absent key. *)
Record reply : Type := {
  results : option (list movie);
  total_pages : option Z
}.

Definition default {A} (o : option A) (d : A) : A :=
  match o with
  | Some a => a
  | None => d
  end.

(** ** Selection: [pick_best_result], lines 46-60 *)

(** The sort key [(vote_average, popularity)] with its defaults. *)
Definition sort_key (r : movie) : Q * Q :=
  (default (vote_average r) 0%Q, default (popularity r) 0%Q).

(** Python's [<] on pairs of numbers: the first components decide unless
    they are equal. *)
Definition key_lt (a b : Q * Q) : bool :=
  match (fst a ?= fst b)%Q with
  | Lt => true
  | Gt => false
  | Eq => match (snd a ?= snd b)%Q with
          | Lt => true
          | _ => false
          end
  end.

(** [list.sort(key=..., reverse=True)]: a stable sort into descending key
    order, items of equal key keeping their input order. *)
Fixpoint insert_desc {A K} (lt : K -> K -> bool) (key : A -> K)
    (x : A) (l : list A) : list A :=
  match l with
  | [] => [x]
  | y :: l' =>
    if lt (key x) (key y) then y :: insert_desc lt key x l' else x :: l
  end.

Fixpoint sort_desc {A K} (lt : K -> K -> bool) (key : A -> K)
    (l : list A) : list A :=
  match l with
  | [] => []
  | x :: l' => insert_desc lt key x (sort_desc lt key l')
  end.

Definition has_poster (r : movie) : bool := truthy (get (poster_path r)).

Definition has_votes (min_vote_count : Z) (r : movie) : bool :=
  default (vote_count r) 0 >=? min_vote_count.

(** Python's [a or b] on lists. *)
Definition or_list {A} (a b : list A) : list A :=
  match a with
  | [] => b
  | _ => a
  end.

(** The list [filtered] as it stands at line 56. *)
Definition filtered (results : list movie) (min_vote_count : Z) : list movie :=
  let filtered :=
    filter (fun r => has_poster r && has_votes min_vote_count r) results in
  match filtered with
  | [] => or_list (filter has_poster results) results
  | _ => filtered
  end.

Definition pick_best_result (results : list movie) (min_vote_count : Z)
    : option movie :=
  match filtered results min_vote_count with
  | [] => None
  | l => hd_error (sort_desc key_lt sort_key l)
  end.

Definition min_vote_count_default : Z := 50.

(** ** Formatting *)

(** [f"{x}"] of a value that is a string or [None]. *)
Definition fmt (o : option str) : str :=
  match o with
  | Some s => s
  | None => U "None"
  end.

(** [f"{q:.1f}"]: the decimal with one fractional digit nearest to [q], a
    tie going to the even digit. *)
Definition round_half_even (q : Q) : Z :=
  let fl := Qfloor q in
  match (q - inject_Z fl ?= 1 # 2)%Q with
  | Lt => fl
  | Gt => fl + 1
  | Eq => if Z.even fl then fl else fl + 1
  end.

Definition format_1f (q : Q) : str :=
  let tenths := round_half_even (Qabs q * 10)%Q in
  (if Qlt_le_dec q 0%Q then U "-" else []) ++
  str_of_Z (tenths / 10) ++ U "." ++ str_of_Z (tenths mod 10).

Definition TMDB_BASE_URL : str := U "https://api.themoviedb.org/3".
Definition TMDB_IMAGE_BASE : str := U "https://image.tmdb.org/t/p/w500".

(** [build_poster_url], lines 71-74. *)
Definition build_poster_url (poster_path : option str) : option str :=
  if truthy poster_path then Some (TMDB_IMAGE_BASE ++ default poster_path [])
  else None.

(** ** Exceptions, effects and their interpretation *)

Inductive exn : Type :=
| RuntimeError (msg : str)
| SystemExit (msg : str)
| KeyError (key : str)
| TypeError
| ValueError
| IndexError
| Forbidden (msg : str)      (* [tweepy.errors.Forbidden]; [msg] is [str(e)] *)
| OtherError (msg : str).    (* any other exception of a library call *)

(** Query parameters: a Python dict in insertion order. *)
Inductive pval : Type :=
| PStr (s : str)
| PInt (n : Z)
| PNum (q : Q)
| PNone.

Definition dict := list (string * pval).

(** [d[key] = v] *)
Fixpoint dict_set (key : string) (v : pval) (d : dict) : dict :=
  match d with
  | [] => [(key, v)]
  | (k, x) :: d' =>
    if String.eqb k key then (k, v) :: d' else (k, x) :: dict_set key v d'
  end.

(** A program is a tree of the calls it makes to the outside. *)
Inductive prog (A : Type) : Type :=
| Ret (a : A)
| Raise (e : exn)
| HttpGet (url : str) (params : dict) (k : exn + reply -> prog A)
| RandBelow (n : Z) (k : Z -> prog A)
| Today (k : Z -> prog A)
| Print (line : str) (k : prog A)
| CreateTweet (text : str) (k : exn + str -> prog A).

Arguments Ret {A} a.
Arguments Raise {A} e.
Arguments HttpGet {A} url params k.
Arguments RandBelow {A} n k.
Arguments Today {A} k.
Arguments Print {A} line k.
Arguments CreateTweet {A} text k.

Fixpoint bind {A B} (p : prog A) (f : A -> prog B) : prog B :=
  match p with
  | Ret a => f a
  | Raise e => Raise e
  | HttpGet url params k => HttpGet url params (fun r => bind (k r) f)
  | RandBelow n k => RandBelow n (fun v => bind (k v) f)
  | Today k => Today (fun d => bind (k d) f)
  | Print line k => Print line (bind k f)
  | CreateTweet text k => CreateTweet text (fun r => bind (k r) f)
  end.

Notation "x <- p ;; q" := (bind p (fun x => q))
  (at level 61, p at next level, right associativity).
Notation "p ;; q" := (bind p (fun _ => q))
  (at level 61, right associativity).

(** [try: p  except ...: h]: [h e] is the handler's body when a clause
    matches the exception [e]. *)
Fixpoint try_except {A} (p : prog A) (h : exn -> option (prog A)) : prog A :=
  match p with
  | Ret a => Ret a
  | Raise e => match h e with
               | Some q => q
               | None => Raise e
               end
  | HttpGet url params k => HttpGet url params (fun r => try_except (k r) h)
  | RandBelow n k => RandBelow n (fun v => try_except (k v) h)
  | Today k => Today (fun d => try_except (k d) h)
  | Print line k => Print line (try_except k h)
  | CreateTweet text k => CreateTweet text (fun r => try_except (k r) h)
  end.

Definition lift {A} (r : exn + A) : prog A :=
  match r with
  | inl e => Raise e
  | inr a => Ret a
  end.

(** [print(line)] *)
Definition print (line : str) : prog unit := Print line (Ret tt).

(** [d[key]] on a member that may be absent. *)
Definition item {A} (key : string) (o : option A) : prog A :=
  match o with
  | Some a => Ret a
  | None => Raise (KeyError (U key))
  end.

(** [random.randint(a, b)]: [a + randbelow(b - a + 1)], or [ValueError] on
    an empty range. *)
Definition randint (a b : Z) : prog Z :=
  if b - a + 1 <=? 0 then Raise ValueError
  else RandBelow (b - a + 1) (fun v => Ret (a + v)).

(** [random.choice(seq)] *)
Definition choice {A} (seq : list A) : prog A :=
  match seq with
  | [] => Raise IndexError
  | _ =>
    RandBelow (Z.of_nat (List.length seq))
      (fun i => match nth_error seq (Z.to_nat i) with
                | Some a => Ret a
                | None => Raise IndexError
                end)
  end.

(** What happened during a run, in order. *)
Inductive event : Type :=
| EvGet (url : str) (params : dict) (answer : exn + reply)
| EvRandom (n : Z) (v : Z)
| EvToday (d : Z)
| EvPrint (line : str)
| EvTweet (text : str) (answer : exn + str).

Inductive outcome (A : Type) : Type :=
| Returned (a : A)
| Raised (e : exn).

Arguments Returned {A} a.
Arguments Raised {A} e.

(** The outside of one run: the answer of the [n]-th HTTP request, the raw
    output of the [n]-th draw of the generator, the day (as a proleptic
    Gregorian ordinal) and the answer of the publishing platform. *)
Record world : Type := {
  http : nat -> str -> dict -> exn + reply;
  entropy : nat -> Z;
  today : Z;
  twitter : str -> exn + str
}.

Fixpoint run {A} (p : prog A) (w : world) (gets draws : nat)
    : list event * outcome A :=
  match p with
  | Ret a => ([], Returned a)
  | Raise e => ([], Raised e)
  | HttpGet url params k =>
    let r := http w gets url params in
    let (t, o) := run (k r) w (S gets) draws in
    (EvGet url params r :: t, o)
  | RandBelow n k =>
    let v := entropy w draws mod n in
    let (t, o) := run (k v) w gets (S draws) in
    (EvRandom n v :: t, o)
  | Today k =>
    let (t, o) := run (k (today w)) w gets draws in
    (EvToday (today w) :: t, o)
  | Print line k =>
    let (t, o) := run k w gets draws in
    (EvPrint line :: t, o)
  | CreateTweet text k =>
    let r := twitter w text in
    let (t, o) := run (k r) w gets draws in
    (EvTweet text r :: t, o)
  end.

(** A whole run, from the first request and the first draw. *)
Definition exec {A} (p : prog A) (w : world) : list event * outcome A :=
  run p w 0%nat 0%nat.

Definition is_tweet (e : event) : bool :=
  match e with
  | EvTweet _ _ => true
  | _ => false
  end.

(** ** Configuration *)

(** The values read from the environment when the module is loaded;
    [None] is an unset variable. *)
Record config : Type := {
  TMDB_API_KEY : option str;
  TMDB_DEFAULT_REGION : str;
  X_BEARER_TOKEN : option str;
  X_API_KEY : option str;
  X_API_SECRET : option str;
  X_ACCESS_TOKEN : option str;
  X_ACCESS_SECRET : option str
}.

(** [d[key]] on a string member: [KeyError] when absent, [None] for [null]. *)
Definition item_jstr (key : string) (f : jstr) : prog (option str) :=
  match f with
  | Absent => Raise (KeyError (U key))
  | Null => Ret None
  | Str s => Ret (Some s)
  end.

(** [x[:n]] on a value that is a string or [None]. *)
Definition slice_opt (x : option str) (n : Z) : prog str :=
  match x with
  | Some s => Ret (slice_to s n)
  | None => Raise TypeError
  end.

(** A dict with no member at all is false in a condition. *)
Definition dict_is_empty (m : movie) : bool :=
  match movie_id m, title m, release_date m, vote_average m, vote_count m,
        popularity m, poster_path m, overview m with
  | None, None, Absent, None, None, None, Absent, Absent =>
    negb (other_members m)
  | _, _, _, _, _, _, _, _ => false
  end.

(** [if not movie: <absent>  else: <present>] on the result of
    [pick_best_result]. *)
Definition if_not_movie {A} (picked : option movie)
    (absent : prog A) (present : movie -> prog A) : prog A :=
  match picked with
  | None => absent
  | Some m => if dict_is_empty m then absent else present m
  end.

Definition results_of (r : reply) : list movie := default (results r) [].

(** ** The bot *)

Section Bot.

(** Python's [str.lower] and [datetime.date.isoformat] (on the ordinal of
    the date), and the environment of the process. *)
Variable lower : str -> str.
Variable isoformat : Z -> str.
Variable env : config.

(** [ensure_env], lines 24-33. *)
Definition missing_env : list str :=
  let missing := [] in
  let missing :=
    if negb (truthy (TMDB_API_KEY env)) then missing ++ [U "TMDB_API_KEY"]
    else missing in
  let missing :=
    if negb (truthy (X_BEARER_TOKEN env) && truthy (X_API_KEY env)
             && truthy (X_API_SECRET env) && truthy (X_ACCESS_TOKEN env)
             && truthy (X_ACCESS_SECRET env))
    then missing ++ [U "X_BEARER_TOKEN"; U "X_API_KEY"; U "X_API_SECRET";
                     U "X_ACCESS_TOKEN"; U "X_ACCESS_SECRET"]
    else missing in
  missing.

Definition ensure_env : prog unit :=
  match missing_env with
  | [] => Ret tt
  | missing =>
    Raise (RuntimeError
             (U "Eksik environment değişkenleri: " ++ join (U ", ") missing))
  end.

Definition api_key_value : pval :=
  match TMDB_API_KEY env with
  | Some k => PStr k
  | None => PNone
  end.

(** The dict [params] after [tmdb_get] has stored the key in it. *)
Definition with_api_key (params : dict) : dict :=
  dict_set "api_key" api_key_value params.

(** [tmdb_get], lines 36-43: one GET; a transport error, an error status
    or a body that is not JSON raises. *)
Definition tmdb_get (path : str) (params : dict) : prog reply :=
  HttpGet (TMDB_BASE_URL ++ path) (with_api_key params) lift.

(** [tweet], lines 77-106.  Building the [tweepy.Client] calls nothing;
    the one call to the platform is [create_tweet], whose answer is the
    printed form of the response or the exception it raised. *)
Definition tweet (text : str) : prog unit :=
  let text := tweet_clip text in
  try_except
    (resp <- CreateTweet text lift ;;
     print (U "Tweet gönderildi: " ++ resp))
    (fun e =>
       match e with
       | Forbidden detail =>
         Some (let msg := lower detail in
               if contains (U "duplicate") msg then
                 print (U "Aynı içerikten zaten tweet atılmış, atlıyorum.")
               else
                 (print (U "403 Forbidden - Twitter bu tweet'e izin vermedi, atlıyorum.") ;;
                  print (U "Hata detayı: " ++ detail)))
       | _ => None
       end).

(** *** Message texts

    The statements of each mode function from [title = movie["title"]] to
    the end of its f-string. *)

Definition mode_1_text (movie : movie) : prog str :=
  title <- item "title" (title movie) ;;
  year <- slice_opt (get_default (release_date movie) []) 4 ;;
  let vote := default (vote_average movie) 0%Q in
  let overview := shorten (get_default (overview movie) []) 150 in
  id <- item "id" (movie_id movie) ;;
  let url := U "https://tmdb.org/movie/" ++ str_of_Z id in
  Ret (U "🎬 Bugün Türkiye'de en popüler film:" ++ nl ++
       title ++ U " (" ++ year ++ U ") – ⭐ " ++ format_1f vote ++ nl ++
       nl ++
       overview ++ nl ++
       nl ++
       U "Daha fazla: " ++ url ++ nl ++
       U "#film #sinema #tmdb").

Definition mode_2_text (movie : movie) : prog str :=
  title <- item "title" (title movie) ;;
  year <- slice_opt (get_default (release_date movie) []) 4 ;;
  let vote := default (vote_average movie) 0%Q in
  let overview := shorten (get_default (overview movie) []) 150 in
  id <- item "id" (movie_id movie) ;;
  let url := U "https://www.themoviedb.org/movie/" ++ str_of_Z id in
  Ret (U "🌍 Bugün dünyada en popüler film:" ++ nl ++
       title ++ U " (" ++ year ++ U ") – ⭐ " ++ format_1f vote ++ nl ++
       nl ++
       overview ++ nl ++
       nl ++
       U "Detaylar: " ++ url ++ nl ++
       U "#film #sinema #tmdb").

Definition mode_3_text (movie : movie) : prog str :=
  title <- item "title" (title movie) ;;
  let date_str := get_default (release_date movie) [] in
  let vote := default (vote_average movie) 0%Q in
  let overview := shorten (get_default (overview movie) []) 150 in
  id <- item "id" (movie_id movie) ;;
  let url := U "https://www.themoviedb.org/movie/" ++ str_of_Z id in
  Ret (U "🎟 Son günlerde vizyona gelen bir film:" ++ nl ++
       title ++ U " (" ++ fmt date_str ++ U ") – ⭐ " ++ format_1f vote ++ nl ++
       nl ++
       overview ++ nl ++
       nl ++
       U "Detaylar: " ++ url ++ nl ++
       U "#yenifilm #filmönerisi #tmdb").

Definition mode_4_text (movie : movie) : prog str :=
  title <- item "title" (title movie) ;;
  year <- slice_opt (get_default (release_date movie) []) 4 ;;
  let vote := default (vote_average movie) 0%Q in
  let overview := shorten (get_default (overview movie) []) 150 in
  id <- item "id" (movie_id movie) ;;
  let url := U "https://www.themoviedb.org/movie/" ++ str_of_Z id in
  Ret (U "📈 Haftanın en yüksek puanlı yeni filmi:" ++ nl ++
       title ++ U " (" ++ year ++ U ") – ⭐ " ++ format_1f vote ++ nl ++
       nl ++
       overview ++ nl ++
       nl ++
       U "Detay: " ++ url ++ nl ++
       U "#filmönerisi #tmdb").

Definition mode_5_text (movie : movie) : prog str :=
  title <- item "title" (title movie) ;;
  year <- slice_opt (get_default (release_date movie) []) 4 ;;
  let vote := default (vote_average movie) 0%Q in
  let overview := shorten (get_default (overview movie) []) 160 in
  id <- item "id" (movie_id movie) ;;
  let url := U "https://www.themoviedb.org/movie/" ++ str_of_Z id in
  Ret (U "🎲 Bugünün rastgele kaliteli filmi:" ++ nl ++
       title ++ U " (" ++ year ++ U ") – ⭐ " ++ format_1f vote ++ nl ++
       nl ++
       overview ++ nl ++
       nl ++
       U "Listeye ekle: " ++ url ++ nl ++
       U "#filmönerisi #random #tmdb").

Definition mode_8_text (movie : movie) : prog str :=
  title <- item "title" (title movie) ;;
  year <- slice_opt (get_default (release_date movie) []) 4 ;;
  let vote := default (vote_average movie) 0%Q in
  let overview := shorten (get_default (overview movie) []) 150 in
  id <- item "id" (movie_id movie) ;;
  let url := U "https://www.themoviedb.org/movie/" ++ str_of_Z id in
  Ret (U "📺 Türkiye'de Netflix'te en popüler film:" ++ nl ++
       title ++ U " (" ++ year ++ U ") – ⭐ " ++ format_1f vote ++ nl ++
       nl ++
       overview ++ nl ++
       nl ++
       U "TMDB sayfası: " ++ url ++ nl ++
       U "#netflix #film #tmdb").

Definition mode_10_text (movie : movie) : prog str :=
  title <- item "title" (title movie) ;;
  year <- slice_opt (get_default (release_date movie) []) 4 ;;
  let vote := default (vote_average movie) 0%Q in
  let overview := shorten (get_default (overview movie) []) 150 in
  id <- item "id" (movie_id movie) ;;
  let url := U "https://www.themoviedb.org/movie/" ++ str_of_Z id in
  Ret (U "💰 Son haftaların gişe şampiyonu kıvamında film:" ++ nl ++
       title ++ U " (" ++ year ++ U ") – ⭐ " ++ format_1f vote ++ nl ++
       nl ++
       overview ++ nl ++
       nl ++
       U "Daha fazla: " ++ url ++ nl ++
       U "#boxoffice #film #tmdb").

Definition mode_13_text (movie : movie) : prog str :=
  title <- item "title" (title movie) ;;
  year <- slice_opt (get_default (release_date movie) []) 4 ;;
  let vote := default (vote_average movie) 0%Q in
  let overview := shorten (get_default (overview movie) []) 150 in
  id <- item "id" (movie_id movie) ;;
  let url := U "https://www.themoviedb.org/movie/" ++ str_of_Z id in
  Ret (U "🚀 Son 24 saatte trend olan film:" ++ nl ++
       title ++ U " (" ++ year ++ U ") – ⭐ " ++ format_1f vote ++ nl ++
       nl ++
       overview ++ nl ++
       nl ++
       U "TMDB: " ++ url ++ nl ++
       U "#trending #film #tmdb").

Definition mode_14_text (movie : movie) : prog str :=
  title <- item "title" (title movie) ;;
  year <- slice_opt (get_default (release_date movie) []) 4 ;;
  poster_path <- item_jstr "poster_path" (poster_path movie) ;;
  let poster_url := build_poster_url poster_path in
  id <- item "id" (movie_id movie) ;;
  let url := U "https://www.themoviedb.org/movie/" ++ str_of_Z id in
  Ret (U "🖼 Bugünün poster seçimi:" ++ nl ++
       title ++ U " (" ++ year ++ U ")" ++ nl ++
       nl ++
       U "Poster: " ++ fmt poster_url ++ nl ++
       U "Detay: " ++ url ++ nl ++
       U "#poster #film #tmdb").

Definition mode_15_text (movie : movie) : prog str :=
  title <- item "title" (title movie) ;;
  year <- slice_opt (get_default (release_date movie) []) 4 ;;
  let vote := default (vote_average movie) 0%Q in
  let overview := shorten (get_default (overview movie) []) 150 in
  id <- item "id" (movie_id movie) ;;
  let url := U "https://www.themoviedb.org/movie/" ++ str_of_Z id in
  Ret (U "🇹🇷 Bugün en popüler Türk filmi:" ++ nl ++
       title ++ U " (" ++ year ++ U ") – ⭐ " ++ format_1f vote ++ nl ++
       nl ++
       overview ++ nl ++
       nl ++
       U "Detay: " ++ url ++ nl ++
       U "#yerlifilm #turkiye #tmdb").

Definition mode_16_text (movie : movie) : prog str :=
  title <- item "title" (title movie) ;;
  year <- slice_opt (get_default (release_date movie) []) 4 ;;
  let vote := default (vote_average movie) 0%Q in
  let overview := shorten (get_default (overview movie) []) 160 in
  id <- item "id" (movie_id movie) ;;
  let url := U "https://www.themoviedb.org/movie/" ++ str_of_Z id in
  Ret (U "🎞 Bugünün klasik filmi:" ++ nl ++
       title ++ U " (" ++ year ++ U ") – ⭐ " ++ format_1f vote ++ nl ++
       nl ++
       overview ++ nl ++
       nl ++
       U "Koleksiyona ekle: " ++ url ++ nl ++
       U "#klasik #film #tmdb").

Definition mode_17_text (movie : movie) : prog str :=
  title <- item "title" (title movie) ;;
  year <- slice_opt (get_default (release_date movie) []) 4 ;;
  let vote := default (vote_average movie) 0%Q in
  let overview := shorten (get_default (overview movie) []) 160 in
  id <- item "id" (movie_id movie) ;;
  let url := U "https://www.themoviedb.org/movie/" ++ str_of_Z id in
  Ret (U "💎 Bugünün gizli mücevher filmi:" ++ nl ++
       title ++ U " (" ++ year ++ U ") – ⭐ " ++ format_1f vote ++ nl ++
       nl ++
       overview ++ nl ++
       nl ++
       U "Keşfet: " ++ url ++ nl ++
       U "#gizlifilm #filmönerisi #tmdb").

(** *** The modes *)

Definition region : str := TMDB_DEFAULT_REGION env.

Definition mode_1_turkey_popular_today : prog unit :=
  data <- tmdb_get (U "/movie/popular")
            [("language", PStr (U "tr-TR")); ("region", PStr region);
             ("page", PInt 1)] ;;
  let movie := pick_best_result (results_of data) min_vote_count_default in
  if_not_movie movie
    (print (U "Film bulunamadı."))
    (fun movie => text <- mode_1_text movie ;; tweet text).

Definition mode_2_world_popular_today : prog unit :=
  data <- tmdb_get (U "/movie/popular")
            [("language", PStr (U "tr-TR")); ("page", PInt 1)] ;;
  let movie := pick_best_result (results_of data) min_vote_count_default in
  if_not_movie movie
    (print (U "Film bulunamadı."))
    (fun movie => text <- mode_2_text movie ;; tweet text).

Definition mode_3_new_release_today : prog unit :=
  today <- Today Ret ;;
  let start := today - 7 in
  let params :=
    [("language", PStr (U "tr-TR")); ("region", PStr region);
     ("sort_by", PStr (U "popularity.desc"));
     ("primary_release_date.gte", PStr (isoformat start));
     ("primary_release_date.lte", PStr (isoformat today));
     ("page", PInt 1)] in
  data <- tmdb_get (U "/discover/movie") params ;;
  let movie := pick_best_result (results_of data) 1 in
  if_not_movie movie
    (print (U "Son 7 günde yeni film bulunamadı, trending'e düşüyorum.") ;;
     trend_data <- tmdb_get (U "/trending/movie/day")
                     [("language", PStr (U "tr-TR"))] ;;
     let movie := pick_best_result (results_of trend_data) 1 in
     if_not_movie movie
       (print (U "Trending'de de film bulunamadı, tweet atlamayı tercih ettim."))
       (fun movie => text <- mode_3_text movie ;; tweet text))
    (fun movie => text <- mode_3_text movie ;; tweet text).

Definition mode_4_week_top_rated : prog unit :=
  today <- Today Ret ;;
  let start := today - 7 in
  let params :=
    [("language", PStr (U "en-US")); ("sort_by", PStr (U "vote_average.desc"));
     ("vote_count.gte", PInt 100);
     ("primary_release_date.gte", PStr (isoformat start));
     ("primary_release_date.lte", PStr (isoformat today));
     ("page", PInt 1)] in
  data <- tmdb_get (U "/discover/movie") params ;;
  let movie := pick_best_result (results_of data) 100 in
  if_not_movie movie
    (print (U "Film bulunamadı."))
    (fun movie => text <- mode_4_text movie ;; tweet text).

(** The two statements shared by the random modes:
    [total_pages = min(first.get("total_pages", 1), ceiling)] and
    [random_page = random.randint(1, max(total_pages, 1))]. *)
Definition page_limit (first : reply) (ceiling : Z) : Z :=
  let total_pages := Z.min (default (total_pages first) 1) ceiling in
  Z.max total_pages 1.

Definition random_page (first : reply) (ceiling : Z) : prog Z :=
  randint 1 (page_limit first ceiling).

Definition mode_5_random_quality : prog unit :=
  let base_params :=
    [("language", PStr (U "tr-TR")); ("sort_by", PStr (U "popularity.desc"));
     ("vote_average.gte", PNum (75 # 10)); ("vote_count.gte", PInt 300)] in
  first <- tmdb_get (U "/discover/movie") base_params ;;
  let base_params := with_api_key base_params in
  random_page <- random_page first 50 ;;
  let params := dict_set "page" (PInt random_page) base_params in
  data <- tmdb_get (U "/discover/movie") params ;;
  let results := or_list (results_of data) (or_list (results_of first) []) in
  match results with
  | [] => print (U "Rastgele kaliteli film bulunamadı.")
  | _ =>
    movie <- choice results ;;
    text <- mode_5_text movie ;;
    tweet text
  end.

Definition mode_8_netflix_tr_popular : prog unit :=
  let params :=
    [("language", PStr (U "tr-TR")); ("sort_by", PStr (U "popularity.desc"));
     ("with_watch_providers", PInt 8); ("watch_region", PStr region);
     ("page", PInt 1)] in
  data <- tmdb_get (U "/discover/movie") params ;;
  let movie := pick_best_result (results_of data) 20 in
  if_not_movie movie
    (print (U "Netflix filmi bulunamadı."))
    (fun movie => text <- mode_8_text movie ;; tweet text).

Definition mode_10_box_office_like : prog unit :=
  today <- Today Ret ;;
  let start := today - 14 in
  let params :=
    [("language", PStr (U "en-US")); ("sort_by", PStr (U "popularity.desc"));
     ("primary_release_date.gte", PStr (isoformat start));
     ("primary_release_date.lte", PStr (isoformat today));
     ("vote_count.gte", PInt 100); ("page", PInt 1)] in
  data <- tmdb_get (U "/discover/movie") params ;;
  let movie := pick_best_result (results_of data) 100 in
  if_not_movie movie
    (print (U "Film bulunamadı."))
    (fun movie => text <- mode_10_text movie ;; tweet text).

Definition mode_13_trending_riser : prog unit :=
  data <- tmdb_get (U "/trending/movie/day") [("language", PStr (U "en-US"))] ;;
  let movie := pick_best_result (results_of data) 50 in
  if_not_movie movie
    (print (U "Film bulunamadı."))
    (fun movie => text <- mode_13_text movie ;; tweet text).

Definition mode_14_best_poster : prog unit :=
  data <- tmdb_get (U "/movie/popular")
            [("language", PStr (U "en-US")); ("page", PInt 1)] ;;
  let candidates := filter has_poster (results_of data) in
  match candidates with
  | [] => print (U "Poster'lı film bulunamadı.")
  | _ =>
    movie <- choice candidates ;;
    text <- mode_14_text movie ;;
    tweet text
  end.

Definition mode_15_turkish_movies_popular : prog unit :=
  let params :=
    [("language", PStr (U "tr-TR")); ("with_original_language", PStr (U "tr"));
     ("sort_by", PStr (U "popularity.desc")); ("page", PInt 1)] in
  data <- tmdb_get (U "/discover/movie") params ;;
  let movie := pick_best_result (results_of data) 20 in
  if_not_movie movie
    (print (U "Türk filmi bulunamadı."))
    (fun movie => text <- mode_15_text movie ;; tweet text).

Definition mode_16_classic_of_day : prog unit :=
  let base_params :=
    [("language", PStr (U "en-US")); ("sort_by", PStr (U "popularity.desc"));
     ("primary_release_date.lte", PStr (U "2005-12-31"));
     ("vote_count.gte", PInt 500)] in
  first <- tmdb_get (U "/discover/movie") base_params ;;
  let base_params := with_api_key base_params in
  random_page <- random_page first 50 ;;
  let params := dict_set "page" (PInt random_page) base_params in
  data <- tmdb_get (U "/discover/movie") params ;;
  let results := or_list (results_of data) (or_list (results_of first) []) in
  match results with
  | [] => print (U "Klasik film bulunamadı.")
  | _ =>
    movie <- choice results ;;
    text <- mode_16_text movie ;;
    tweet text
  end.

(** The part of [mode_17_hidden_gem] after its two searches, lines 518-540:
    [first] and [results] are the answer that was kept and [base_params]
    the parameters that produced it. *)
Definition mode_17_draw (first : reply) (results : list movie)
    (base_params : dict) : prog unit :=
  random_page <- random_page first 30 ;;
  let params := dict_set "page" (PInt random_page) base_params in
  data <- tmdb_get (U "/discover/movie") params ;;
  let all_results := or_list (results_of data) results in
  movie <- choice all_results ;;
  text <- mode_17_text movie ;;
  tweet text.

Definition mode_17_hidden_gem : prog unit :=
  let base_params :=
    [("language", PStr (U "tr-TR")); ("sort_by", PStr (U "popularity.desc"));
     ("vote_average.gte", PNum 7); ("vote_count.gte", PInt 100);
     ("vote_count.lte", PInt 2000)] in
  first <- tmdb_get (U "/discover/movie") base_params ;;
  let base_params := with_api_key base_params in
  let results := or_list (results_of first) [] in
  match results with
  | [] =>
    print (U "Dar hidden gem filtresinde film bulunamadı, filtremi gevşetiyorum.") ;;
    let relaxed_params :=
      [("language", PStr (U "tr-TR")); ("sort_by", PStr (U "popularity.desc"));
       ("vote_average.gte", PNum 7); ("vote_count.gte", PInt 50)] in
    first <- tmdb_get (U "/discover/movie") relaxed_params ;;
    let relaxed_params := with_api_key relaxed_params in
    let results := or_list (results_of first) [] in
    let base_params := relaxed_params in
    match results with
    | [] =>
      print (U "Hidden gem film hâlâ bulunamadı, tweet atlamayı tercih ettim.")
    | _ => mode_17_draw first results base_params
    end
  | _ => mode_17_draw first results base_params
  end.

Definition MODES : list (str * prog unit) :=
  [(U "1", mode_1_turkey_popular_today);
   (U "2", mode_2_world_popular_today);
   (U "3", mode_3_new_release_today);
   (U "4", mode_4_week_top_rated);
   (U "5", mode_5_random_quality);
   (U "8", mode_8_netflix_tr_popular);
   (U "10", mode_10_box_office_like);
   (U "13", mode_13_trending_riser);
   (U "14", mode_14_best_poster);
   (U "15", mode_15_turkish_movies_popular);
   (U "16", mode_16_classic_of_day);
   (U "17", mode_17_hidden_gem)].

(** [MODES.get(key)] *)
Fixpoint modes_get (table : list (str * prog unit)) (key : str)
    : option (prog unit) :=
  match table with
  | [] => None
  | (k, f) :: table' => if str_eqb k key then Some f else modes_get table' key
  end.

(** [main], lines 560-571, on the argument vector [sys.argv]. *)
Definition main (argv : list str) : prog unit :=
  ensure_env ;;
  if Z.of_nat (List.length argv) <? 2 then
    Raise (SystemExit
             (U "Kullanım: python bot.py <MODE>" ++ nl ++
              U "Örnek: python bot.py 1  # Türkiye'de en popüler film"))
  else
    match nth_error argv 1 with
    | None => Raise IndexError
    | Some mode_key =>
      match modes_get MODES mode_key with
      | None => Raise (SystemExit (U "Bilinmeyen MODE: " ++ mode_key))
      | Some func => func
      end
    end.

(** The message texts, by mode key. *)
Definition TEXTS : list (str * (movie -> prog str)) :=
  [(U "1", mode_1_text); (U "2", mode_2_text); (U "3", mode_3_text);
   (U "4", mode_4_text); (U "5", mode_5_text); (U "8", mode_8_text);
   (U "10", mode_10_text); (U "13", mode_13_text); (U "14", mode_14_text);
   (U "15", mode_15_text); (U "16", mode_16_text); (U "17", mode_17_text)].

End Bot.

(** ** Selection on items as they are decoded

    [json.loads] hands over a number, [None] for [null], or nothing when the
    key is not there.  [movie] above is the item none of whose numeric
    members is [null].  On the items below such a member can be [null], and
    then a comparison of [pick_best_result] raises [TypeError]. *)
Module Json.

Inductive jnum (A : Type) : Type :=
| NumAbsent
| NumNull
| Num (a : A).

Arguments NumAbsent {A}.
Arguments NumNull {A}.
Arguments Num {A} a.

(** [d.get(key, default)] on a numeric member; [None] is Python's [None]. *)
Definition get_num {A} (f : jnum A) (default : A) : option A :=
  match f with
  | NumAbsent => Some default
  | NumNull => None
  | Num a => Some a
  end.

Record item : Type := {
  movie_id : option Z;
  title : option str;
  release_date : jstr;
  vote_average : jnum Q;
  vote_count : jnum Z;
  popularity : jnum Q;
  poster_path : jstr;
  overview : jstr;
  other_members : bool
}.

(** A step that can raise, followed by what is done with its value. *)
Definition and_then {A B} (r : exn + A) (k : A -> exn + B) : exn + B :=
  match r with
  | inl e => inl e
  | inr a => k a
  end.

(** [x >= n] where [x] is a number or [None]. *)
Definition ge (x : option Z) (n : Z) : exn + bool :=
  match x with
  | Some v => inr (v >=? n)
  | None => inl TypeError
  end.

(** [==] and [<] on values that are numbers or [None]. *)
Definition eq_value (a b : option Q) : bool :=
  match a, b with
  | Some x, Some y => Qeq_bool x y
  | None, None => true
  | _, _ => false
  end.

Definition lt_value (a b : option Q) : exn + bool :=
  match a, b with
  | Some x, Some y => inr (match (x ?= y)%Q with Lt => true | _ => false end)
  | _, _ => inl TypeError
  end.

(** [<] on pairs: the first components that differ by [==] are compared
    by [<]; pairs equal in both components are not less. *)
Definition key_lt (a b : option Q * option Q) : exn + bool :=
  if eq_value (fst a) (fst b) then
    if eq_value (snd a) (snd b) then inr false
    else lt_value (snd a) (snd b)
  else lt_value (fst a) (fst b).

Definition sort_key (r : item) : option Q * option Q :=
  (get_num (vote_average r) 0%Q, get_num (popularity r) 0%Q).

(** [list.sort(key=..., reverse=True)], which raises what a comparison
    raises.  CPython asks for other comparisons than this insertion sort,
    but not for fewer kinds: a sort cannot place two items of which one
    has a number and the other [None] in the deciding component without
    comparing two such items, so both raise on the same lists, and where
    none raises both give the stable descending order. *)
Fixpoint insert_desc (x : item) (l : list item) : exn + list item :=
  match l with
  | [] => inr [x]
  | y :: l' =>
    and_then (key_lt (sort_key x) (sort_key y)) (fun less =>
      if less then and_then (insert_desc x l') (fun t => inr (y :: t))
      else inr (x :: l))
  end.

Fixpoint sort_desc (l : list item) : exn + list item :=
  match l with
  | [] => inr []
  | x :: l' => and_then (sort_desc l') (insert_desc x)
  end.

Definition has_poster (r : item) : bool := truthy (get (poster_path r)).

(** The condition of the comprehension at line 48; [and] evaluates its
    right side only when the left side is truthy. *)
Definition has_poster_and_votes (min_vote_count : Z) (r : item)
    : exn + bool :=
  if has_poster r then ge (get_num (vote_count r) 0) min_vote_count
  else inr false.

(** [[r for r in l if cond(r)]] with a condition that can raise. *)
Fixpoint comprehension (cond : item -> exn + bool) (l : list item)
    : exn + list item :=
  match l with
  | [] => inr []
  | r :: l' =>
    and_then (cond r) (fun keep =>
      and_then (comprehension cond l') (fun t =>
        inr (if keep then r :: t else t)))
  end.

Definition filtered (results : list item) (min_vote_count : Z)
    : exn + list item :=
  and_then (comprehension (has_poster_and_votes min_vote_count) results)
    (fun filtered =>
       inr (match filtered with
            | [] => or_list (filter has_poster results) results
            | _ => filtered
            end)).

Definition pick_best_result (results : list item) (min_vote_count : Z)
    : exn + option item :=
  and_then (filtered results min_vote_count) (fun filtered =>
    match filtered with
    | [] => inr None
    | _ => and_then (sort_desc filtered) (fun sorted =>
             inr (hd_error sorted))
    end).

(** No numeric member of the item is [null]. *)
Definition numeric (r : item) : bool :=
  match vote_average r, vote_count r, popularity r with
  | NumNull, _, _ | _, NumNull, _ | _, _, NumNull => false
  | _, _, _ => true
  end.

(** The item with the defaults of [pick_best_result] written in: a missing
    poster as [null], a missing number as zero. *)
Definition with_default {A} (f : jnum A) (default : A) : jnum A :=
  match f with
  | NumAbsent => Num default
  | _ => f
  end.

Definition with_defaults (r : item) : item :=
  {| movie_id := movie_id r;
     title := title r;
     release_date := release_date r;
     vote_average := with_default (vote_average r) 0%Q;
     vote_count := with_default (vote_count r) 0;
     popularity := with_default (popularity r) 0%Q;
     poster_path := match poster_path r with
                    | Absent => Null
                    | p => p
                    end;
     overview := overview r;
     other_members := other_members r |}.

End Json.

(** A [movie] as an item, and back. *)
Definition num_of {A} (o : option A) : Json.jnum A :=
  match o with
  | Some a => Json.Num a
  | None => Json.NumAbsent
  end.

Definition of_movie (m : movie) : Json.item :=
  {| Json.movie_id := movie_id m;
     Json.title := title m;
     Json.release_date := release_date m;
     Json.vote_average := num_of (vote_average m);
     Json.vote_count := num_of (vote_count m);
     Json.popularity := num_of (popularity m);
     Json.poster_path := poster_path m;
     Json.overview := overview m;
     Json.other_members := other_members m |}.

Definition number_of {A} (f : Json.jnum A) : option A :=
  match f with
  | Json.Num a => Some a
  | _ => None
  end.

Definition to_movie (r : Json.item) : movie :=
  {| movie_id := Json.movie_id r;
     title := Json.title r;
     release_date := Json.release_date r;
     vote_average := number_of (Json.vote_average r);
     vote_count := number_of (Json.vote_count r);
     popularity := number_of (Json.popularity r);
     poster_path := Json.poster_path r;
     overview := Json.overview r;
     other_members := Json.other_members r |}.

(** ** Instances for concrete runs *)

(** [str.lower] on ASCII letters; other code points are kept. *)
Definition ascii_lower (s : str) : str :=
  map (fun c => if ((65 <=? c) && (c <=? 90))%N then (c + 32)%N else c) s.

(** Zero-padded decimal of a non-negative number. *)
Definition pad (width : nat) (n : Z) : str :=
  let digits := str_of_Z n in
  repeat 48%N (width - List.length digits) ++ digits.

(** [date.fromordinal(n).isoformat()] in the proleptic Gregorian calendar. *)
Definition iso_of_ordinal (n : Z) : str :=
  let z := n + 305 in
  let era := z / 146097 in
  let doe := z mod 146097 in
  let yoe := (doe - doe / 1460 + doe / 36524 - doe / 146096) / 365 in
  let doy := doe - (365 * yoe + yoe / 4 - yoe / 100) in
  let mp := (5 * doy + 2) / 153 in
  let d := doy - (153 * mp + 2) / 5 + 1 in
  let m := if mp <? 10 then mp + 3 else mp - 9 in
  let y := yoe + era * 400 + (if m <=? 2 then 1 else 0) in
  pad 4 y ++ U "-" ++ pad 2 m ++ U "-" ++ pad 2 d.

Definition full_env : config :=
  {| TMDB_API_KEY := Some (U "k");
     TMDB_DEFAULT_REGION := U "TR";
     X_BEARER_TOKEN := Some (U "b");
     X_API_KEY := Some (U "x");
     X_API_SECRET := Some (U "s");
     X_ACCESS_TOKEN := Some (U "t");
     X_ACCESS_SECRET := Some (U "a") |}.

(** The value of the double nearest to 8.2. *)
Definition double_8_2 : Q := 2308094809027379 # 281474976710656.

Definition test_movie : movie :=
  {| movie_id := Some 42;
     title := Some (U "Test Movie");
     release_date := Str (U "2024-03-15");
     vote_average := Some double_8_2;
     vote_count := Some 500;
     popularity := Some 1%Q;
     poster_path := Str (U "/x.jpg");
     overview := Str (U "A film.");
     other_members := false |}.

Definition reply_of (l : list movie) (pages : Z) : reply :=
  {| results := Some l; total_pages := Some pages |}.

Definition quiet_world (l : list movie) (pages : Z) (answer : exn + str)
    : world :=
  {| http := fun _ _ _ => inr (reply_of l pages);
     entropy := fun _ => 0;
     today := 739193;
     twitter := fun _ => answer |}.

(** ** Notions used by the statements *)

(** [out] is [text] cut at its last whitespace character before position
    [budget], with the ellipsis appended. *)
Definition cut_at_last_whitespace (text : str) (budget : Z) (out : str)
    : Prop :=
  exists cut c,
    Z.of_nat cut < budget /\
    nth_error text cut = Some c /\ is_whitespace c = true /\
    (forall j d, (cut < j)%nat -> Z.of_nat j < budget ->
                 nth_error text j = Some d -> is_whitespace d = false) /\
    out = firstn cut text ++ [ellipsis].

(** A word of 200 letters [a], and a summary whose second line is that
    word. *)
Definition long_word : str := repeat 97%N 200.
Definition two_lines : str := U "bir iki" ++ nl ++ long_word.

(** The first item of [l] that no other item beats: the scan keeps the
    earlier of two items unless the later one has the larger key. *)
Fixpoint first_max {A K} (lt : K -> K -> bool) (key : A -> K) (l : list A)
    : option A :=
  match l with
  | [] => None
  | x :: l' =>
    match first_max lt key l' with
    | None => Some x
    | Some y => if lt (key x) (key y) then Some y else Some x
    end
  end.

(** The stages of the selection chain and the two ranking components, read
    off the members of an item: the poster reference when it is a non-empty
    string, the number of votes, the average rating and the popularity, a
    number that is missing counting as zero. *)
Definition with_poster (r : movie) : bool :=
  match poster_path r with
  | Str (_ :: _) => true
  | _ => false
  end.

Definition rating_count (r : movie) : Z :=
  match vote_count r with
  | Some n => n
  | None => 0
  end.

Definition strict_stage (results : list movie) (min_vote_count : Z)
    : list movie :=
  filter (fun r => with_poster r && (min_vote_count <=? rating_count r))
         results.

Definition poster_stage (results : list movie) : list movie :=
  filter with_poster results.

(** The surviving set: the first stage of the chain that is not empty. *)
Definition surviving (results : list movie) (min_vote_count : Z)
    : list movie :=
  match strict_stage results min_vote_count with
  | [] => match poster_stage results with
          | [] => results
          | stage => stage
          end
  | stage => stage
  end.

Definition rating (r : movie) : Q :=
  match vote_average r with
  | Some q => q
  | None => 0%Q
  end.

Definition popularity_score (r : movie) : Q :=
  match popularity r with
  | Some q => q
  | None => 0%Q
  end.

(** A well rated item without poster, and an item that ties with
    [test_movie] on both ranking components. *)
Definition bare_movie : movie :=
  {| movie_id := Some 7;
     title := Some (U "Afişsiz");
     release_date := Str (U "1999-01-01");
     vote_average := Some (99 # 10);
     vote_count := Some 9000;
     popularity := Some 50%Q;
     poster_path := Null;
     overview := Absent;
     other_members := true |}.

Definition twin_movie : movie :=
  {| movie_id := Some 43;
     title := Some (U "Twin");
     release_date := Str (U "2024-03-16");
     vote_average := Some double_8_2;
     vote_count := Some 600;
     popularity := Some 1%Q;
     poster_path := Str (U "/y.jpg");
     overview := Str (U "Another film.");
     other_members := false |}.

(** An item with a poster and the best rating of all, but two votes; and an
    item that ties with [test_movie] on the rating and is more popular, yet
    less popular than the lower rated [wordy_movie]. *)
Definition hyped_movie : movie :=
  {| movie_id := Some 44;
     title := Some (U "Hyped");
     release_date := Str (U "2025-01-01");
     vote_average := Some 10%Q;
     vote_count := Some 2;
     popularity := Some 900%Q;
     poster_path := Str (U "/h.jpg");
     overview := Absent;
     other_members := false |}.

Definition loud_twin : movie :=
  {| movie_id := Some 45;
     title := Some (U "Loud Twin");
     release_date := Str (U "2024-03-17");
     vote_average := Some double_8_2;
     vote_count := Some 60;
     popularity := Some 2%Q;
     poster_path := Str (U "/l.jpg");
     overview := Absent;
     other_members := false |}.

(** The [movie] with the defaults of the selection written in. *)
Definition movie_with_defaults (m : movie) : movie :=
  {| movie_id := movie_id m;
     title := title m;
     release_date := release_date m;
     vote_average := Some (rating m);
     vote_count := Some (rating_count m);
     popularity := Some (popularity_score m);
     poster_path := match poster_path m with
                    | Absent => Null
                    | p => p
                    end;
     overview := overview m;
     other_members := other_members m |}.

(** Items in which a number is [null], and one in which all are missing. *)
Definition null_votes_item : Json.item :=
  {| Json.movie_id := Some 42;
     Json.title := Some (U "Test Movie");
     Json.release_date := Str (U "2024-03-15");
     Json.vote_average := Json.Num double_8_2;
     Json.vote_count := Json.NumNull;
     Json.popularity := Json.Num 1%Q;
     Json.poster_path := Str (U "/x.jpg");
     Json.overview := Str (U "A film.");
     Json.other_members := false |}.

Definition null_rating_item : Json.item :=
  {| Json.movie_id := Some 43;
     Json.title := Some (U "Twin");
     Json.release_date := Str (U "2024-03-16");
     Json.vote_average := Json.NumNull;
     Json.vote_count := Json.Num 600;
     Json.popularity := Json.Num 1%Q;
     Json.poster_path := Str (U "/y.jpg");
     Json.overview := Str (U "Another film.");
     Json.other_members := false |}.

Definition bare_item : Json.item :=
  {| Json.movie_id := Some 46;
     Json.title := Some (U "Bare");
     Json.release_date := Absent;
     Json.vote_average := Json.NumAbsent;
     Json.vote_count := Json.NumAbsent;
     Json.popularity := Json.NumAbsent;
     Json.poster_path := Str (U "/b.jpg");
     Json.overview := Absent;
     Json.other_members := false |}.




(** The six values the bot cannot run without, by the name of their
    environment variable. *)
Definition required (env : config) : list (str * option str) :=
  [(U "TMDB_API_KEY", TMDB_API_KEY env);
   (U "X_BEARER_TOKEN", X_BEARER_TOKEN env);
   (U "X_API_KEY", X_API_KEY env);
   (U "X_API_SECRET", X_API_SECRET env);
   (U "X_ACCESS_TOKEN", X_ACCESS_TOKEN env);
   (U "X_ACCESS_SECRET", X_ACCESS_SECRET env)].

(** An environment in which only the access secret is missing. *)
Definition partial_env : config :=
  {| TMDB_API_KEY := Some (U "k");
     TMDB_DEFAULT_REGION := U "TR";
     X_BEARER_TOKEN := Some (U "b");
     X_API_KEY := Some (U "x");
     X_API_SECRET := Some (U "s");
     X_ACCESS_TOKEN := Some (U "t");
     X_ACCESS_SECRET := None |}.

(** The page draw of a random mode as it shows in the events of a run: the
    draw itself, then the request for the page drawn. *)
Definition page_request (first : reply) (ceiling : Z) (t : list event)
    : Prop :=
  exists v url params answer rest,
    t = EvRandom (page_limit first ceiling) (v - 1)
        :: EvGet url params answer :: rest /\
    In ("page", PInt v) params /\
    1 <= v <= Z.max 1 (Z.min (default (total_pages first) 1) ceiling) /\
    (total_pages first = Some 0 -> v = 1).

(** No event of [t] is a call to the publishing platform. *)
Definition no_tweet (t : list event) : Prop :=
  forallb (fun e => negb (is_tweet e)) t = true.

(** A program that, in the world [w], returns without having called the
    publishing platform, wherever it starts. *)
Definition quiet {A} (w : world) (p : prog A) : Prop :=
  forall g d, no_tweet (fst (run p w g d)) /\
              exists a, snd (run p w g d) = Returned a.



(** ** Calls and what a program can do

    A call is an event without its answer. *)
Inductive call : Type :=
| CGet (url : str) (params : dict)
| CRandom (n : Z)
| CToday
| CPrint (line : str)
| CTweet (text : str).

Definition call_of (e : event) : call :=
  match e with
  | EvGet url params _ => CGet url params
  | EvRandom n _ => CRandom n
  | EvToday _ => CToday
  | EvPrint line => CPrint line
  | EvTweet text _ => CTweet text
  end.

(** Every call that [p] can make, whatever it is answered, satisfies [P]. *)
Fixpoint always {A} (P : call -> Prop) (p : prog A) : Prop :=
  match p with
  | Ret _ => True
  | Raise _ => True
  | HttpGet url params k => P (CGet url params) /\ forall r, always P (k r)
  | RandBelow n k => P (CRandom n) /\ forall v, always P (k v)
  | Today k => P CToday /\ forall d, always P (k d)
  | Print line k => P (CPrint line) /\ always P k
  | CreateTweet text k => P (CTweet text) /\ forall r, always P (k r)
  end.

(** Whatever it is answered, the calls of [p] cost at most [n] in all. *)
Fixpoint bounded {A} (cost : call -> nat) (p : prog A) (n : nat) : Prop :=
  match p with
  | Ret _ => True
  | Raise _ => True
  | HttpGet url params k =>
    (cost (CGet url params) <= n)%nat /\
    forall r, bounded cost (k r) (n - cost (CGet url params))
  | RandBelow m k =>
    (cost (CRandom m) <= n)%nat /\
    forall v, bounded cost (k v) (n - cost (CRandom m))
  | Today k =>
    (cost CToday <= n)%nat /\ forall d, bounded cost (k d) (n - cost CToday)
  | Print line k =>
    (cost (CPrint line) <= n)%nat /\ bounded cost k (n - cost (CPrint line))
  | CreateTweet text k =>
    (cost (CTweet text) <= n)%nat /\
    forall r, bounded cost (k r) (n - cost (CTweet text))
  end.

(** The cost of the events of a run. *)
Definition total (cost : call -> nat) (t : list event) : nat :=
  list_sum (map (fun e => cost (call_of e)) t).

Definition tweet_cost (c : call) : nat :=
  match c with
  | CTweet _ => 1
  | _ => 0
  end.

Definition get_cost (c : call) : nat :=
  match c with
  | CGet _ _ => 1
  | _ => 0
  end.

Definition is_get (e : event) : bool :=
  match e with
  | EvGet _ _ _ => true
  | _ => false
  end.

(** The largest number of metadata requests a mode makes. *)
Definition request_budget (key : str) : nat :=
  if str_eqb key (U "17") then 3
  else if str_eqb key (U "3") || str_eqb key (U "5") || str_eqb key (U "16")
       then 2
       else 1.

(** A candidate whose title alone has 200 characters, and a run of mode 1
    and of mode 5 that finds it. *)
Definition wordy_movie : movie :=
  {| movie_id := Some 99;
     title := Some long_word;
     release_date := Str (U "2020-01-01");
     vote_average := Some 7%Q;
     vote_count := Some 100;
     popularity := Some 3%Q;
     poster_path := Str (U "/w.jpg");
     overview := Str (U "Uzun bir film.");
     other_members := false |}.

Definition wordy_world : world :=
  quiet_world [wordy_movie] 1 (inr (U "ok")).

(** The texts handed to the publishing platform during a run. *)
Definition posted (t : list event) : list str :=
  flat_map (fun e => match e with
                     | EvTweet text _ => [text]
                     | _ => []
                     end) t.

(** A service whose first answer is empty and whose later answers hold one
    item: mode 17 has to relax its filter. *)
Definition relaxing_world : world :=
  {| http := fun n _ _ =>
               match n with
               | O => inr (reply_of [] 0)
               | _ => inr (reply_of [test_movie] 4)
               end;
     entropy := fun _ => 6;
     today := 739193;
     twitter := fun _ => inr (U "ok") |}.

(** The usage text of [main]. *)
Definition usage : str :=
  U "Kullanım: python bot.py <MODE>" ++ nl ++
  U "Örnek: python bot.py 1  # Türkiye'de en popüler film".

(** A service that is down. *)
Definition down_world : world :=
  {| http := fun _ _ _ => inl (OtherError (U "ConnectionError"));
     entropy := fun _ => 0;
     today := 739193;
     twitter := fun _ => inr (U "ok") |}.

(** Items that lack a member or hold [null] where a string is expected. *)
Definition untitled_movie : movie :=
  {| movie_id := Some 5;
     title := None;
     release_date := Str (U "2021-05-05");
     vote_average := Some 6%Q;
     vote_count := Some 80;
     popularity := Some 2%Q;
     poster_path := Str (U "/u.jpg");
     overview := Null;
     other_members := true |}.

Definition undated_movie : movie :=
  {| movie_id := Some 6;
     title := Some (U "Tarihsiz");
     release_date := Null;
     vote_average := Some 6%Q;
     vote_count := Some 80;
     popularity := Some 2%Q;
     poster_path := Str (U "/d.jpg");
     overview := Str (U "Bir film.");
     other_members := true |}.

(** The items the metadata service has answered. *)
Definition answer_items (r : exn + reply) : list movie :=
  match r with
  | inl _ => []
  | inr data => results_of data
  end.

Definition items_of (t : list event) : list movie :=
  flat_map (fun e => match e with
                     | EvGet _ _ r => answer_items r
                     | _ => []
                     end) t.

(** Whatever [p] is answered, each text it hands to the publishing platform
    satisfies [ok] of the items answered until then ([seen] before [p]
    starts). *)
Fixpoint sourced {A} (ok : list movie -> str -> Prop) (seen : list movie)
    (p : prog A) : Prop :=
  match p with
  | Ret _ => True
  | Raise _ => True
  | HttpGet url params k =>
    forall r, sourced ok (seen ++ answer_items r) (k r)
  | RandBelow n k => forall v, sourced ok seen (k v)
  | Today k => forall d, sourced ok seen (k d)
  | Print line k => sourced ok seen k
  | CreateTweet text k => ok seen text /\ forall r, sourced ok seen (k r)
  end.

(** [text] is the text of mode [key] for one of the items [seen], clipped
    for publication. *)
Definition rendering (key : str) (seen : list movie) (text : str) : Prop :=
  exists f m t,
    In (key, f) TEXTS /\ In m seen /\ f m = Ret t /\ text = tweet_clip t.

(** [text] is the clipped text of mode 14 for one of the items [seen], that
    item has a poster path [path], and the text holds its image URL. *)
Definition poster_rendering (seen : list movie) (text : str) : Prop :=
  exists m path t,
    In m seen /\ poster_path m = Str path /\ path <> [] /\
    mode_14_text m = Ret t /\ text = tweet_clip t /\
    contains (U "Poster: " ++ TMDB_IMAGE_BASE ++ path) t = true.

(** A page on which only the second item has a poster. *)
Definition poster_world : world :=
  quiet_world [bare_movie; test_movie] 1 (inr (U "ok")).

(** The request [EvGet url' params' _] asks for page [page] of the query
    [EvGet url params _]: same address, every parameter kept, [page] added. *)
Definition asks_page (url : str) (params : dict) (page : Z)
    (url' : str) (params' : dict) : Prop :=
  url' = url /\
  (forall k x, In (k, x) params -> In (k, x) params') /\
  In ("page", PInt page) params' /\
  List.length params' = S (List.length params).

(** The five variables of the publishing platform. *)
Definition platform_names : list str :=
  [U "X_BEARER_TOKEN"; U "X_API_KEY"; U "X_API_SECRET"; U "X_ACCESS_TOKEN";
   U "X_ACCESS_SECRET"].

Definition platform_values (env : config) : list (option str) :=
  [X_BEARER_TOKEN env; X_API_KEY env; X_API_SECRET env; X_ACCESS_TOKEN env;
   X_ACCESS_SECRET env].

(** A poster with few votes and a low rating. *)
Definition modest_movie : movie :=
  {| movie_id := Some 11;
     title := Some (U "Mütevazı");
     release_date := Str (U "2023-02-02");
     vote_average := Some 1%Q;
     vote_count := Some 2;
     popularity := Some 0%Q;
     poster_path := Str (U "/m.jpg");
     overview := Str (U "Küçük bir film.");
     other_members := false |}.

(** Whatever it is answered, [p] returns: no exception leaves it. *)
Fixpoint returns {A} (p : prog A) : Prop :=
  match p with
  | Ret _ => True
  | Raise _ => False
  | HttpGet _ _ k => forall r, returns (k r)
  | RandBelow _ k => forall v, returns (k v)
  | Today k => forall d, returns (k d)
  | Print _ k => returns k
  | CreateTweet _ k => forall r, returns (k r)
  end.

(** Whenever the publishing platform answers a post of [p] with
    [Forbidden], what is left of [p] returns. *)
Fixpoint forgiving {A} (p : prog A) : Prop :=
  match p with
  | Ret _ => True
  | Raise _ => True
  | HttpGet _ _ k => forall r, forgiving (k r)
  | RandBelow _ k => forall v, forgiving (k v)
  | Today k => forall d, forgiving (k d)
  | Print _ k => forgiving k
  | CreateTweet _ k =>
    (forall msg, returns (k (inl (Forbidden msg)))) /\
    forall r, forgiving (k r)
  end.

(** A platform that rejects every post as a duplicate. *)
Definition duplicate_world : world :=
  quiet_world [test_movie] 1
    (inl (Forbidden (U "403 Forbidden: duplicate content"))).

(** Whether [pick_best_result] found an item that counts as one in
    [if not movie]. *)
Definition found (picked : option movie) : bool :=
  match picked with
  | Some m => negb (dict_is_empty m)
  | None => false
  end.

(** A service whose first page holds an item and whose other pages are
    empty. *)
Definition thin_world : world :=
  {| http := fun n _ _ =>
               match n with
               | O => inr (reply_of [test_movie] 9)
               | _ => inr (reply_of [] 9)
               end;
     entropy := fun _ => 4;
     today := 739193;
     twitter := fun _ => inr (U "ok") |}.

(** The address under which a mode links the item: mode 1 uses the short
    host, the other modes the long one. *)
Definition detail_base (key : str) : str :=
  if str_eqb key (U "1") then U "https://tmdb.org/movie/"
  else U "https://www.themoviedb.org/movie/".

(** Whatever it is answered, [p] does not return before a line has been
    printed ([seen]: one has been printed before [p] starts). *)
Fixpoint logs {A} (seen : bool) (p : prog A) : Prop :=
  match p with
  | Ret _ => seen = true
  | Raise _ => True
  | HttpGet _ _ k => forall r, logs seen (k r)
  | RandBelow _ k => forall v, logs seen (k v)
  | Today k => forall d, logs seen (k d)
  | Print _ k => logs true k
  | CreateTweet _ k => forall r, logs seen (k r)
  end.

(** The exceptions the bot raises of its own accord. *)
Definition own_exit (e : exn) : Prop :=
  match e with
  | RuntimeError _ | SystemExit _ | KeyError _ | TypeError => True
  | _ => False
  end.

(** The exception in an answer of the outside, if it is one. *)
Definition exn_of {B} (r : exn + B) : list exn :=
  match r with
  | inl e => [e]
  | inr _ => []
  end.

Definition errors_of (t : list event) : list exn :=
  flat_map (fun e => match e with
                     | EvGet _ _ r => exn_of r
                     | EvTweet _ r => exn_of r
                     | _ => []
                     end) t.

(** Whatever it is answered, [p] asks the generator for non-empty ranges
    only, and an exception that leaves [p] is one of the bot's own or one
    that the outside answered ([seen]: those answered before [p] starts). *)
Fixpoint exits {A} (seen : list exn) (p : prog A) : Prop :=
  match p with
  | Ret _ => True
  | Raise e => own_exit e \/ In e seen
  | HttpGet _ _ k => forall r, exits (seen ++ exn_of r) (k r)
  | RandBelow n k => 1 <= n /\ forall v, 0 <= v < n -> exits seen (k v)
  | Today k => forall d, exits seen (k d)
  | Print _ k => exits seen k
  | CreateTweet _ k => forall r, exits (seen ++ exn_of r) (k r)
  end.

(** * Properties *)

(** ** Lists and strings *)

Lemma starts_with_app (p s : str) : starts_with p (p ++ s) = true.
Proof.
  induction p as [|c p IH]; simpl.
  - reflexivity.
  - now rewrite N.eqb_refl, IH.
Qed.

Lemma starts_with_prefix (p s : str) :
  starts_with p s = true -> exists r, s = p ++ r.
Proof.
  revert s; induction p as [|c p IH]; intros s H; simpl in *.
  - now exists s.
  - destruct s as [|d s]; [discriminate|].
    apply andb_true_iff in H as [Hc Hp].
    apply N.eqb_eq in Hc; subst d.
    destruct (IH _ Hp) as [r ->].
    now exists r.
Qed.

Lemma contains_app (sub pre post : str) :
  contains sub (pre ++ sub ++ post) = true.
Proof.
  induction pre as [|c pre IH].
  - simpl app. destruct (sub ++ post) eqn:E; simpl;
      rewrite <- E, starts_with_app; reflexivity.
  - simpl. rewrite IH. apply orb_true_r.
Qed.

Lemma contains_split (sub s : str) :
  contains sub s = true -> exists pre post, s = pre ++ sub ++ post.
Proof.
  induction s as [|c s IH]; simpl; intros H.
  - rewrite orb_false_r in H.
    destruct (starts_with_prefix _ _ H) as [r ->].
    now exists [], r.
  - apply orb_true_iff in H as [H|H].
    + destruct (starts_with_prefix _ _ H) as [r ->].
      now exists [], r.
    + destruct (IH H) as (pre & post & ->).
      now exists (c :: pre), post.
Qed.

Lemma ends_with_app (pre suffix : str) : ends_with suffix (pre ++ suffix) = true.
Proof.
  unfold ends_with. rewrite rev_app_distr. apply starts_with_app.
Qed.

Lemma len_app (a b : str) : len (a ++ b) = len a + len b.
Proof. unfold len. rewrite length_app. lia. Qed.

Lemma slice_to_nonneg (s : str) (n : Z) :
  0 <= n -> slice_to s n = firstn (Z.to_nat n) s.
Proof.
  intros H. unfold slice_to.
  destruct (n <? 0) eqn:E; [apply Z.ltb_lt in E; lia | reflexivity].
Qed.

Lemma len_slice_to (s : str) (n : Z) :
  0 <= n -> len (slice_to s n) = Z.min n (len s).
Proof.
  intros H. rewrite slice_to_nonneg by assumption.
  unfold len. rewrite length_firstn. lia.
Qed.

Lemma split_last_Some (sep : codepoint) (s a b : str) :
  split_last sep s = Some (a, b) -> s = a ++ sep :: b /\ ~ In sep b.
Proof.
  revert a b; induction s as [|c s IH]; intros a b H; simpl in H.
  - discriminate.
  - destruct (split_last sep s) as [[a' b']|] eqn:E.
    + inversion H; subst. destruct (IH _ _ eq_refl) as [-> Hb]. now split.
    + destruct (c =? sep)%N eqn:Ec; [|discriminate].
      apply N.eqb_eq in Ec. inversion H; subst. split; [reflexivity|].
      clear IH H. induction b as [|d b IHb]; simpl in *; [tauto|].
      destruct (split_last sep b) as [[? ?]|]; [discriminate|].
      destruct (d =? sep)%N eqn:Ed; [discriminate|].
      apply N.eqb_neq in Ed. intros [H|H]; [congruence | now apply IHb].
Qed.

Lemma split_last_None (sep : codepoint) (s : str) :
  split_last sep s = None -> ~ In sep s.
Proof.
  induction s as [|c s IH]; simpl; [tauto|].
  destruct (split_last sep s) as [[? ?]|]; [discriminate|].
  destruct (c =? sep)%N eqn:Ec; [discriminate|].
  apply N.eqb_neq in Ec. intros _ [H|H]; [congruence | now apply IH].
Qed.

Lemma nth_error_firstn_lt {A} (l : list A) (n j : nat) :
  (j < n)%nat -> nth_error (firstn n l) j = nth_error l j.
Proof.
  revert l j; induction n as [|n IH]; intros l j H; [lia|].
  destruct l as [|x l]; [reflexivity|].
  destruct j as [|j]; simpl; [reflexivity | apply IH; lia].
Qed.

Lemma firstn_firstn_le {A} (l : list A) (n k : nat) :
  (k <= n)%nat -> firstn k (firstn n l) = firstn k l.
Proof.
  intros H. rewrite firstn_firstn. f_equal. lia.
Qed.

(** The long branch of [shorten]: what is kept of the first [n] characters. *)
Lemma rsplit1_head (pre : str) :
  (exists a b, pre = a ++ space :: b /\ ~ In space b /\
               hd [] (rsplit1 space pre) = a)
  \/ (~ In space pre /\ hd [] (rsplit1 space pre) = pre).
Proof.
  unfold rsplit1. destruct (split_last space pre) as [[a b]|] eqn:E.
  - left. exists a, b. destruct (split_last_Some _ _ _ _ E) as [-> Hb].
    repeat split; trivial.
  - right. split; [now apply split_last_None | reflexivity].
Qed.

Lemma shorten_long (text : str) (budget : Z) :
  1 <= budget -> budget < len text ->
  shorten (Some text) budget =
  hd [] (rsplit1 space (firstn (Z.to_nat (budget - 1)) text)) ++ [ellipsis].
Proof.
  intros Hb Hl. unfold shorten.
  destruct text as [|c t]; [unfold len in Hl; simpl in Hl; lia|].
  destruct (len (c :: t) <=? budget) eqn:E; [apply Z.leb_le in E; lia|].
  now rewrite slice_to_nonneg by lia.
Qed.

Lemma shorten_short (text : str) (budget : Z) :
  len text <= budget -> shorten (Some text) budget = text.
Proof.
  intros H. unfold shorten. destruct text as [|c t]; [reflexivity|].
  destruct (len (c :: t) <=? budget) eqn:E; [reflexivity|].
  apply Z.leb_gt in E; lia.
Qed.

(** ** Truncation *)

(** C1: a text longer than the ceiling of 270 is published with exactly 270
    characters, the last three being ["..."]; a text of at most 270
    characters is published as it is.  The text handed to the platform by
    [tweet] is the clipped one. *)
Theorem tweet_clip_ceiling (text : str) :
  (270 < len text ->
   len (tweet_clip text) = 270 /\ ends_with (U "...") (tweet_clip text) = true) /\
  (len text <= 270 -> tweet_clip text = text) /\
  (forall lower w, exists rest,
     fst (exec (tweet lower text) w) =
     EvTweet (tweet_clip text) (twitter w (tweet_clip text)) :: rest).
Proof.
  unfold tweet_clip, max_len. split; [|split].
  - intros H. destruct (len text >? 270) eqn:E;
      [|rewrite Z.gtb_ltb in E; apply Z.ltb_ge in E; lia].
    split.
    + rewrite len_app, len_slice_to by lia.
      change (len (U "...")) with 3. lia.
    + apply ends_with_app.
  - intros H. destruct (len text >? 270) eqn:E; [|reflexivity].
    rewrite Z.gtb_ltb in E; apply Z.ltb_lt in E; lia.
  - intros lower w. unfold exec, tweet, tweet_clip, max_len.
    destruct (len text >? 270); cbn [bind try_except run];
      destruct (run _ w 0%nat 0%nat); eexists; reflexivity.
Qed.

Lemma tweet_clip_ceiling_witness :
  len (tweet_clip (repeat 97%N 300)) = 270 /\
  ends_with (U "...") (tweet_clip (repeat 97%N 300)) = true.
Proof.
  apply (proj1 (tweet_clip_ceiling (repeat 97%N 300))).
  vm_compute. reflexivity.
Defined.

(** C2 (as amended): with a budget of 150 to 180, a missing or empty
    summary gives the empty string and a summary of at most [budget]
    characters is returned as it is.  A longer one gives at most [budget]
    characters: a prefix of the summary and one ellipsis.  When there is a
    space (U+0020) among the first [budget - 1] characters, the prefix ends
    just before the last of them; when there is none, the prefix is the first
    [budget - 1] characters. *)
Theorem shorten_cut (text : str) (budget : Z) :
  150 <= budget <= 180 ->
  shorten None budget = [] /\
  shorten (Some []) budget = [] /\
  (len text <= budget -> shorten (Some text) budget = text) /\
  (budget < len text ->
   let out := shorten (Some text) budget in
   let n := Z.to_nat (budget - 1) in
   len out <= budget /\
   ((exists cut, (cut < n)%nat /\ nth_error text cut = Some space /\
        (forall j, (cut < j < n)%nat -> nth_error text j <> Some space) /\
        out = firstn cut text ++ [ellipsis])
    \/ ((forall j, (j < n)%nat -> nth_error text j <> Some space) /\
        out = firstn n text ++ [ellipsis]))).
Proof.
  intros Hb. split; [reflexivity|]. split; [reflexivity|].
  split; [apply shorten_short|].
  intros Hl out n. subst out.
  rewrite shorten_long by lia. fold n.
  assert (Hn : List.length (firstn n text) = n).
  { rewrite length_firstn. unfold len in Hl. lia. }
  destruct (rsplit1_head (firstn n text)) as [(a & b & E & Hnb & ->)|[Hno ->]].
  - assert (Ha : (List.length a < n)%nat).
    { rewrite <- Hn, E, length_app. simpl. lia. }
    split.
    { rewrite len_app. unfold len. simpl. lia. }
    left. exists (List.length a). split; [exact Ha|].
    assert (Hcut : firstn (List.length a) text = a).
    { rewrite <- (firstn_firstn_le text n) by lia.
      rewrite E. rewrite firstn_app, Nat.sub_diag, firstn_all. simpl.
      apply app_nil_r. }
    repeat split.
    + rewrite <- (nth_error_firstn_lt text n) by exact Ha.
      rewrite E, nth_error_app2, Nat.sub_diag by lia. reflexivity.
    + intros j Hj Hs.
      rewrite <- (nth_error_firstn_lt text n) in Hs by lia.
      rewrite E, nth_error_app2 in Hs by lia.
      destruct (j - List.length a)%nat as [|k] eqn:Ek; [lia|].
      simpl in Hs. apply nth_error_In in Hs. contradiction.
    + now rewrite Hcut.
  - split.
    { rewrite len_app. unfold len. rewrite Hn. simpl. lia. }
    right. split; [|reflexivity].
    intros j Hj Hs. apply Hno.
    rewrite <- (nth_error_firstn_lt text n) in Hs by exact Hj.
    now apply nth_error_In in Hs.
Qed.

Lemma shorten_cut_witness :
  let text := List.concat (repeat (U "kelime ") 30) in
  150 < len text /\ len (shorten (Some text) 150) <= 150.
Proof.
  intros text. split; [vm_compute; reflexivity|].
  apply (proj2 (proj2 (proj2 (shorten_cut text 150 ltac:(lia))))).
  vm_compute. reflexivity.
Defined.

(** C2 as stated fails: a summary that is one word of 200 letters is cut
    inside the word, at no whitespace; and a summary whose last whitespace
    before the budget is a line break is cut at the space before it. *)
Lemma shorten_cut_not_at_whitespace :
  (180 < len long_word /\
   ~ cut_at_last_whitespace long_word 180 (shorten (Some long_word) 180)) /\
  (150 < len two_lines /\
   ~ cut_at_last_whitespace two_lines 150 (shorten (Some two_lines) 150)).
Proof.
  split; (split; [vm_compute; reflexivity|]).
  - intros (cut & c & _ & Hc & Hw & _).
    apply nth_error_In in Hc. apply repeat_spec in Hc. subst c.
    discriminate Hw.
  - intros (cut & c & _ & _ & _ & Hlast & Hout).
    destruct cut as [|[|[|[|cut]]]]; try (vm_compute in Hout; discriminate Hout).
    discriminate (Hlast 7%nat 10%N ltac:(lia) ltac:(lia) eq_refl).
Qed.

Example shorten_two_lines : shorten (Some two_lines) 150 = U "bir…".
Proof. vm_compute. reflexivity. Qed.

(** ** Selection *)

Section StableSort.

Context {A K : Type} (lt : K -> K -> bool) (key : A -> K).

Lemma hd_insert_desc (x : A) (l : list A) :
  hd_error (insert_desc lt key x l) =
  match hd_error l with
  | None => Some x
  | Some y => if lt (key x) (key y) then Some y else Some x
  end.
Proof.
  destruct l as [|y l]; simpl; [reflexivity|].
  destruct (lt (key x) (key y)); reflexivity.
Qed.

Lemma hd_sort_desc (l : list A) :
  hd_error (sort_desc lt key l) = first_max lt key l.
Proof.
  induction l as [|x l IH]; simpl; [reflexivity|].
  now rewrite hd_insert_desc, IH.
Qed.

Lemma first_max_In (l : list A) (b : A) : first_max lt key l = Some b -> In b l.
Proof.
  revert b; induction l as [|x l IH]; simpl; intros b H; [discriminate|].
  destruct (first_max lt key l) as [y|].
  - destruct (lt (key x) (key y)); inversion H; subst; auto.
  - inversion H; auto.
Qed.

Lemma first_max_None (l : list A) : first_max lt key l = None <-> l = [].
Proof.
  destruct l as [|x l]; simpl; [tauto|].
  split; [|discriminate].
  destruct (first_max lt key l) as [y|]; [destruct (lt (key x) (key y))|]; discriminate.
Qed.

(** [lt] is a strict weak order. *)
Hypothesis lt_trans :
  forall a b c, lt a b = true -> lt b c = true -> lt a c = true.
Hypothesis nlt_trans :
  forall a b c, lt a b = false -> lt b c = false -> lt a c = false.

Lemma first_max_split (l : list A) (b : A) :
  first_max lt key l = Some b ->
  exists l1 l2, l = l1 ++ b :: l2 /\
    Forall (fun a => lt (key a) (key b) = true) l1 /\
    Forall (fun a => lt (key b) (key a) = false) l2.
Proof.
  revert b; induction l as [|x l IH]; simpl; intros b H; [discriminate|].
  destruct (first_max lt key l) as [y|] eqn:E.
  - destruct (IH y eq_refl) as (l1 & l2 & -> & H1 & H2).
    destruct (lt (key x) (key y)) eqn:Exy; inversion H; subst; clear H.
    + exists (x :: l1), l2. repeat split; auto.
    + exists [], (l1 ++ y :: l2). repeat split; auto.
      apply Forall_app; split.
      * eapply Forall_impl; [|exact H1]. intros a Ha. simpl in Ha.
        destruct (lt (key b) (key a)) eqn:Eba; [|reflexivity].
        rewrite (lt_trans _ _ _ Eba Ha) in Exy. discriminate.
      * constructor; [exact Exy|].
        eapply Forall_impl; [|exact H2]. intros a Ha. simpl in Ha.
        now apply (nlt_trans _ (key y)).
  - apply first_max_None in E. subst l. inversion H; subst.
    exists [], []. repeat split; auto.
Qed.

End StableSort.

Lemma key_lt_spec (a b : Q * Q) :
  key_lt a b = true <->
  (fst a < fst b \/ (fst a == fst b /\ snd a < snd b))%Q.
Proof.
  unfold key_lt.
  destruct (fst a ?= fst b)%Q eqn:E1.
  - apply Qeq_alt in E1. destruct (snd a ?= snd b)%Q eqn:E2.
    + apply Qeq_alt in E2. split; [discriminate|]. intros [H|[_ H]]; lra.
    + apply Qlt_alt in E2. split; auto.
    + apply Qgt_alt in E2. split; [discriminate|]. intros [H|[_ H]]; lra.
  - apply Qlt_alt in E1. split; auto.
  - apply Qgt_alt in E1. split; [discriminate|]. intros [H|[H _]]; lra.
Qed.

Lemma key_lt_false (a b : Q * Q) :
  key_lt a b = false <->
  (fst b < fst a \/ (fst a == fst b /\ snd b <= snd a))%Q.
Proof.
  split.
  - intros H.
    destruct (Qlt_le_dec (fst b) (fst a)) as [|H1]; [now left|].
    destruct (Qlt_le_dec (fst a) (fst b)) as [H2|H2].
    + assert (key_lt a b = true) by (apply key_lt_spec; now left). congruence.
    + right. split; [lra|].
      destruct (Qlt_le_dec (snd a) (snd b)) as [H3|]; [|assumption].
      assert (key_lt a b = true) by (apply key_lt_spec; right; split; [lra|assumption]).
      congruence.
  - intros H. destruct (key_lt a b) eqn:E; [|reflexivity].
    apply key_lt_spec in E. destruct H as [H|[H H']], E as [E|[E E']]; lra.
Qed.

Lemma key_lt_trans (a b c : Q * Q) :
  key_lt a b = true -> key_lt b c = true -> key_lt a c = true.
Proof.
  rewrite !key_lt_spec. intros [H|[H H']] [G|[G G']]; [left|left|left|right]; lra.
Qed.

Lemma key_nlt_trans (a b c : Q * Q) :
  key_lt a b = false -> key_lt b c = false -> key_lt a c = false.
Proof.
  rewrite !key_lt_false. intros [H|[H H']] [G|[G G']]; [left|left|left|right]; lra.
Qed.

Lemma pick_best_result_first_max (results : list movie) (thr : Z) :
  pick_best_result results thr =
  first_max key_lt sort_key (filtered results thr).
Proof.
  unfold pick_best_result.
  destruct (filtered results thr) as [|m l]; [reflexivity|].
  apply hd_sort_desc.
Qed.

Lemma filtered_incl (results : list movie) (thr : Z) (r : movie) :
  In r (filtered results thr) -> In r results.
Proof.
  unfold filtered, or_list.
  destruct (filter (fun r => has_poster r && has_votes thr r) results) eqn:E.
  - destruct (filter has_poster results) eqn:E2; [auto|].
    rewrite <- E2. intros H. now apply filter_In in H.
  - rewrite <- E. intros H. now apply filter_In in H.
Qed.

Lemma filtered_nil (results : list movie) (thr : Z) :
  filtered results thr = [] <-> results = [].
Proof.
  unfold filtered, or_list. split.
  - destruct (filter (fun r => has_poster r && has_votes thr r) results);
      [|discriminate].
    destruct (filter has_poster results); [auto | discriminate].
  - intros ->. reflexivity.
Qed.

Lemma pick_best_result_some (results : list movie) (thr : Z) :
  filtered results thr <> [] ->
  exists r, pick_best_result results thr = Some r /\ In r (filtered results thr).
Proof.
  intros H. rewrite pick_best_result_first_max.
  destruct (first_max key_lt sort_key (filtered results thr)) as [r|] eqn:E.
  - exists r. split; [reflexivity | now apply first_max_In in E].
  - apply first_max_None in E. contradiction.
Qed.

(** The helpers of the code against the members they read. *)
Lemma with_poster_spec (r : movie) :
  with_poster r = true <-> exists p, poster_path r = Str p /\ p <> [].
Proof.
  unfold with_poster. split.
  - destruct (poster_path r) as [| |[|c s]]; try discriminate.
    intros _. exists (c :: s). split; [reflexivity | discriminate].
  - intros (p & -> & Hp). destruct p; [congruence | reflexivity].
Qed.

Lemma has_poster_with_poster (r : movie) : has_poster r = with_poster r.
Proof.
  unfold has_poster, with_poster.
  destruct (poster_path r) as [| |[|c s]]; reflexivity.
Qed.

Lemma has_votes_rating_count (thr : Z) (r : movie) :
  has_votes thr r = (thr <=? rating_count r).
Proof.
  unfold has_votes, rating_count.
  destruct (vote_count r); simpl; apply Z.geb_leb.
Qed.

Lemma sort_key_rating (r : movie) :
  sort_key r = (rating r, popularity_score r).
Proof.
  unfold sort_key, rating, popularity_score.
  destruct (vote_average r), (popularity r); reflexivity.
Qed.

Lemma filtered_surviving (results : list movie) (thr : Z) :
  filtered results thr = surviving results thr.
Proof.
  unfold filtered, surviving, strict_stage, poster_stage.
  rewrite (filter_ext (fun r => has_poster r && has_votes thr r)
                      (fun r => with_poster r && (thr <=? rating_count r)))
    by (intros r; now rewrite has_poster_with_poster, has_votes_rating_count).
  rewrite (filter_ext has_poster with_poster)
    by (intros r; apply has_poster_with_poster).
  destruct (filter _ results); [|reflexivity].
  destruct (filter with_poster results); reflexivity.
Qed.

Lemma surviving_strict (results : list movie) (thr : Z) :
  strict_stage results thr <> [] ->
  surviving results thr = strict_stage results thr.
Proof.
  unfold surviving. destruct (strict_stage results thr); [congruence|reflexivity].
Qed.

Lemma surviving_poster (results : list movie) (thr : Z) :
  strict_stage results thr = [] -> poster_stage results <> [] ->
  surviving results thr = poster_stage results.
Proof.
  unfold surviving. intros -> H.
  destruct (poster_stage results); [congruence|reflexivity].
Qed.

Lemma surviving_all (results : list movie) (thr : Z) :
  strict_stage results thr = [] -> poster_stage results = [] ->
  surviving results thr = results.
Proof. unfold surviving. now intros -> ->. Qed.

Lemma pick_best_result_surviving (results : list movie) (thr : Z) :
  surviving results thr <> [] ->
  exists r, pick_best_result results thr = Some r /\
            In r (surviving results thr).
Proof.
  rewrite <- filtered_surviving. apply pick_best_result_some.
Qed.

(** C3: the item is chosen in the first stage of the chain that is not
    empty: the items whose poster reference is a non-empty string and whose
    number of votes reaches the threshold; else the items whose poster
    reference is a non-empty string; else the whole list.  The answer is
    [None] only for an empty list.  When the list holds an item with a
    non-empty poster reference and enough votes, the item chosen has a
    non-empty poster reference and enough votes.  The threshold is 50 when
    the caller gives none. *)
Theorem pick_best_result_stages (results : list movie) (thr : Z) :
  let s1 := strict_stage results thr in
  let s2 := poster_stage results in
  let pick := pick_best_result results thr in
  (s1 <> [] -> exists r, pick = Some r /\ In r s1) /\
  (s1 = [] -> s2 <> [] -> exists r, pick = Some r /\ In r s2) /\
  (s1 = [] -> s2 = [] -> results <> [] ->
   exists r, pick = Some r /\ In r results) /\
  (pick = None <-> results = []) /\
  (forall a pa,
     In a results -> poster_path a = Str pa -> pa <> [] ->
     thr <= rating_count a ->
     exists r pr,
       pick = Some r /\ In r results /\
       poster_path r = Str pr /\ pr <> [] /\ thr <= rating_count r) /\
  min_vote_count_default = 50.
Proof.
  intros s1 s2 pick. subst pick s1 s2.
  assert (S1 : strict_stage results thr <> [] ->
               exists r, pick_best_result results thr = Some r /\
                         In r (strict_stage results thr)).
  { intros H. rewrite <- (surviving_strict _ _ H).
    apply pick_best_result_surviving. now rewrite (surviving_strict _ _ H). }
  split; [exact S1|]. split; [|split; [|split; [|split]]].
  - intros H1 H2. rewrite <- (surviving_poster _ _ H1 H2).
    apply pick_best_result_surviving. now rewrite (surviving_poster _ _ H1 H2).
  - intros H1 H2 H3.
    destruct (pick_best_result_surviving results thr) as (r & E & Hr).
    { now rewrite (surviving_all _ _ H1 H2). }
    exists r. split; [exact E|]. now rewrite (surviving_all _ _ H1 H2) in Hr.
  - rewrite pick_best_result_first_max, first_max_None. apply filtered_nil.
  - intros a pa Ha Hp Hne Hv.
    destruct S1 as (r & E & Hr).
    { intros Hs. assert (In a (strict_stage results thr)) as Hin.
      { apply filter_In. split; [exact Ha|]. apply andb_true_iff. split.
        - apply with_poster_spec. now exists pa.
        - now apply Z.leb_le. }
      rewrite Hs in Hin. contradiction. }
    apply filter_In in Hr as [Hin Hr]. apply andb_true_iff in Hr as [Hr1 Hr2].
    apply with_poster_spec in Hr1 as (pr & Hr1 & Hr1').
    exists r, pr. apply Z.leb_le in Hr2. auto.
  - reflexivity.
Qed.

Lemma pick_best_result_stages_witness :
  exists r pr,
    pick_best_result [bare_movie; hyped_movie; test_movie] 50 = Some r /\
    In r [bare_movie; hyped_movie; test_movie] /\
    poster_path r = Str pr /\ pr <> [] /\ 50 <= rating_count r.
Proof.
  apply (proj1 (proj2 (proj2 (proj2 (proj2
    (pick_best_result_stages [bare_movie; hyped_movie; test_movie] 50)))))
    test_movie (U "/x.jpg")).
  - simpl. auto.
  - reflexivity.
  - vm_compute. discriminate.
  - vm_compute. discriminate.
Defined.

(** The three stages at work: the best rated item has no poster and the
    next has too few votes; without an item of enough votes the poster
    decides; without a poster the whole list is ranked. *)
Example pick_best_result_chain :
  pick_best_result [bare_movie; hyped_movie; test_movie] 50 = Some test_movie /\
  pick_best_result [bare_movie; hyped_movie; modest_movie] 50
    = Some hyped_movie /\
  pick_best_result [bare_movie] 50 = Some bare_movie /\
  pick_best_result [] 50 = None.
Proof. repeat split. Qed.

(** C4: the chosen item [b] is of the surviving set and is ranked first in
    it by (average rating, popularity) in lexicographic order, a missing
    number counting as zero: no surviving item has a strictly greater
    rating, whatever the popularities; among those of equal rating none has
    a greater popularity; and every surviving item that comes before [b] in
    the input ranks strictly lower, so of items equal on both components the
    earliest is chosen. *)
Theorem pick_best_result_ranking (results : list movie) (thr : Z) (b : movie) :
  pick_best_result results thr = Some b ->
  In b (surviving results thr) /\
  (forall a, In a (surviving results thr) -> ~ (rating b < rating a)%Q) /\
  (forall a, In a (surviving results thr) -> (rating a == rating b)%Q ->
             (popularity_score a <= popularity_score b)%Q) /\
  (exists l1 l2, surviving results thr = l1 ++ b :: l2 /\
     forall a, In a l1 ->
       ((rating a < rating b)%Q \/
        ((rating a == rating b)%Q /\
         (popularity_score a < popularity_score b)%Q))).
Proof.
  intros H. rewrite pick_best_result_first_max, filtered_surviving in H.
  destruct (first_max_split key_lt sort_key key_lt_trans key_nlt_trans _ _ H)
    as (l1 & l2 & E & H1 & H2).
  rewrite Forall_forall in H1, H2.
  assert (K : forall a, fst (sort_key a) = rating a /\
                        snd (sort_key a) = popularity_score a)
    by (intros a; now rewrite sort_key_rating).
  assert (Hall : forall a, In a (surviving results thr) ->
                 key_lt (sort_key b) (sort_key a) = false).
  { intros a Ha. rewrite E in Ha. apply in_app_or in Ha as [Ha|[<-|Ha]].
    - apply H1 in Ha. apply key_lt_spec in Ha. apply key_lt_false. lra.
    - apply key_lt_false. right. split; [reflexivity | apply Qle_refl].
    - now apply H2. }
  split; [|split; [|split]].
  - rewrite E. apply in_or_app. right. now left.
  - intros a Ha Hlt. apply Hall, key_lt_false in Ha.
    destruct (K a) as [Ka1 Ka2], (K b) as [Kb1 Kb2].
    rewrite Ka1, Ka2, Kb1, Kb2 in Ha. lra.
  - intros a Ha Heq. apply Hall, key_lt_false in Ha.
    destruct (K a) as [Ka1 Ka2], (K b) as [Kb1 Kb2].
    rewrite Ka1, Ka2, Kb1, Kb2 in Ha. lra.
  - exists l1, l2. split; [exact E|].
    intros a Ha. apply H1, key_lt_spec in Ha.
    destruct (K a) as [Ka1 Ka2], (K b) as [Kb1 Kb2].
    now rewrite Ka1, Ka2, Kb1, Kb2 in Ha.
Qed.

Lemma pick_best_result_ranking_witness :
  In test_movie (surviving [wordy_movie; test_movie; loud_twin] 50) /\
  ~ (rating loud_twin < rating wordy_movie)%Q /\
  ((rating test_movie == rating loud_twin)%Q ->
   (popularity_score test_movie <= popularity_score loud_twin)%Q).
Proof.
  destruct (pick_best_result_ranking [wordy_movie; test_movie; loud_twin] 50
              loud_twin eq_refl) as (_ & H1 & H2 & _).
  split; [vm_compute; auto|]. split.
  - apply H1. vm_compute. auto.
  - apply H2. vm_compute. auto.
Defined.

(** The rating decides before the popularity, the popularity decides
    between equal ratings, and the input order between equal keys. *)
Example pick_best_result_tie :
  pick_best_result [wordy_movie; test_movie] 50 = Some test_movie /\
  pick_best_result [test_movie; loud_twin] 50 = Some loud_twin /\
  pick_best_result [test_movie; twin_movie] 50 = Some test_movie /\
  pick_best_result [twin_movie; test_movie] 50 = Some twin_movie /\
  pick_best_result [bare_movie; twin_movie] 50 = Some twin_movie /\
  pick_best_result [bare_movie] 50 = Some bare_movie.
Proof. repeat split. Qed.

(** ** Selection on decoded items *)

Lemma of_to_movie (r : Json.item) :
  Json.numeric r = true -> of_movie (to_movie r) = r.
Proof.
  destruct r as [i t d va vc p pp o om]. unfold Json.numeric. simpl.
  destruct va, vc, p; try discriminate; reflexivity.
Qed.

Lemma map_of_to_movie (l : list Json.item) :
  Forall (fun r => Json.numeric r = true) l ->
  map of_movie (map to_movie l) = l.
Proof.
  induction 1 as [|r l Hr _ IH]; simpl; [reflexivity|].
  now rewrite of_to_movie, IH.
Qed.

Lemma has_poster_of_movie (m : movie) :
  Json.has_poster (of_movie m) = has_poster m.
Proof. reflexivity. Qed.

Lemma has_poster_and_votes_of_movie (thr : Z) (m : movie) :
  Json.has_poster_and_votes thr (of_movie m)
  = inr (has_poster m && has_votes thr m).
Proof.
  unfold Json.has_poster_and_votes. rewrite has_poster_of_movie.
  destruct (has_poster m); [|reflexivity].
  unfold has_votes. simpl. destruct (vote_count m); reflexivity.
Qed.

Lemma comprehension_of_movie (thr : Z) (l : list movie) :
  Json.comprehension (Json.has_poster_and_votes thr) (map of_movie l)
  = inr (map of_movie
           (filter (fun r => has_poster r && has_votes thr r) l)).
Proof.
  induction l as [|m l IH]; [reflexivity|].
  cbn [map Json.comprehension filter].
  rewrite has_poster_and_votes_of_movie, IH. cbn [Json.and_then].
  destruct (has_poster m && has_votes thr m); reflexivity.
Qed.

Lemma filter_of_movie (l : list movie) :
  filter Json.has_poster (map of_movie l)
  = map of_movie (filter has_poster l).
Proof.
  induction l as [|m l IH]; [reflexivity|].
  cbn [map filter]. rewrite has_poster_of_movie, IH.
  destruct (has_poster m); reflexivity.
Qed.

Lemma filtered_of_movie (thr : Z) (l : list movie) :
  Json.filtered (map of_movie l) thr = inr (map of_movie (filtered l thr)).
Proof.
  unfold Json.filtered, filtered.
  rewrite comprehension_of_movie. cbn [Json.and_then].
  destruct (filter (fun r => has_poster r && has_votes thr r) l);
    [|reflexivity].
  cbn [map]. rewrite filter_of_movie.
  destruct (filter has_poster l); reflexivity.
Qed.

Lemma key_lt_of_movie (a b : movie) :
  Json.key_lt (Json.sort_key (of_movie a)) (Json.sort_key (of_movie b))
  = inr (key_lt (sort_key a) (sort_key b)).
Proof.
  assert (K : forall m, Json.sort_key (of_movie m)
                        = (Some (fst (sort_key m)), Some (snd (sort_key m)))).
  { intros m. unfold Json.sort_key, sort_key. simpl.
    destruct (vote_average m), (popularity m); reflexivity. }
  rewrite !K. unfold Json.key_lt, key_lt. cbn [fst snd Json.eq_value Json.lt_value].
  generalize (fst (sort_key a)), (fst (sort_key b)),
    (snd (sort_key a)), (snd (sort_key b)).
  intros a1 b1 a2 b2.
  assert (C : forall x y, Qeq_bool x y = match (x ?= y)%Q with
                                         | Eq => true
                                         | _ => false
                                         end).
  { intros x y. destruct (x ?= y)%Q eqn:E.
    - now apply Qeq_alt, Qeq_bool_iff in E.
    - destruct (Qeq_bool x y) eqn:E'; [|reflexivity].
      apply Qeq_bool_iff, Qeq_alt in E'. congruence.
    - destruct (Qeq_bool x y) eqn:E'; [|reflexivity].
      apply Qeq_bool_iff, Qeq_alt in E'. congruence. }
  rewrite !C.
  destruct (a1 ?= b1)%Q; [|reflexivity|reflexivity].
  destruct (a2 ?= b2)%Q; reflexivity.
Qed.

Lemma insert_desc_of_movie (x : movie) (l : list movie) :
  Json.insert_desc (of_movie x) (map of_movie l)
  = inr (map of_movie (insert_desc key_lt sort_key x l)).
Proof.
  induction l as [|y l IH]; [reflexivity|].
  cbn [map Json.insert_desc insert_desc].
  rewrite key_lt_of_movie. cbn [Json.and_then].
  destruct (key_lt (sort_key x) (sort_key y)); [|reflexivity].
  now rewrite IH.
Qed.

Lemma sort_desc_of_movie (l : list movie) :
  Json.sort_desc (map of_movie l)
  = inr (map of_movie (sort_desc key_lt sort_key l)).
Proof.
  induction l as [|x l IH]; [reflexivity|].
  cbn [map Json.sort_desc sort_desc]. rewrite IH. cbn [Json.and_then].
  apply insert_desc_of_movie.
Qed.

Lemma hd_error_map {A B} (f : A -> B) (l : list A) :
  hd_error (map f l) = option_map f (hd_error l).
Proof. destruct l; reflexivity. Qed.

(** On items without [null] numbers the two selections agree. *)
Lemma pick_best_result_of_movie (l : list movie) (thr : Z) :
  Json.pick_best_result (map of_movie l) thr
  = inr (option_map of_movie (pick_best_result l thr)).
Proof.
  unfold Json.pick_best_result, pick_best_result.
  rewrite filtered_of_movie. cbn [Json.and_then].
  destruct (filtered l thr) as [|m f]; [reflexivity|].
  cbn [map].
  change (of_movie m :: map of_movie f) with (map of_movie (m :: f)).
  rewrite sort_desc_of_movie. cbn [Json.and_then].
  now rewrite hd_error_map.
Qed.

Lemma with_defaults_of_movie (m : movie) :
  Json.with_defaults (of_movie m) = of_movie (movie_with_defaults m).
Proof.
  unfold Json.with_defaults, of_movie, movie_with_defaults, rating,
    rating_count, popularity_score. simpl.
  destruct (vote_average m), (vote_count m), (popularity m); reflexivity.
Qed.

Section MapSelection.

Variable f : movie -> movie.
Variable thr : Z.
Hypothesis f_poster : forall m, has_poster (f m) = has_poster m.
Hypothesis f_votes : forall m, has_votes thr (f m) = has_votes thr m.
Hypothesis f_key : forall m, sort_key (f m) = sort_key m.

Lemma filter_map_same (p : movie -> bool) (l : list movie) :
  (forall m, p (f m) = p m) ->
  filter p (map f l) = map f (filter p l).
Proof.
  intros Hp. induction l as [|m l IH]; [reflexivity|].
  cbn [map filter]. rewrite Hp, IH. destruct (p m); reflexivity.
Qed.

Lemma filtered_map (l : list movie) :
  filtered (map f l) thr = map f (filtered l thr).
Proof.
  unfold filtered.
  rewrite !filter_map_same
    by (first [ exact f_poster | intros m; now rewrite f_poster, f_votes ]).
  destruct (filter (fun r => has_poster r && has_votes thr r) l);
    [|reflexivity].
  cbn [map]. destruct (filter has_poster l); reflexivity.
Qed.

Lemma insert_desc_map (x : movie) (l : list movie) :
  insert_desc key_lt sort_key (f x) (map f l)
  = map f (insert_desc key_lt sort_key x l).
Proof.
  induction l as [|y l IH]; [reflexivity|].
  cbn [map insert_desc]. rewrite !f_key.
  destruct (key_lt (sort_key x) (sort_key y)); [|reflexivity].
  now rewrite IH.
Qed.

Lemma sort_desc_map (l : list movie) :
  sort_desc key_lt sort_key (map f l) = map f (sort_desc key_lt sort_key l).
Proof.
  induction l as [|x l IH]; [reflexivity|].
  cbn [map sort_desc]. rewrite IH. apply insert_desc_map.
Qed.

Lemma pick_best_result_map (l : list movie) :
  pick_best_result (map f l) thr = option_map f (pick_best_result l thr).
Proof.
  unfold pick_best_result. rewrite filtered_map.
  destruct (filtered l thr) as [|m t]; [reflexivity|].
  cbn [map]. change (f m :: map f t) with (map f (m :: t)).
  rewrite sort_desc_map. apply hd_error_map.
Qed.

End MapSelection.

Lemma pick_best_result_with_defaults (l : list movie) (thr : Z) :
  pick_best_result (map movie_with_defaults l) thr
  = option_map movie_with_defaults (pick_best_result l thr).
Proof.
  apply pick_best_result_map.
  - intros m. unfold has_poster, movie_with_defaults. simpl.
    destruct (poster_path m); reflexivity.
  - intros m. rewrite !has_votes_rating_count.
    unfold rating_count, movie_with_defaults. simpl. reflexivity.
  - intros m. rewrite !sort_key_rating.
    unfold rating, popularity_score, movie_with_defaults. simpl. reflexivity.
Qed.

(** C10 (as amended): on a list of items none of whose numbers is [null],
    the selection raises nothing, whatever the threshold and whichever
    members are missing.  It answers [None] exactly for the empty list, and
    otherwise an item of the list.  A missing poster counts as [null] and a
    missing number as zero: with these written into every item, the same
    item is chosen. *)
Theorem pick_best_result_total (results : list Json.item) (thr : Z) :
  Forall (fun r => Json.numeric r = true) results ->
  exists picked,
    Json.pick_best_result results thr = inr picked /\
    (picked = None <-> results = []) /\
    (forall r, picked = Some r -> In r results) /\
    (results <> [] -> exists r, picked = Some r /\ In r results) /\
    Json.pick_best_result (map Json.with_defaults results) thr
    = inr (option_map Json.with_defaults picked).
Proof.
  intros Hn. rewrite <- (map_of_to_movie results Hn).
  set (l := map to_movie results).
  exists (option_map of_movie (pick_best_result l thr)).
  assert (Hnil : map of_movie l = [] <-> l = []).
  { split; [apply map_eq_nil | now intros ->]. }
  assert (Hin : forall r, option_map of_movie (pick_best_result l thr)
                          = Some r -> In r (map of_movie l)).
  { intros r H. destruct (pick_best_result l thr) as [m|] eqn:E;
      [|discriminate].
    simpl in H. inversion H; subst r. apply in_map.
    rewrite pick_best_result_first_max in E.
    apply first_max_In in E. now apply filtered_incl in E. }
  split; [apply pick_best_result_of_movie|].
  split; [|split; [exact Hin|split]].
  - rewrite Hnil, <- (filtered_nil l thr),
      <- (first_max_None key_lt sort_key), <- pick_best_result_first_max.
    destruct (pick_best_result l thr); simpl; split; congruence.
  - intros Hne.
    destruct (pick_best_result_some l thr) as (m & E & Hm).
    { rewrite filtered_nil. intros Hl. apply Hne. now rewrite Hl. }
    exists (of_movie m). rewrite E. split; [reflexivity|].
    apply in_map. now apply filtered_incl in Hm.
  - rewrite map_map.
    rewrite (map_ext _ (fun m => of_movie (movie_with_defaults m)))
      by (intros m; apply with_defaults_of_movie).
    rewrite <- (map_map movie_with_defaults of_movie).
    rewrite pick_best_result_of_movie, pick_best_result_with_defaults.
    destruct (pick_best_result l thr) as [m|]; simpl; [|reflexivity].
    now rewrite with_defaults_of_movie.
Qed.

Lemma pick_best_result_total_witness :
  exists picked,
    Json.pick_best_result [bare_item; of_movie modest_movie] 0 = inr picked /\
    (picked = None <-> [bare_item; of_movie modest_movie] = []) /\
    (forall r, picked = Some r -> In r [bare_item; of_movie modest_movie]) /\
    ([bare_item; of_movie modest_movie] <> [] ->
     exists r, picked = Some r /\ In r [bare_item; of_movie modest_movie]) /\
    Json.pick_best_result
      (map Json.with_defaults [bare_item; of_movie modest_movie]) 0
    = inr (option_map Json.with_defaults picked).
Proof.
  apply (pick_best_result_total [bare_item; of_movie modest_movie] 0).
  repeat constructor.
Defined.

(** C10 as stated fails on items with a number that is [null]: the
    comparison with the threshold raises for an item with a poster whose
    number of votes is [null], and the sort raises when it has to compare a
    rating that is [null] with a number. *)
Lemma pick_best_result_raises_on_null :
  Json.pick_best_result [null_votes_item] 50 = inl TypeError /\
  Json.pick_best_result [of_movie test_movie; null_rating_item] 50
  = inl TypeError.
Proof. split; reflexivity. Qed.

(** What the defaults are: an item without number of votes passes a
    threshold of 0 and no greater one, and ranks as an item rated 0.0
    ranks: below an item rated 1.0.  A single item is never compared, so
    that a [null] rating goes unnoticed. *)
Example pick_best_result_defaults :
  Json.pick_best_result [bare_item; of_movie modest_movie] 0
  = inr (Some (of_movie modest_movie)) /\
  Json.pick_best_result [bare_item; of_movie modest_movie] 1
  = inr (Some (of_movie modest_movie)) /\
  Json.pick_best_result [bare_item; of_movie modest_movie] 3
  = inr (Some (of_movie modest_movie)) /\
  Json.pick_best_result [bare_item] 1 = inr (Some bare_item) /\
  Json.pick_best_result [null_rating_item] 50 = inr (Some null_rating_item).
Proof. repeat split. Qed.

(** ** Publishing *)

(** C7: of the exceptions of the platform call, [tweet] handles [Forbidden]
    and nothing else.  A [Forbidden] whose message, in lower case, contains
    ["duplicate"] is logged as a skip; any other [Forbidden] is logged with
    its detail; in both cases [tweet] returns.  Every other exception leaves
    [tweet] as it came. *)
Theorem tweet_exceptions (lower : str -> str) (text : str) (w : world) :
  let sent := tweet_clip text in
  (forall msg,
     twitter w sent = inl (Forbidden msg) ->
     contains (U "duplicate") (lower msg) = true ->
     exec (tweet lower text) w =
     ([EvTweet sent (inl (Forbidden msg));
       EvPrint (U "Aynı içerikten zaten tweet atılmış, atlıyorum.")],
      Returned tt)) /\
  (forall msg,
     twitter w sent = inl (Forbidden msg) ->
     contains (U "duplicate") (lower msg) = false ->
     exec (tweet lower text) w =
     ([EvTweet sent (inl (Forbidden msg));
       EvPrint (U "403 Forbidden - Twitter bu tweet'e izin vermedi, atlıyorum.");
       EvPrint (U "Hata detayı: " ++ msg)],
      Returned tt)) /\
  (forall e,
     twitter w sent = inl e ->
     (forall msg, e <> Forbidden msg) ->
     exec (tweet lower text) w = ([EvTweet sent (inl e)], Raised e)) /\
  (forall resp,
     twitter w sent = inr resp ->
     exec (tweet lower text) w =
     ([EvTweet sent (inr resp); EvPrint (U "Tweet gönderildi: " ++ resp)],
      Returned tt)).
Proof.
  intros sent. unfold exec, tweet. fold sent.
  cbn [bind try_except run lift print].
  repeat split.
  - intros msg E Hd. rewrite E. cbn [bind try_except run lift].
    rewrite Hd. reflexivity.
  - intros msg E Hd. rewrite E. cbn [bind try_except run lift].
    rewrite Hd. reflexivity.
  - intros e E Hn. rewrite E. cbn [bind try_except run lift].
    destruct e; try reflexivity. now contradiction (Hn msg).
  - intros resp E. rewrite E. reflexivity.
Qed.

Lemma tweet_exceptions_witness :
  exec (tweet ascii_lower (U "merhaba"))
       (quiet_world [] 1
          (inl (Forbidden (U "forbidden: duplicate content detected")))) =
  ([EvTweet (U "merhaba")
      (inl (Forbidden (U "forbidden: duplicate content detected")));
    EvPrint (U "Aynı içerikten zaten tweet atılmış, atlıyorum.")],
   Returned tt).
Proof.
  apply (proj1 (tweet_exceptions ascii_lower (U "merhaba")
    (quiet_world [] 1
       (inl (Forbidden (U "forbidden: duplicate content detected")))))).
  - reflexivity.
  - vm_compute. reflexivity.
Defined.

(** ** Configuration *)

Lemma run_bind_raise {A B} (e : exn) (k : A -> prog B) (w : world) (g d : nat) :
  run (bind (Raise e) k) w g d = ([], Raised e).
Proof. reflexivity. Qed.

(** C6: when one of the six required values is unset (or empty), [main]
    stops with a [RuntimeError] before any call to the outside, and the
    message names every value that is missing; when all six are there,
    [ensure_env] returns. *)
Theorem ensure_env_missing (lower : str -> str) (isoformat : Z -> str)
    (env : config) (argv : list str) (w : world) :
  ((exists name v, In (name, v) (required env) /\ truthy v = false) ->
   exists msg,
     exec (main lower isoformat env argv) w = ([], Raised (RuntimeError msg)) /\
     forall name v, In (name, v) (required env) -> truthy v = false ->
                    contains name msg = true) /\
  ((forall name v, In (name, v) (required env) -> truthy v = true) ->
   exec (ensure_env env) w = ([], Returned tt)).
Proof.
  unfold exec, main, ensure_env, missing_env, required.
  destruct (truthy (TMDB_API_KEY env)) eqn:E1,
           (truthy (X_BEARER_TOKEN env)) eqn:E2,
           (truthy (X_API_KEY env)) eqn:E3,
           (truthy (X_API_SECRET env)) eqn:E4,
           (truthy (X_ACCESS_TOKEN env)) eqn:E5,
           (truthy (X_ACCESS_SECRET env)) eqn:E6;
    cbn [negb andb app];
    (split;
     [ intros (name & v & Hin & Hv)
     | intros Hall;
       try reflexivity;
       try (rewrite (Hall _ _ (or_introl eq_refl)) in E1; discriminate);
       try (rewrite (Hall _ _ (or_intror (or_introl eq_refl))) in E2; discriminate);
       try (rewrite (Hall _ _ (or_intror (or_intror (or_introl eq_refl)))) in E3; discriminate);
       try (rewrite (Hall _ _ (or_intror (or_intror (or_intror (or_introl eq_refl))))) in E4; discriminate);
       try (rewrite (Hall _ _ (or_intror (or_intror (or_intror (or_intror (or_introl eq_refl)))))) in E5; discriminate);
       try (rewrite (Hall _ _ (or_intror (or_intror (or_intror (or_intror (or_intror (or_introl eq_refl))))))) in E6; discriminate) ]);
    try (exfalso; simpl in Hin;
         repeat (destruct Hin as [Hin|Hin];
                 [inversion Hin; subst; congruence|]);
         exact Hin);
    (eexists; split; [reflexivity|];
     intros n u Hn Hu; simpl in Hn;
     repeat (destruct Hn as [Hn|Hn];
             [inversion Hn; subst; first [congruence | vm_compute; reflexivity]|]);
     contradiction).
Qed.

Lemma ensure_env_missing_witness :
  exists msg,
    exec (main ascii_lower iso_of_ordinal partial_env [U "bot.py"; U "1"])
         (quiet_world [test_movie] 1 (inr (U "ok")))
    = ([], Raised (RuntimeError msg)) /\
    contains (U "X_ACCESS_SECRET") msg = true.
Proof.
  destruct (proj1 (ensure_env_missing ascii_lower iso_of_ordinal partial_env
                     [U "bot.py"; U "1"]
                     (quiet_world [test_movie] 1 (inr (U "ok")))))
    as (msg & E & H).
  - exists (U "X_ACCESS_SECRET"), None. split; [simpl; auto 10 | reflexivity].
  - exists msg. split; [exact E|].
    apply (H _ None); [simpl; auto 10 | reflexivity].
Defined.

(** ** Runs of the modes *)

Lemma run_bind_tmdb_get {A} (env : config) (path : str) (params : dict)
    (k : reply -> prog A) (w : world) (g d : nat) :
  run (bind (tmdb_get env path params) k) w g d =
  match http w g (TMDB_BASE_URL ++ path) (with_api_key env params) with
  | inl e =>
    ([EvGet (TMDB_BASE_URL ++ path) (with_api_key env params) (inl e)],
     Raised e)
  | inr r =>
    (EvGet (TMDB_BASE_URL ++ path) (with_api_key env params) (inr r)
       :: fst (run (k r) w (S g) d),
     snd (run (k r) w (S g) d))
  end.
Proof.
  unfold tmdb_get. cbn [bind run].
  destruct (http w g (TMDB_BASE_URL ++ path) (with_api_key env params));
    cbn [lift bind run]; [reflexivity|].
  destruct (run (k r) w (S g) d); reflexivity.
Qed.

Lemma page_limit_pos (first : reply) (ceiling : Z) :
  1 <= page_limit first ceiling.
Proof. unfold page_limit. lia. Qed.

Lemma run_bind_random_page {A} (first : reply) (ceiling : Z)
    (k : Z -> prog A) (w : world) (g d : nat) :
  let n := page_limit first ceiling in
  let v := 1 + entropy w d mod n in
  run (bind (random_page first ceiling) k) w g d =
  (EvRandom n (entropy w d mod n) :: fst (run (k v) w g (S d)),
   snd (run (k v) w g (S d))).
Proof.
  intros n v. unfold random_page, randint. fold n.
  pose proof (page_limit_pos first ceiling) as Hn. fold n in Hn.
  destruct (n - 1 + 1 <=? 0) eqn:E; [apply Z.leb_le in E; lia|].
  replace (n - 1 + 1) with n by lia.
  cbn [bind run]. fold v.
  destruct (run (k v) w g (S d)); reflexivity.
Qed.

Lemma run_bind_print {A} (line : str) (k : unit -> prog A) (w : world)
    (g d : nat) :
  run (bind (print line) k) w g d =
  (EvPrint line :: fst (run (k tt) w g d), snd (run (k tt) w g d)).
Proof.
  unfold print. cbn [bind run]. destruct (run (k tt) w g d); reflexivity.
Qed.

Lemma run_print (line : str) (w : world) (g d : nat) :
  run (print line) w g d = ([EvPrint line], Returned tt).
Proof. reflexivity. Qed.

Lemma random_page_range (first : reply) (ceiling : Z) (raw : Z) :
  let v := 1 + raw mod page_limit first ceiling in
  1 <= v <= Z.max 1 (Z.min (default (total_pages first) 1) ceiling) /\
  (total_pages first = Some 0 -> v = 1).
Proof.
  intros v. subst v. unfold page_limit.
  set (n := Z.max (Z.min (default (total_pages first) 1) ceiling) 1).
  assert (Hn : 1 <= n) by (unfold n; lia).
  pose proof (Z.mod_pos_bound raw n ltac:(lia)) as Hm.
  split; [unfold n in *; lia|].
  intros H0. unfold n in *. rewrite H0 in *. simpl default in *.
  lia.
Qed.

Section EmptyService.

(** A metadata service that answers every request, with no item. *)
Variable w : world.
Hypothesis no_items :
  forall n url params, exists r, http w n url params = inr r /\ results_of r = [].

Lemma quiet_print (line : str) : quiet w (print line).
Proof. intros g d. split; [reflexivity | now exists tt]. Qed.

Lemma quiet_bind_print {A} (line : str) (k : unit -> prog A) :
  quiet w (k tt) -> quiet w (bind (print line) k).
Proof.
  intros H g d. rewrite run_bind_print. cbn [fst snd].
  destruct (H g d) as [Ht Ho]. split; assumption.
Qed.

Lemma quiet_bind_today {A} (k : Z -> prog A) :
  (forall day, quiet w (k day)) -> quiet w (bind (Today Ret) k).
Proof.
  intros H g d. cbn [bind run].
  destruct (H (today w) g d) as [Ht Ho].
  destruct (run (k (today w)) w g d). split; assumption.
Qed.

Lemma quiet_bind_random_page {A} (first : reply) (ceiling : Z)
    (k : Z -> prog A) :
  (forall v, quiet w (k v)) -> quiet w (bind (random_page first ceiling) k).
Proof.
  intros H g d. rewrite run_bind_random_page. cbn [fst snd].
  destruct (H (1 + entropy w d mod page_limit first ceiling) g (S d))
    as [Ht Ho].
  split; assumption.
Qed.

Lemma quiet_bind_tmdb_get {A} (env : config) (path : str) (params : dict)
    (k : reply -> prog A) :
  (forall r, results_of r = [] -> quiet w (k r)) ->
  quiet w (bind (tmdb_get env path params) k).
Proof.
  intros H g d. rewrite run_bind_tmdb_get.
  destruct (no_items g (TMDB_BASE_URL ++ path) (with_api_key env params))
    as (r & -> & Hr).
  cbn [fst snd]. destruct (H r Hr (S g) d) as [Ht Ho].
  split; assumption.
Qed.

Ltac quiet_step :=
  first
    [ apply quiet_print
    | apply quiet_bind_print
    | apply quiet_bind_today; intros ?
    | apply quiet_bind_random_page; intros ?
    | apply quiet_bind_tmdb_get;
      let r := fresh "r" in
      let Hr := fresh "Hr" in
      intros r Hr; try rewrite Hr;
      cbn [pick_best_result filtered filter or_list if_not_movie andb] ].

Lemma quiet_modes (lower : str -> str) (isoformat : Z -> str) (env : config)
    (key : str) (f : prog unit) :
  In (key, f) (MODES lower isoformat env) -> quiet w f.
Proof.
  intros H. unfold MODES in H. cbn [In] in H.
  repeat (destruct H as [H|H]; [inversion H; subst; clear H|]);
    try contradiction.
  - unfold mode_1_turkey_popular_today. repeat quiet_step.
  - unfold mode_2_world_popular_today. repeat quiet_step.
  - unfold mode_3_new_release_today. repeat quiet_step.
  - unfold mode_4_week_top_rated. repeat quiet_step.
  - unfold mode_5_random_quality. repeat quiet_step.
  - unfold mode_8_netflix_tr_popular. repeat quiet_step.
  - unfold mode_10_box_office_like. repeat quiet_step.
  - unfold mode_13_trending_riser. repeat quiet_step.
  - unfold mode_14_best_poster. repeat quiet_step.
  - unfold mode_15_turkish_movies_popular. repeat quiet_step.
  - unfold mode_16_classic_of_day. repeat quiet_step.
  - unfold mode_17_hidden_gem. repeat quiet_step.
Qed.

End EmptyService.

Lemma main_runs_mode (lower : str -> str) (isoformat : Z -> str)
    (env : config) (script key : str) (f : prog unit) :
  missing_env env = [] ->
  In (key, f) (MODES lower isoformat env) ->
  main lower isoformat env [script; key] = f.
Proof.
  intros He H. unfold main, ensure_env. rewrite He.
  cbn [bind List.length Z.of_nat Z.ltb Z.compare Pos.of_succ_nat Pos.succ
       Pos.compare Pos.compare_cont nth_error].
  unfold MODES in H. cbn [In] in H.
  repeat (destruct H as [H|H]; [inversion H; subst; clear H; reflexivity|]).
  contradiction.
Qed.

(** C9: when every metadata request is answered with no item, each mode
    returns normally (no exception) and its run contains no call to the
    publishing platform; the same holds of [main] started on that mode with
    a complete environment. *)
Theorem empty_results_no_post (lower : str -> str) (isoformat : Z -> str)
    (env : config) (w : world) (key : str) (f : prog unit) :
  (forall n url params,
     exists r, http w n url params = inr r /\ results_of r = []) ->
  In (key, f) (MODES lower isoformat env) ->
  (no_tweet (fst (exec f w)) /\ snd (exec f w) = Returned tt) /\
  (forall script, missing_env env = [] ->
     no_tweet (fst (exec (main lower isoformat env [script; key]) w)) /\
     snd (exec (main lower isoformat env [script; key]) w) = Returned tt).
Proof.
  intros Hw Hf.
  assert (Q : no_tweet (fst (exec f w)) /\ snd (exec f w) = Returned tt).
  { destruct (quiet_modes w Hw lower isoformat env key f Hf 0%nat 0%nat)
      as [Ht [[] Ho]].
    split; assumption. }
  split; [exact Q|].
  intros script He. now rewrite (main_runs_mode _ _ _ script key f He Hf).
Qed.

Lemma empty_results_no_post_witness :
  snd (exec (mode_17_hidden_gem ascii_lower full_env)
            (quiet_world [] 0 (inr (U "ok")))) = Returned tt.
Proof.
  apply (empty_results_no_post ascii_lower iso_of_ordinal full_env
           (quiet_world [] 0 (inr (U "ok"))) (U "17")).
  - intros n url params. eexists. split; reflexivity.
  - do 11 right. left. reflexivity.
Defined.

(** ** The random page *)

Lemma page_request_intro (first : reply) (ceiling raw : Z) (url : str)
    (params : dict) (answer : exn + reply) (rest : list event) :
  In ("page", PInt (1 + raw mod page_limit first ceiling)) params ->
  page_request first ceiling
    (EvRandom (page_limit first ceiling) (raw mod page_limit first ceiling)
       :: EvGet url params answer :: rest).
Proof.
  intros Hin.
  exists (1 + raw mod page_limit first ceiling), url, params, answer, rest.
  split; [f_equal; f_equal; lia|].
  split; [exact Hin|]. apply random_page_range.
Qed.

Lemma draw_then_get {A} (env : config) (first : reply) (ceiling : Z)
    (path : str) (base : dict) (k : reply -> prog A) (w : world) (g d : nat) :
  (forall v, In ("page", PInt v)
                (with_api_key env (dict_set "page" (PInt v) base))) ->
  page_request first ceiling
    (fst (run (bind (random_page first ceiling)
                 (fun v => bind (tmdb_get env path
                                   (dict_set "page" (PInt v) base)) k))
              w g d)).
Proof.
  intros Hin. rewrite run_bind_random_page. cbn [fst].
  rewrite run_bind_tmdb_get.
  destruct (http w g _ _); cbn [fst]; apply page_request_intro, Hin.
Qed.

Lemma first_answer_inv (u u' : str) (p p' : dict) (r r' : reply)
    (t t' : list event) :
  EvGet u p (inr r) :: t = EvGet u' p' (inr r') :: t' -> r = r' /\ t = t'.
Proof. intros H. inversion H. split; reflexivity. Qed.

Lemma print_then_inv (line line' : str) (t t' : list event) :
  EvPrint line :: t = EvPrint line' :: t' -> t = t'.
Proof. intros H. inversion H. reflexivity. Qed.

Ltac first_answer H :=
  rewrite run_bind_tmdb_get in H;
  match type of H with
  | context [http ?w ?g ?u ?p] => destruct (http w g u p)
  end;
  cbn [fst] in H; [discriminate H|];
  apply first_answer_inv in H as [-> H].

(** C5: the page draw of the random modes never fails and yields a page
    between 1 and max(1, min(total pages, ceiling)), an absent count
    standing for 1; with a count of 0 the page is 1.  In modes 5 and 16
    (ceiling 50) and in mode 17 (ceiling 30, after either search) the page
    drawn in this way is the one requested next. *)
Theorem random_page_clamped (lower : str -> str) (env : config) (w : world) :
  (forall first ceiling g d,
     exists v,
       run (random_page first ceiling) w g d =
       ([EvRandom (page_limit first ceiling) (v - 1)], Returned v) /\
       1 <= v <= Z.max 1 (Z.min (default (total_pages first) 1) ceiling) /\
       (total_pages first = Some 0 -> v = 1)) /\
  (forall url params first t,
     fst (exec (mode_5_random_quality lower env) w) =
     EvGet url params (inr first) :: t ->
     page_request first 50 t) /\
  (forall url params first t,
     fst (exec (mode_16_classic_of_day lower env) w) =
     EvGet url params (inr first) :: t ->
     page_request first 50 t) /\
  (forall url params first t,
     fst (exec (mode_17_hidden_gem lower env) w) =
     EvGet url params (inr first) :: t ->
     results_of first <> [] ->
     page_request first 30 t) /\
  (forall url1 params1 narrow line url2 params2 first t,
     fst (exec (mode_17_hidden_gem lower env) w) =
     EvGet url1 params1 (inr narrow) :: EvPrint line
       :: EvGet url2 params2 (inr first) :: t ->
     results_of first <> [] ->
     page_request first 30 t).
Proof.
  split; [|split; [|split; [|split]]].
  - intros first ceiling g d.
    exists (1 + entropy w d mod page_limit first ceiling).
    split; [|apply random_page_range].
    pose proof (run_bind_random_page first ceiling Ret w g d) as H.
    cbn [run fst snd] in H.
    replace (1 + entropy w d mod page_limit first ceiling - 1)
      with (entropy w d mod page_limit first ceiling) by lia.
    rewrite <- H. clear H.
    unfold random_page, randint.
    destruct (page_limit first ceiling - 1 + 1 <=? 0); reflexivity.
  - intros url params first t H.
    unfold exec, mode_5_random_quality in H. first_answer H.
    subst t. cbv zeta. apply draw_then_get.
    intros v. simpl. auto 10.
  - intros url params first t H.
    unfold exec, mode_16_classic_of_day in H. first_answer H.
    subst t. cbv zeta. apply draw_then_get.
    intros v. simpl. auto 10.
  - intros url params first t H Hne.
    unfold exec, mode_17_hidden_gem in H. first_answer H.
    subst t. cbv zeta. unfold or_list at 1.
    destruct (results_of first) as [|m l] eqn:E; [congruence|].
    unfold mode_17_draw. cbv zeta. apply draw_then_get.
    intros v. simpl. auto 10.
  - intros url1 params1 narrow line url2 params2 first t H Hne.
    unfold exec, mode_17_hidden_gem in H. first_answer H.
    cbv zeta in H. unfold or_list at 1 in H.
    destruct (results_of narrow) as [|m l] eqn:E.
    + rewrite run_bind_print in H. cbn [fst] in H.
      apply print_then_inv in H. first_answer H.
      subst t. unfold or_list at 1.
      destruct (results_of first) as [|m l] eqn:E'; [congruence|].
      unfold mode_17_draw. cbv zeta. apply draw_then_get.
      intros v. simpl. auto 10.
    + unfold mode_17_draw in H. cbv zeta in H.
      rewrite run_bind_random_page in H. cbn [fst] in H. discriminate H.
Qed.

Lemma random_page_clamped_witness :
  page_request (reply_of [test_movie] 0) 50
    (tl (fst (exec (mode_5_random_quality ascii_lower full_env)
                   (quiet_world [test_movie] 0 (inr (U "ok")))))).
Proof.
  eapply (proj1 (proj2 (random_page_clamped ascii_lower full_env
                          (quiet_world [test_movie] 0 (inr (U "ok")))))).
  reflexivity.
Defined.

(** ** Message texts *)

Lemma contains_title_year (h ttl y rest : str) :
  contains (ttl ++ U " (" ++ y ++ U ")")
           (h ++ nl ++ ttl ++ U " (" ++ y ++ U ")" ++ rest) = true.
Proof.
  replace (h ++ nl ++ ttl ++ U " (" ++ y ++ U ")" ++ rest)
    with ((h ++ nl) ++ (ttl ++ U " (" ++ y ++ U ")") ++ rest)
    by (now rewrite <- !app_assoc).
  apply contains_app.
Qed.

Lemma contains_title_year_star (h ttl y rest : str) :
  contains (ttl ++ U " (" ++ y ++ U ")")
           (h ++ nl ++ ttl ++ U " (" ++ y ++ U ") – ⭐ " ++ rest) = true.
Proof.
  change (U ") – ⭐ " ++ rest) with (U ")" ++ U " – ⭐ " ++ rest).
  apply contains_title_year.
Qed.










Example mode_3_text_scenario :
  exists text,
    mode_3_text test_movie = Ret text /\
    contains (U "Test Movie (2024-03-15)") text = true /\
    contains (U "Test Movie (2024)") text = false /\
    contains (U "⭐ 8.2") text = true.
Proof. eexists. split; [reflexivity|]. vm_compute. repeat split. Qed.

(** The scenario of the specification run through [main] in mode 1: one
    request, one post, one log line; the text posted shows the year and the
    rating. *)
Example main_scenario :
  exists url params answer text line,
    exec (main ascii_lower iso_of_ordinal full_env [U "bot.py"; U "1"])
         (quiet_world [test_movie] 1 (inr (U "ok")))
    = ([EvGet url params answer; EvTweet text (inr (U "ok")); EvPrint line],
       Returned tt) /\
    contains (U "Test Movie (2024)") text = true /\
    contains (U "⭐ 8.2") text = true.
Proof.
  do 5 eexists. split; [vm_compute; reflexivity|].
  vm_compute. split; reflexivity.
Qed.

(** * Further properties of [bot.py] *)

(** ** Programs and their runs *)

Lemma always_bind {A B} (P : call -> Prop) (p : prog A) (k : A -> prog B) :
  always P p -> (forall a, always P (k a)) -> always P (bind p k).
Proof.
  intros Hp Hk.
  induction p as [a|e|url params k' IH|n k' IH|k' IH|line k' IH|text k' IH];
    simpl in *; auto.
  - destruct Hp as [H1 H2]. split; [exact H1 | intros r; apply IH, H2].
  - destruct Hp as [H1 H2]. split; [exact H1 | intros r; apply IH, H2].
  - destruct Hp as [H1 H2]. split; [exact H1 | intros r; apply IH, H2].
  - destruct Hp as [H1 H2]. split; [exact H1 | apply IH, H2].
  - destruct Hp as [H1 H2]. split; [exact H1 | intros r; apply IH, H2].
Qed.

Lemma always_try_except {A} (P : call -> Prop) (p : prog A)
    (h : exn -> option (prog A)) :
  always P p -> (forall e q, h e = Some q -> always P q) ->
  always P (try_except p h).
Proof.
  intros Hp Hh.
  induction p as [a|e|url params k' IH|n k' IH|k' IH|line k' IH|text k' IH];
    simpl in *; auto.
  - destruct (h e) as [q|] eqn:E; [now apply (Hh e) | exact I].
  - destruct Hp as [H1 H2]. split; [exact H1 | intros r; apply IH, H2].
  - destruct Hp as [H1 H2]. split; [exact H1 | intros r; apply IH, H2].
  - destruct Hp as [H1 H2]. split; [exact H1 | intros r; apply IH, H2].
  - destruct Hp as [H1 H2]. split; [exact H1 | apply IH, H2].
  - destruct Hp as [H1 H2]. split; [exact H1 | intros r; apply IH, H2].
Qed.

Lemma always_run {A} (P : call -> Prop) (p : prog A) (w : world) :
  always P p ->
  forall g d, Forall (fun e => P (call_of e)) (fst (run p w g d)).
Proof.
  induction p as [a|e|url params k IH|n k IH|k IH|line k IH|text k IH];
    intros Hp g d; simpl in *.
  - constructor.
  - constructor.
  - destruct Hp as [H1 H2].
    specialize (IH (http w g url params) (H2 _) (S g) d).
    destruct (run (k (http w g url params)) w (S g) d). now constructor.
  - destruct Hp as [H1 H2].
    specialize (IH (entropy w d mod n) (H2 _) g (S d)).
    destruct (run (k (entropy w d mod n)) w g (S d)). now constructor.
  - destruct Hp as [H1 H2].
    specialize (IH (today w) (H2 _) g d).
    destruct (run (k (today w)) w g d). now constructor.
  - destruct Hp as [H1 H2]. specialize (IH H2 g d).
    destruct (run k w g d). now constructor.
  - destruct Hp as [H1 H2].
    specialize (IH (twitter w text) (H2 _) g d).
    destruct (run (k (twitter w text)) w g d). now constructor.
Qed.

Lemma always_item {A} (P : call -> Prop) (key : string) (o : option A) :
  always P (item key o).
Proof. destruct o; exact I. Qed.

Lemma always_item_jstr (P : call -> Prop) (key : string) (f : jstr) :
  always P (item_jstr key f).
Proof. destruct f; exact I. Qed.

Lemma always_slice_opt (P : call -> Prop) (x : option str) (n : Z) :
  always P (slice_opt x n).
Proof. destruct x; exact I. Qed.

Section AlwaysModes.

Variable lower : str -> str.
Variable isoformat : Z -> str.
Variable env : config.

(** A property of calls that holds of the calls the helpers make. *)
Variable P : call -> Prop.
Hypothesis P_get :
  forall path params,
    P (CGet (TMDB_BASE_URL ++ path) (with_api_key env params)).
Hypothesis P_random : forall n, 1 <= n -> P (CRandom n).
Hypothesis P_today : P CToday.
Hypothesis P_print : forall line, P (CPrint line).
Hypothesis P_tweet : forall text, P (CTweet (tweet_clip text)).

Lemma always_tmdb_get (path : str) (params : dict) :
  always P (tmdb_get env path params).
Proof.
  unfold tmdb_get. simpl. split; [apply P_get|]. intros [e|r]; exact I.
Qed.

Lemma always_print (line : str) : always P (print line).
Proof. simpl. split; [apply P_print | exact I]. Qed.

Lemma always_today : always P (Today Ret).
Proof. simpl. split; [exact P_today | intros; exact I]. Qed.

Lemma always_random_page (first : reply) (ceiling : Z) :
  always P (random_page first ceiling).
Proof.
  unfold random_page, randint.
  destruct (page_limit first ceiling - 1 + 1 <=? 0) eqn:E; [exact I|].
  apply Z.leb_gt in E. simpl. split; [apply P_random; lia | intros; exact I].
Qed.

Lemma always_choice {A} (seq : list A) : always P (choice seq).
Proof.
  destruct seq as [|a seq]; [exact I|].
  unfold choice. simpl always. split.
  - apply P_random. simpl List.length. lia.
  - intros v. destruct (nth_error (a :: seq) (Z.to_nat v)); exact I.
Qed.

Lemma always_tweet (text : str) : always P (tweet lower text).
Proof.
  unfold tweet. apply always_try_except.
  - simpl. split; [apply P_tweet|]. intros [e|r]; simpl; auto.
  - intros e q H. destruct e; try discriminate H.
    inversion H; subst; clear H.
    destruct (contains (U "duplicate") (lower msg)); simpl; auto.
Qed.

Lemma always_if_not_movie {A} (picked : option movie) (absent : prog A)
    (present : movie -> prog A) :
  always P absent -> (forall m, always P (present m)) ->
  always P (if_not_movie picked absent present).
Proof.
  intros Ha Hp. unfold if_not_movie.
  destruct picked as [m|]; [destruct (dict_is_empty m)|]; auto.
Qed.

Ltac always_step :=
  first
    [ exact I
    | apply always_item
    | apply always_item_jstr
    | apply always_slice_opt
    | apply always_tmdb_get
    | apply always_print
    | apply always_today
    | apply always_random_page
    | apply always_choice
    | apply always_tweet
    | apply always_if_not_movie; [|intros ?]
    | apply always_bind; [|intros ?]
    | progress cbv zeta
    | match goal with
      | |- always _ (match ?l with [] => _ | _ :: _ => _ end) => destruct l
      end ].

Lemma always_modes (key : str) (f : prog unit) :
  In (key, f) (MODES lower isoformat env) -> always P f.
Proof.
  intros H. unfold MODES in H. cbn [In] in H.
  repeat (destruct H as [H|H]; [inversion H; subst; clear H|]);
    try contradiction.
  - unfold mode_1_turkey_popular_today. repeat always_step.
  - unfold mode_2_world_popular_today. repeat always_step.
  - unfold mode_3_new_release_today. repeat always_step.
  - unfold mode_4_week_top_rated. repeat always_step.
  - unfold mode_5_random_quality. repeat always_step.
  - unfold mode_8_netflix_tr_popular. repeat always_step.
  - unfold mode_10_box_office_like. repeat always_step.
  - unfold mode_13_trending_riser. repeat always_step.
  - unfold mode_14_best_poster. repeat always_step.
  - unfold mode_15_turkish_movies_popular. repeat always_step.
  - unfold mode_16_classic_of_day. repeat always_step.
  - unfold mode_17_hidden_gem, mode_17_draw. repeat always_step.
Qed.

End AlwaysModes.

Lemma modes_get_In (table : list (str * prog unit)) (key : str)
    (f : prog unit) :
  modes_get table key = Some f -> exists k, In (k, f) table.
Proof.
  induction table as [|[k g] table IH]; simpl; intros H; [discriminate|].
  destruct (str_eqb k key).
  - inversion H; subst. exists k. now left.
  - destruct (IH H) as [k' Hk']. exists k'. now right.
Qed.

Lemma always_main (lower : str -> str) (isoformat : Z -> str) (env : config)
    (P : call -> Prop) (argv : list str) :
  (forall key f, In (key, f) (MODES lower isoformat env) -> always P f) ->
  always P (main lower isoformat env argv).
Proof.
  intros Hm. unfold main, ensure_env.
  destruct (missing_env env); [|exact I].
  cbn [bind].
  destruct (Z.of_nat (List.length argv) <? 2); [exact I|].
  destruct (nth_error argv 1) as [key|]; [|exact I].
  destruct (modes_get (MODES lower isoformat env) key) as [f|] eqn:E;
    [|exact I].
  destruct (modes_get_In _ _ _ E) as [k Hk]. exact (Hm k f Hk).
Qed.

Lemma In_event_call (P : call -> Prop) (t : list event) (e : event) :
  Forall (fun e => P (call_of e)) t -> In e t -> P (call_of e).
Proof. intros H Hin. rewrite Forall_forall in H. now apply H. Qed.

Lemma len_tweet_clip (text : str) : len (tweet_clip text) <= 270.
Proof.
  unfold tweet_clip, max_len.
  destruct (len text >? 270) eqn:E.
  - rewrite len_app, len_slice_to by lia. change (len (U "...")) with 3. lia.
  - rewrite Z.gtb_ltb in E. apply Z.ltb_ge in E. exact E.
Qed.

Lemma dict_set_In (key : string) (v : pval) (d : dict) :
  In (key, v) (dict_set key v d).
Proof.
  induction d as [|[k x] d IH]; simpl; [now left|].
  destruct (String.eqb k key) eqn:E.
  - apply String.eqb_eq in E. subst k. now left.
  - now right.
Qed.

(** ** What a run never does *)

(** X1: whatever the arguments, the environment and the answers of the
    outside, no text handed to the publishing platform has more than 270
    characters. *)
Theorem posts_within_ceiling (lower : str -> str) (isoformat : Z -> str)
    (env : config) (argv : list str) (w : world) (text : str)
    (answer : exn + str) :
  In (EvTweet text answer) (fst (exec (main lower isoformat env argv) w)) ->
  len text <= 270.
Proof.
  intros Hin.
  pose (P := fun c => match c with CTweet t => len t <= 270 | _ => True end).
  apply (In_event_call P (fst (exec (main lower isoformat env argv) w))
           (EvTweet text answer)); [|exact Hin].
  apply always_run. apply always_main. intros key f Hf.
  apply (always_modes lower isoformat env P) with (key := key);
    try exact Hf; try (intros; exact I).
  intros t. apply len_tweet_clip.
Qed.

Lemma posts_within_ceiling_witness :
  let t := fst (exec (main ascii_lower iso_of_ordinal full_env
                        [U "bot.py"; U "1"]) wordy_world) in
  posted t <> [] /\ len (hd [] (posted t)) <= 270.
Proof.
  intros t. split; [vm_compute; discriminate|].
  apply (posts_within_ceiling ascii_lower iso_of_ordinal full_env
           [U "bot.py"; U "1"] wordy_world _ (inr (U "ok"))).
  vm_compute. right. left. reflexivity.
Defined.


(** X2: every metadata request of a run goes to the TMDB base URL and
    carries the configured key, which is not empty, as [api_key]. *)
Theorem requests_carry_key (lower : str -> str) (isoformat : Z -> str)
    (env : config) (argv : list str) (w : world) (url : str) (params : dict)
    (answer : exn + reply) :
  In (EvGet url params answer) (fst (exec (main lower isoformat env argv) w)) ->
  starts_with TMDB_BASE_URL url = true /\
  exists k, k <> [] /\ TMDB_API_KEY env = Some k /\
            In ("api_key", PStr k) params.
Proof.
  intros Hin.
  pose (P := fun c => match c with
                      | CGet u ps =>
                        starts_with TMDB_BASE_URL u = true /\
                        In ("api_key", api_key_value env) ps
                      | _ => True
                      end).
  assert (HP : P (call_of (EvGet url params answer))).
  { apply (In_event_call P (fst (exec (main lower isoformat env argv) w)));
      [|exact Hin].
    apply always_run. apply always_main. intros key f Hf.
    apply (always_modes lower isoformat env P) with (key := key);
      try exact Hf; try (intros; exact I).
    intros path ps. split; [apply starts_with_app | apply dict_set_In]. }
  destruct HP as [Hu Hk]. split; [exact Hu|].
  unfold exec, main, ensure_env in Hin.
  destruct (missing_env env) eqn:Em; [|contradiction Hin].
  unfold missing_env in Em. unfold api_key_value in Hk.
  destruct (TMDB_API_KEY env) as [[|c k]|]; simpl in Em;
    try (destruct (negb _) in Em; discriminate Em).
  exists (c :: k). repeat split; [discriminate | exact Hk].
Qed.

Lemma requests_carry_key_witness :
  exists k, k <> [] /\ TMDB_API_KEY full_env = Some k /\
    In ("api_key", PStr k)
       [("language", PStr (U "tr-TR")); ("region", PStr (U "TR"));
        ("page", PInt 1); ("api_key", PStr (U "k"))].
Proof.
  apply (requests_carry_key ascii_lower iso_of_ordinal full_env
           [U "bot.py"; U "1"] wordy_world
           (TMDB_BASE_URL ++ U "/movie/popular") _
           (inr (reply_of [wordy_movie] 1))).
  vm_compute. left. reflexivity.
Defined.

(** ** Counting calls *)

Lemma bounded_mono {A} (cost : call -> nat) (p : prog A) (n m : nat) :
  (n <= m)%nat -> bounded cost p n -> bounded cost p m.
Proof.
  revert n m.
  induction p as [a|e|url params k IH|b k IH|k IH|line k IH|text k IH];
    intros n m Hnm; simpl; auto.
  - intros [H1 H2]. split; [lia|]. intros r. eapply IH; [|apply H2]. lia.
  - intros [H1 H2]. split; [lia|]. intros r. eapply IH; [|apply H2]. lia.
  - intros [H1 H2]. split; [lia|]. intros r. eapply IH; [|apply H2]. lia.
  - intros [H1 H2]. split; [lia|]. eapply IH; [|apply H2]. lia.
  - intros [H1 H2]. split; [lia|]. intros r. eapply IH; [|apply H2]. lia.
Qed.

Lemma bounded_bind {A B} (cost : call -> nat) (p : prog A) (k : A -> prog B)
    (n m : nat) :
  bounded cost p n -> (forall a, bounded cost (k a) m) ->
  bounded cost (bind p k) (n + m).
Proof.
  intros Hp Hk. revert n Hp.
  induction p as [a|e|url params k' IH|b k' IH|k' IH|line k' IH|text k' IH];
    intros n Hp; simpl in *.
  - apply (bounded_mono cost _ m); [lia | apply Hk].
  - exact I.
  - destruct Hp as [H1 H2]. split; [lia|]. intros r.
    eapply bounded_mono; [|apply (IH r _ (H2 r))]. lia.
  - destruct Hp as [H1 H2]. split; [lia|]. intros r.
    eapply bounded_mono; [|apply (IH r _ (H2 r))]. lia.
  - destruct Hp as [H1 H2]. split; [lia|]. intros r.
    eapply bounded_mono; [|apply (IH r _ (H2 r))]. lia.
  - destruct Hp as [H1 H2]. split; [lia|].
    eapply bounded_mono; [|apply (IH _ H2)]. lia.
  - destruct Hp as [H1 H2]. split; [lia|]. intros r.
    eapply bounded_mono; [|apply (IH r _ (H2 r))]. lia.
Qed.

Lemma bounded_try_except {A} (cost : call -> nat) (p : prog A)
    (h : exn -> option (prog A)) (n m : nat) :
  bounded cost p n -> (forall e q, h e = Some q -> bounded cost q m) ->
  bounded cost (try_except p h) (n + m).
Proof.
  intros Hp Hh. revert n Hp.
  induction p as [a|e|url params k' IH|b k' IH|k' IH|line k' IH|text k' IH];
    intros n Hp; simpl in *.
  - exact I.
  - destruct (h e) as [q|] eqn:E; [|exact I].
    apply (bounded_mono cost _ m); [lia | now apply (Hh e)].
  - destruct Hp as [H1 H2]. split; [lia|]. intros r.
    eapply bounded_mono; [|apply (IH r _ (H2 r))]. lia.
  - destruct Hp as [H1 H2]. split; [lia|]. intros r.
    eapply bounded_mono; [|apply (IH r _ (H2 r))]. lia.
  - destruct Hp as [H1 H2]. split; [lia|]. intros r.
    eapply bounded_mono; [|apply (IH r _ (H2 r))]. lia.
  - destruct Hp as [H1 H2]. split; [lia|].
    eapply bounded_mono; [|apply (IH _ H2)]. lia.
  - destruct Hp as [H1 H2]. split; [lia|]. intros r.
    eapply bounded_mono; [|apply (IH r _ (H2 r))]. lia.
Qed.

Lemma bounded_run {A} (cost : call -> nat) (p : prog A) (w : world) (n : nat) :
  bounded cost p n ->
  forall g d, (total cost (fst (run p w g d)) <= n)%nat.
Proof.
  revert n.
  induction p as [a|e|url params k IH|b k IH|k IH|line k IH|text k IH];
    intros n Hp g d; unfold total in *; simpl in *.
  - lia.
  - lia.
  - destruct Hp as [H1 H2].
    specialize (IH (http w g url params) _ (H2 _) (S g) d).
    destruct (run (k (http w g url params)) w (S g) d). simpl in *. lia.
  - destruct Hp as [H1 H2].
    specialize (IH (entropy w d mod b) _ (H2 _) g (S d)).
    destruct (run (k (entropy w d mod b)) w g (S d)). simpl in *. lia.
  - destruct Hp as [H1 H2].
    specialize (IH (today w) _ (H2 _) g d).
    destruct (run (k (today w)) w g d). simpl in *. lia.
  - destruct Hp as [H1 H2]. specialize (IH _ H2 g d).
    destruct (run k w g d). simpl in *. lia.
  - destruct Hp as [H1 H2].
    specialize (IH (twitter w text) _ (H2 _) g d).
    destruct (run (k (twitter w text)) w g d). simpl in *. lia.
Qed.

(** A program whose calls all cost nothing fits every budget. *)
Lemma bounded_free {A} (cost : call -> nat) (p : prog A) (n : nat) :
  always (fun c => cost c = 0%nat) p -> bounded cost p n.
Proof.
  revert n.
  induction p as [a|e|url params k IH|b k IH|k IH|line k IH|text k IH];
    intros n; simpl; auto.
  - intros [H1 H2]. rewrite H1. split; [lia|]. intros r. apply IH, H2.
  - intros [H1 H2]. rewrite H1. split; [lia|]. intros r. apply IH, H2.
  - intros [H1 H2]. rewrite H1. split; [lia|]. intros r. apply IH, H2.
  - intros [H1 H2]. rewrite H1. split; [lia|]. apply IH, H2.
  - intros [H1 H2]. rewrite H1. split; [lia|]. intros r. apply IH, H2.
Qed.

Lemma bounded_bind_free {A B} (cost : call -> nat) (p : prog A)
    (k : A -> prog B) (n : nat) :
  always (fun c => cost c = 0%nat) p -> (forall a, bounded cost (k a) n) ->
  bounded cost (bind p k) n.
Proof.
  intros Hp Hk. change n with (0 + n)%nat.
  apply bounded_bind; [now apply bounded_free | exact Hk].
Qed.

Lemma bounded_if_not_movie {A} (cost : call -> nat) (picked : option movie)
    (absent : prog A) (present : movie -> prog A) (n : nat) :
  bounded cost absent n -> (forall m, bounded cost (present m) n) ->
  bounded cost (if_not_movie picked absent present) n.
Proof.
  intros Ha Hp. unfold if_not_movie.
  destruct picked as [m|]; [destruct (dict_is_empty m)|]; auto.
Qed.

Lemma total_tweet_cost (t : list event) :
  total tweet_cost t = List.length (filter is_tweet t).
Proof.
  unfold total. induction t as [|e t IH]; [reflexivity|].
  destruct e; simpl in *; lia.
Qed.

Lemma total_get_cost (t : list event) :
  total get_cost t = List.length (filter is_get t).
Proof.
  unfold total. induction t as [|e t IH]; [reflexivity|].
  destruct e; simpl in *; lia.
Qed.

Lemma bounded_bind_get {A} (env : config) (path : str) (params : dict)
    (k : reply -> prog A) (n : nat) :
  (forall r, bounded get_cost (k r) n) ->
  bounded get_cost (bind (tmdb_get env path params) k) (S n).
Proof.
  intros Hk. change (S n) with (1 + n)%nat. apply bounded_bind; [|exact Hk].
  unfold tmdb_get. simpl. split; [lia|]. intros [e|r]; exact I.
Qed.

Lemma bounded_tweet (lower : str -> str) (text : str) :
  bounded tweet_cost (tweet lower text) 1.
Proof.
  unfold tweet. change 1%nat with (1 + 0)%nat. apply bounded_try_except.
  - simpl. split; [lia|]. intros [e|r]; simpl; auto.
  - intros e q H. destruct e; try discriminate H.
    inversion H; subst; clear H.
    destruct (contains (U "duplicate") (lower msg)); simpl; auto.
Qed.

Ltac free_tac :=
  repeat first
    [ exact I
    | apply always_item
    | apply always_item_jstr
    | apply always_slice_opt
    | apply always_print; intros; reflexivity
    | apply always_today; reflexivity
    | apply always_random_page; intros; reflexivity
    | apply always_choice; intros; reflexivity
    | apply always_tweet; intros; reflexivity
    | apply always_tmdb_get; intros; reflexivity
    | apply always_bind; [|intros ?]
    | progress cbv zeta ].

Ltac bounded_step :=
  first
    [ exact I
    | apply bounded_bind_get; intros ?
    | apply bounded_tweet
    | apply bounded_bind_free; [solve [free_tac] | intros ?]
    | apply bounded_if_not_movie; [|intros ?]
    | apply bounded_free; solve [free_tac]
    | progress cbv zeta
    | match goal with
      | |- bounded _ (match ?l with [] => _ | _ :: _ => _ end) _ => destruct l
      end ].

Lemma bounded_modes_tweet (lower : str -> str) (isoformat : Z -> str)
    (env : config) (key : str) (f : prog unit) :
  In (key, f) (MODES lower isoformat env) -> bounded tweet_cost f 1.
Proof.
  intros H. unfold MODES in H. cbn [In] in H.
  repeat (destruct H as [H|H]; [inversion H; subst; clear H|]);
    try contradiction.
  - unfold mode_1_turkey_popular_today. repeat bounded_step.
  - unfold mode_2_world_popular_today. repeat bounded_step.
  - unfold mode_3_new_release_today. repeat bounded_step.
  - unfold mode_4_week_top_rated. repeat bounded_step.
  - unfold mode_5_random_quality. repeat bounded_step.
  - unfold mode_8_netflix_tr_popular. repeat bounded_step.
  - unfold mode_10_box_office_like. repeat bounded_step.
  - unfold mode_13_trending_riser. repeat bounded_step.
  - unfold mode_14_best_poster. repeat bounded_step.
  - unfold mode_15_turkish_movies_popular. repeat bounded_step.
  - unfold mode_16_classic_of_day. repeat bounded_step.
  - unfold mode_17_hidden_gem, mode_17_draw. repeat bounded_step.
Qed.

Lemma bounded_modes_get (lower : str -> str) (isoformat : Z -> str)
    (env : config) (key : str) (f : prog unit) :
  In (key, f) (MODES lower isoformat env) ->
  bounded get_cost f (request_budget key).
Proof.
  intros H. unfold MODES in H. cbn [In] in H.
  repeat (destruct H as [H|H]; [inversion H; subst; clear H|]);
    try contradiction;
    match goal with
    | |- bounded _ _ (request_budget ?k) =>
      let n := eval vm_compute in (request_budget k) in
      change (request_budget k) with n
    end.
  - unfold mode_1_turkey_popular_today. repeat bounded_step.
  - unfold mode_2_world_popular_today. repeat bounded_step.
  - unfold mode_3_new_release_today. repeat bounded_step.
  - unfold mode_4_week_top_rated. repeat bounded_step.
  - unfold mode_5_random_quality. repeat bounded_step.
  - unfold mode_8_netflix_tr_popular. repeat bounded_step.
  - unfold mode_10_box_office_like. repeat bounded_step.
  - unfold mode_13_trending_riser. repeat bounded_step.
  - unfold mode_14_best_poster. repeat bounded_step.
  - unfold mode_15_turkish_movies_popular. repeat bounded_step.
  - unfold mode_16_classic_of_day. repeat bounded_step.
  - unfold mode_17_hidden_gem, mode_17_draw. repeat bounded_step.
Qed.

Lemma bounded_main (lower : str -> str) (isoformat : Z -> str) (env : config)
    (cost : call -> nat) (n : nat) (argv : list str) :
  (forall key f, In (key, f) (MODES lower isoformat env) ->
                 bounded cost f n) ->
  bounded cost (main lower isoformat env argv) n.
Proof.
  intros Hm. unfold main, ensure_env.
  destruct (missing_env env); [|exact I].
  cbn [bind].
  destruct (Z.of_nat (List.length argv) <? 2); [exact I|].
  destruct (nth_error argv 1) as [key|]; [|exact I].
  destruct (modes_get (MODES lower isoformat env) key) as [f|] eqn:E;
    [|exact I].
  destruct (modes_get_In _ _ _ E) as [k Hk]. exact (Hm k f Hk).
Qed.

Lemma request_budget_le (key : str) : (request_budget key <= 3)%nat.
Proof.
  unfold request_budget.
  destruct (str_eqb key (U "17")); [lia|].
  destruct (str_eqb key (U "3") || str_eqb key (U "5") || str_eqb key (U "16"));
    lia.
Qed.

(** X4: a run of the bot calls the publishing platform at most once,
    whatever the arguments, the environment and the answers it gets. *)
Theorem one_post_per_run (lower : str -> str) (isoformat : Z -> str)
    (env : config) (argv : list str) (w : world) :
  (List.length
     (filter is_tweet (fst (exec (main lower isoformat env argv) w))) <= 1)%nat.
Proof.
  rewrite <- total_tweet_cost. apply bounded_run.
  apply bounded_main. intros key f Hf.
  exact (bounded_modes_tweet lower isoformat env key f Hf).
Qed.

(** X5: a mode sends at most one request to the metadata service, except
    modes 3, 5 and 16, which send at most two, and mode 17, which sends at
    most three (narrow search, relaxed search, random page); a run of the bot
    never sends more than three. *)
Theorem requests_per_mode (lower : str -> str) (isoformat : Z -> str)
    (env : config) (w : world) :
  (forall key f,
     In (key, f) (MODES lower isoformat env) ->
     (List.length (filter is_get (fst (exec f w))) <= request_budget key)%nat) /\
  (forall argv,
     (List.length
        (filter is_get (fst (exec (main lower isoformat env argv) w))) <= 3)%nat).
Proof.
  split.
  - intros key f Hf. rewrite <- total_get_cost. apply bounded_run.
    exact (bounded_modes_get lower isoformat env key f Hf).
  - intros argv. rewrite <- total_get_cost. apply bounded_run.
    apply bounded_main. intros key f Hf.
    apply (bounded_mono get_cost f (request_budget key));
      [apply request_budget_le|].
    exact (bounded_modes_get lower isoformat env key f Hf).
Qed.

Lemma requests_per_mode_witness :
  (List.length
     (filter is_get
        (fst (exec (mode_17_hidden_gem ascii_lower full_env) relaxing_world)))
   <= 3)%nat.
Proof.
  apply (proj1 (requests_per_mode ascii_lower iso_of_ordinal full_env
                  relaxing_world) (U "17")).
  do 11 right. left. reflexivity.
Defined.

Example mode_17_three_requests :
  List.length
    (filter is_get
       (fst (exec (mode_17_hidden_gem ascii_lower full_env) relaxing_world)))
  = 3%nat /\
  List.length
    (filter is_tweet
       (fst (exec (mode_17_hidden_gem ascii_lower full_env) relaxing_world)))
  = 1%nat.
Proof. vm_compute. split; reflexivity. Qed.

(** ** The command line *)

Lemma str_eqb_eq (a b : str) : str_eqb a b = true -> a = b.
Proof.
  revert b; induction a as [|x a IH]; intros [|y b] H; simpl in H;
    try discriminate; [reflexivity|].
  apply andb_true_iff in H as [Hx Ha]. apply N.eqb_eq in Hx.
  now rewrite Hx, (IH b Ha).
Qed.

Lemma modes_get_None (table : list (str * prog unit)) (key : str) :
  (forall f, ~ In (key, f) table) -> modes_get table key = None.
Proof.
  induction table as [|[k g] table IH]; simpl; intros H; [reflexivity|].
  destruct (str_eqb k key) eqn:E.
  - apply str_eqb_eq in E. subst k. exfalso. apply (H g). now left.
  - apply IH. intros f Hf. apply (H f). now right.
Qed.

Lemma modes_get_Some (lower : str -> str) (isoformat : Z -> str)
    (env : config) (key : str) (f : prog unit) :
  In (key, f) (MODES lower isoformat env) ->
  modes_get (MODES lower isoformat env) key = Some f.
Proof.
  intros H. unfold MODES in H. cbn [In] in H.
  repeat (destruct H as [H|H]; [inversion H; subst; clear H; reflexivity|]).
  contradiction.
Qed.

Lemma pair_fst_eq {A B} (a c : A) (b d : B) : (a, b) = (c, d) -> a = c.
Proof. intros H. now inversion H. Qed.

(** X6: with a complete environment, [main] started without a mode stops
    with [SystemExit] and the usage text, and started with a word that is no
    key of [MODES] it stops with [SystemExit] naming that word; in both
    cases nothing has been requested, printed or posted. *)
Theorem main_argument_errors (lower : str -> str) (isoformat : Z -> str)
    (env : config) (w : world) :
  missing_env env = [] ->
  (forall argv,
     (List.length argv < 2)%nat ->
     exec (main lower isoformat env argv) w = ([], Raised (SystemExit usage))) /\
  (forall script key rest,
     (forall f, ~ In (key, f) (MODES lower isoformat env)) ->
     exec (main lower isoformat env (script :: key :: rest)) w =
     ([], Raised (SystemExit (U "Bilinmeyen MODE: " ++ key)))).
Proof.
  intros He. split.
  - intros argv Hlen. unfold exec, main, ensure_env. rewrite He. cbn [bind].
    destruct (Z.of_nat (List.length argv) <? 2) eqn:E;
      [cbn [run]; unfold usage; reflexivity|].
    apply Z.ltb_ge in E. lia.
  - intros script key rest Hk. unfold exec, main, ensure_env. rewrite He.
    cbn [bind].
    destruct (Z.of_nat (List.length (script :: key :: rest)) <? 2) eqn:E.
    { apply Z.ltb_lt in E. simpl List.length in E. lia. }
    cbn [nth_error]. rewrite (modes_get_None _ _ Hk). reflexivity.
Qed.

Lemma main_argument_errors_witness :
  exec (main ascii_lower iso_of_ordinal full_env [U "bot.py"; U "6"])
       wordy_world
  = ([], Raised (SystemExit (U "Bilinmeyen MODE: " ++ U "6"))).
Proof.
  apply (proj2 (main_argument_errors ascii_lower iso_of_ordinal full_env
                  wordy_world eq_refl) (U "bot.py") (U "6") []).
  intros f H. unfold MODES in H. cbn [In] in H.
  repeat (destruct H as [H|H];
          [apply pair_fst_eq in H; vm_compute in H; discriminate H|]).
  exact H.
Defined.

(** X7: with a complete environment, [main] started with a key of [MODES]
    behaves exactly as the function stored under that key; arguments after
    the key are ignored. *)
Theorem main_dispatch (lower : str -> str) (isoformat : Z -> str)
    (env : config) (w : world) (script key : str) (rest : list str)
    (f : prog unit) :
  missing_env env = [] ->
  In (key, f) (MODES lower isoformat env) ->
  exec (main lower isoformat env (script :: key :: rest)) w = exec f w.
Proof.
  intros He Hf. unfold exec, main, ensure_env. rewrite He. cbn [bind].
  destruct (Z.of_nat (List.length (script :: key :: rest)) <? 2) eqn:E.
  { apply Z.ltb_lt in E. simpl List.length in E. lia. }
  cbn [nth_error]. now rewrite (modes_get_Some _ _ _ _ _ Hf).
Qed.

Lemma main_dispatch_witness :
  exec (main ascii_lower iso_of_ordinal full_env
          [U "bot.py"; U "13"; U "--verbose"]) wordy_world
  = exec (mode_13_trending_riser ascii_lower full_env) wordy_world.
Proof.
  apply (main_dispatch ascii_lower iso_of_ordinal full_env wordy_world).
  - reflexivity.
  - do 7 right. left. reflexivity.
Defined.

(** ** A failing service *)

Lemma run_bind_today {A} (k : Z -> prog A) (w : world) (g d : nat) :
  run (bind (Today Ret) k) w g d =
  (EvToday (today w) :: fst (run (k (today w)) w g d),
   snd (run (k (today w)) w g d)).
Proof.
  cbn [bind run]. destruct (run (k (today w)) w g d); reflexivity.
Qed.

(** X8: when the first request to the metadata service fails, with whatever
    exception, every mode stops with that exception: it sends no second
    request and posts nothing. *)
Theorem request_failure_propagates (lower : str -> str)
    (isoformat : Z -> str) (env : config) (w : world) (e : exn) (key : str)
    (f : prog unit) :
  (forall url params, http w 0%nat url params = inl e) ->
  In (key, f) (MODES lower isoformat env) ->
  snd (exec f w) = Raised e /\
  filter is_tweet (fst (exec f w)) = [] /\
  List.length (filter is_get (fst (exec f w))) = 1%nat.
Proof.
  intros Hw H. unfold MODES in H. cbn [In] in H. unfold exec.
  repeat (destruct H as [H|H]; [inversion H; subst; clear H|]);
    try contradiction.
  - unfold mode_1_turkey_popular_today.
    rewrite run_bind_tmdb_get, Hw. repeat split.
  - unfold mode_2_world_popular_today.
    rewrite run_bind_tmdb_get, Hw. repeat split.
  - unfold mode_3_new_release_today.
    rewrite run_bind_today. cbv zeta. rewrite run_bind_tmdb_get, Hw.
    repeat split.
  - unfold mode_4_week_top_rated.
    rewrite run_bind_today. cbv zeta. rewrite run_bind_tmdb_get, Hw.
    repeat split.
  - unfold mode_5_random_quality. cbv zeta.
    rewrite run_bind_tmdb_get, Hw. repeat split.
  - unfold mode_8_netflix_tr_popular. cbv zeta.
    rewrite run_bind_tmdb_get, Hw. repeat split.
  - unfold mode_10_box_office_like.
    rewrite run_bind_today. cbv zeta. rewrite run_bind_tmdb_get, Hw.
    repeat split.
  - unfold mode_13_trending_riser.
    rewrite run_bind_tmdb_get, Hw. repeat split.
  - unfold mode_14_best_poster.
    rewrite run_bind_tmdb_get, Hw. repeat split.
  - unfold mode_15_turkish_movies_popular. cbv zeta.
    rewrite run_bind_tmdb_get, Hw. repeat split.
  - unfold mode_16_classic_of_day. cbv zeta.
    rewrite run_bind_tmdb_get, Hw. repeat split.
  - unfold mode_17_hidden_gem. cbv zeta.
    rewrite run_bind_tmdb_get, Hw. repeat split.
Qed.

Lemma request_failure_propagates_witness :
  snd (exec (mode_5_random_quality ascii_lower full_env) down_world)
  = Raised (OtherError (U "ConnectionError")).
Proof.
  apply (request_failure_propagates ascii_lower iso_of_ordinal full_env
           down_world (OtherError (U "ConnectionError")) (U "5")).
  - reflexivity.
  - do 4 right. left. reflexivity.
Defined.

(** ** Items that are not as expected *)

Ltac text_cases H :=
  unfold TEXTS in H; cbn [In] in H;
  repeat (destruct H as [H|H]; [inversion H; subst; clear H|]);
  try contradiction;
  unfold mode_1_text, mode_2_text, mode_3_text, mode_4_text, mode_5_text,
         mode_8_text, mode_10_text, mode_13_text, mode_14_text, mode_15_text,
         mode_16_text, mode_17_text.

(** X9: a chosen item without [title] makes every mode's text fail with
    [KeyError('title')]; one with a title and a usable release date but
    without [id] makes it fail with [KeyError('id')]; in mode 14 an item
    without the [poster_path] member fails with [KeyError('poster_path')]
    before its [id] is looked at. *)
Theorem text_missing_member (key : str) (f : movie -> prog str) (m : movie) :
  In (key, f) TEXTS ->
  (title m = None -> f m = Raise (KeyError (U "title"))) /\
  (forall ttl date,
     title m = Some ttl ->
     get_default (release_date m) [] = Some date ->
     (key = U "14" -> poster_path m <> Absent) ->
     movie_id m = None ->
     f m = Raise (KeyError (U "id"))) /\
  (forall ttl date,
     key = U "14" ->
     title m = Some ttl ->
     get_default (release_date m) [] = Some date ->
     poster_path m = Absent ->
     f m = Raise (KeyError (U "poster_path"))).
Proof.
  intros H. text_cases H;
    (split; [intros Ht; rewrite Ht; reflexivity|]);
    (split;
     [ intros ttl date Ht Hd Hp Hid; rewrite Ht, Hd, ?Hid;
       cbn [bind item slice_opt];
       try (destruct (poster_path m);
            [now contradiction (Hp eq_refl) | |];
            cbn [bind item item_jstr]);
       reflexivity
     | intros ttl date Hk Ht Hd Hp;
       first [ vm_compute in Hk; discriminate Hk
             | rewrite Ht, Hd, Hp; reflexivity ] ]).
Qed.

Lemma text_missing_member_witness :
  mode_8_text untitled_movie = Raise (KeyError (U "title")).
Proof.
  apply (proj1 (text_missing_member (U "8") mode_8_text untitled_movie
                  ltac:(do 5 right; left; reflexivity))).
  reflexivity.
Defined.

(** X10: a chosen item whose [release_date] is [null] (with a title) makes
    the text fail with [TypeError] in every mode but mode 3, which does not
    slice the date and prints the word [None] in its place. *)
Theorem text_null_release_date (key : str) (f : movie -> prog str)
    (m : movie) (ttl : str) :
  In (key, f) TEXTS ->
  title m = Some ttl ->
  release_date m = Null ->
  (key <> U "3" -> f m = Raise TypeError) /\
  (key = U "3" ->
   forall id, movie_id m = Some id ->
   exists text, f m = Ret text /\
                contains (ttl ++ U " (None)") text = true).
Proof.
  intros H Ht Hd. text_cases H; rewrite Ht, Hd; cbn [bind item get_default];
    (split;
     [ intros Hk; first [ reflexivity | exfalso; apply Hk; reflexivity ]
     | intros Hk;
       first [ vm_compute in Hk; discriminate Hk
             | intros id Hid; rewrite Hid; cbn [bind item fmt];
               eexists; split; [reflexivity|];
               change (ttl ++ U " (None)")
                 with (ttl ++ U " (" ++ U "None" ++ U ")");
               apply contains_title_year_star ] ]).
Qed.

Lemma text_null_release_date_witness :
  mode_1_text undated_movie = Raise TypeError.
Proof.
  apply (proj1 (text_null_release_date (U "1") mode_1_text undated_movie
                  (U "Tarihsiz") ltac:(left; reflexivity) eq_refl eq_refl)).
  intros H. vm_compute in H. discriminate H.
Defined.

Example main_untitled_item :
  exists url params answer,
    exec (main ascii_lower iso_of_ordinal full_env [U "bot.py"; U "1"])
         (quiet_world [untitled_movie] 1 (inr (U "ok")))
    = ([EvGet url params answer], Raised (KeyError (U "title"))).
Proof. do 3 eexists. vm_compute. reflexivity. Qed.

(** ** Where a post comes from *)

Lemma sourced_run {A} (ok : list movie -> str -> Prop) (p : prog A)
    (w : world) :
  (forall seen more text, ok seen text -> ok (seen ++ more) text) ->
  forall seen g d text answer,
    sourced ok seen p ->
    In (EvTweet text answer) (fst (run p w g d)) ->
    ok (seen ++ items_of (fst (run p w g d))) text.
Proof.
  intros Hmono.
  induction p as [a|e|url params k IH|n k IH|k IH|line k IH|txt k IH];
    intros seen g d text answer Hp Hin; simpl in *.
  - contradiction.
  - contradiction.
  - specialize (IH (http w g url params) (seen ++ answer_items (http w g url params))
                   (S g) d text answer (Hp _)).
    destruct (run (k (http w g url params)) w (S g) d) as [t o].
    simpl in *. destruct Hin as [Hin|Hin]; [discriminate Hin|].
    rewrite <- app_assoc in IH. unfold items_of. simpl. now apply IH.
  - specialize (IH (entropy w d mod n) seen g (S d) text answer (Hp _)).
    destruct (run (k (entropy w d mod n)) w g (S d)) as [t o].
    simpl in *. destruct Hin as [Hin|Hin]; [discriminate Hin|].
    now apply IH.
  - specialize (IH (today w) seen g d text answer (Hp _)).
    destruct (run (k (today w)) w g d) as [t o].
    simpl in *. destruct Hin as [Hin|Hin]; [discriminate Hin|].
    now apply IH.
  - specialize (IH seen g d text answer Hp).
    destruct (run k w g d) as [t o].
    simpl in *. destruct Hin as [Hin|Hin]; [discriminate Hin|].
    now apply IH.
  - destruct Hp as [Hok Hk].
    specialize (IH (twitter w txt) seen g d text answer (Hk _)).
    destruct (run (k (twitter w txt)) w g d) as [t o].
    simpl in *. destruct Hin as [Hin|Hin].
    + inversion Hin; subst. now apply Hmono.
    + now apply IH.
Qed.

Lemma sourced_bind_quiet {A B} (ok : list movie -> str -> Prop)
    (seen : list movie) (p : prog A) (k : A -> prog B) :
  always (fun c => match c with
                   | CGet _ _ | CTweet _ => False
                   | _ => True
                   end) p ->
  (forall a, sourced ok seen (k a)) -> sourced ok seen (bind p k).
Proof.
  intros Hp Hk.
  induction p as [a|e|url params k' IH|n k' IH|k' IH|line k' IH|txt k' IH];
    simpl in *; auto.
  - destruct Hp as [[] _].
  - destruct Hp as [_ H2]. intros v. apply IH, H2.
  - destruct Hp as [_ H2]. intros v. apply IH, H2.
  - destruct Hp as [_ H2]. apply IH, H2.
  - destruct Hp as [[] _].
Qed.

Lemma sourced_bind_get {A} (ok : list movie -> str -> Prop)
    (seen : list movie) (env : config) (path : str) (params : dict)
    (k : reply -> prog A) :
  (forall data, sourced ok (seen ++ results_of data) (k data)) ->
  sourced ok seen (bind (tmdb_get env path params) k).
Proof.
  intros Hk. unfold tmdb_get. simpl. intros [e|data]; simpl; [exact I|].
  apply Hk.
Qed.

Lemma sourced_bind_choice {A B} (ok : list movie -> str -> Prop)
    (seen : list movie) (seq : list A) (k : A -> prog B) :
  (forall a, In a seq -> sourced ok seen (k a)) ->
  sourced ok seen (bind (choice seq) k).
Proof.
  intros Hk. destruct seq as [|x seq]; [exact I|].
  unfold choice. simpl. intros v.
  destruct (nth_error (x :: seq) (Z.to_nat v)) as [a|] eqn:E; simpl;
    [|exact I].
  apply Hk. eapply nth_error_In. exact E.
Qed.

Lemma sourced_if_not_movie {A} (ok : list movie -> str -> Prop)
    (seen : list movie) (picked : option movie) (absent : prog A)
    (present : movie -> prog A) :
  sourced ok seen absent ->
  (forall m, picked = Some m -> sourced ok seen (present m)) ->
  sourced ok seen (if_not_movie picked absent present).
Proof.
  intros Ha Hp. unfold if_not_movie.
  destruct picked as [m|]; [destruct (dict_is_empty m)|]; auto.
Qed.

Lemma sourced_tweet (ok : list movie -> str -> Prop) (seen : list movie)
    (lower : str -> str) (text : str) :
  ok seen (tweet_clip text) -> sourced ok seen (tweet lower text).
Proof.
  intros Hok. unfold tweet. simpl. split; [exact Hok|].
  intros [e|r]; simpl; [|exact I].
  destruct e; simpl; try exact I.
  destruct (contains (U "duplicate") (lower msg)); simpl; exact I.
Qed.

(** A message text is a value or an exception: it calls nothing. *)
Lemma text_result (key : str) (f : movie -> prog str) (m : movie) :
  In (key, f) TEXTS ->
  (exists t, f m = Ret t) \/ (exists e, f m = Raise e).
Proof.
  intros H. text_cases H;
    destruct (title m); cbn [bind item]; eauto;
    destruct (get_default (release_date m) []); cbn [bind slice_opt]; eauto;
    try (destruct (poster_path m); cbn [bind item_jstr]; eauto);
    destruct (movie_id m); cbn [bind item]; eauto.
Qed.

Lemma sourced_post (key : str) (f : movie -> prog str) (m : movie)
    (seen : list movie) (lower : str -> str) :
  In (key, f) TEXTS -> In m seen ->
  sourced (rendering key) seen (bind (f m) (fun text => tweet lower text)).
Proof.
  intros Hf Hm. destruct (text_result key f m Hf) as [[t E]|[e E]];
    rewrite E; cbn [bind]; [|exact I].
  apply sourced_tweet. exists f, m, t. auto.
Qed.

Lemma pick_best_result_In (results : list movie) (thr : Z) (m : movie) :
  pick_best_result results thr = Some m -> In m results.
Proof.
  rewrite pick_best_result_first_max. intros H.
  apply first_max_In in H. now apply filtered_incl in H.
Qed.

Lemma In_or_list {A} (a b : list A) (x : A) :
  In x (or_list a b) -> In x a \/ In x b.
Proof. destruct a; simpl; auto. Qed.

Lemma sourced_print (ok : list movie -> str -> Prop) (seen : list movie)
    (line : str) :
  sourced ok seen (print line).
Proof. exact I. Qed.

Ltac quiet_tac :=
  repeat first
    [ exact I
    | apply always_item
    | apply always_item_jstr
    | apply always_slice_opt
    | apply always_print; intros; exact I
    | apply always_today; exact I
    | apply always_random_page; intros; exact I
    | apply always_choice; intros; exact I
    | apply always_bind; [|intros ?]
    | progress cbv zeta ].

Ltac member :=
  repeat match goal with
         | H : pick_best_result _ _ = Some _ |- _ =>
           apply pick_best_result_In in H
         | H : In _ (filter _ _) |- _ =>
           apply filter_In in H; destruct H as [H _]
         | H : In _ (or_list _ _) |- _ =>
           apply In_or_list in H; destruct H as [H|H]
         | H : In _ [] |- _ => contradiction H
         | E : _ = ?x :: ?l, H : In _ (?x :: ?l) |- _ => rewrite <- E in H
         end;
  rewrite ?in_app_iff; tauto.

Ltac sourced_step in_texts :=
  first
    [ exact I
    | apply sourced_print
    | apply sourced_bind_get; intros ?
    | eapply sourced_post; [in_texts | solve [member]]
    | apply sourced_bind_choice; intros ? ?
    | apply sourced_if_not_movie; [|intros ? ?]
    | apply sourced_bind_quiet; [solve [quiet_tac] | intros ?]
    | progress cbv zeta
    | match goal with
      | |- sourced _ _ (match ?l with [] => _ | _ :: _ => _ end) =>
        destruct l eqn:?
      end ].

Lemma sourced_modes (lower : str -> str) (isoformat : Z -> str)
    (env : config) (key : str) (f : prog unit) :
  In (key, f) (MODES lower isoformat env) -> sourced (rendering key) [] f.
Proof.
  intros H. unfold MODES in H. cbn [In] in H.
  repeat (destruct H as [H|H]; [inversion H; subst; clear H|]);
    try contradiction.
  - unfold mode_1_turkey_popular_today.
    repeat sourced_step ltac:(left; reflexivity).
  - unfold mode_2_world_popular_today.
    repeat sourced_step ltac:(do 1 right; left; reflexivity).
  - unfold mode_3_new_release_today.
    repeat sourced_step ltac:(do 2 right; left; reflexivity).
  - unfold mode_4_week_top_rated.
    repeat sourced_step ltac:(do 3 right; left; reflexivity).
  - unfold mode_5_random_quality.
    repeat sourced_step ltac:(do 4 right; left; reflexivity).
  - unfold mode_8_netflix_tr_popular.
    repeat sourced_step ltac:(do 5 right; left; reflexivity).
  - unfold mode_10_box_office_like.
    repeat sourced_step ltac:(do 6 right; left; reflexivity).
  - unfold mode_13_trending_riser.
    repeat sourced_step ltac:(do 7 right; left; reflexivity).
  - unfold mode_14_best_poster.
    repeat sourced_step ltac:(do 8 right; left; reflexivity).
  - unfold mode_15_turkish_movies_popular.
    repeat sourced_step ltac:(do 9 right; left; reflexivity).
  - unfold mode_16_classic_of_day.
    repeat sourced_step ltac:(do 10 right; left; reflexivity).
  - unfold mode_17_hidden_gem, mode_17_draw.
    repeat sourced_step ltac:(do 11 right; left; reflexivity).
Qed.

Lemma modes_get_In_key (table : list (str * prog unit)) (key : str)
    (f : prog unit) :
  modes_get table key = Some f -> In (key, f) table.
Proof.
  induction table as [|[k g] table IH]; simpl; intros H; [discriminate|].
  destruct (str_eqb k key) eqn:E.
  - apply str_eqb_eq in E. inversion H; subst. now left.
  - right. now apply IH.
Qed.

Lemma rendering_mono (key : str) (seen more : list movie) (text : str) :
  rendering key seen text -> rendering key (seen ++ more) text.
Proof.
  intros (f & m & t & Hf & Hm & E & Ht). exists f, m, t.
  repeat split; auto. apply in_or_app. now left.
Qed.

(** X11: every text the bot hands to the publishing platform is the text
    that the mode named on the command line renders for an item which the
    metadata service returned during that run, clipped to the ceiling. *)
Theorem posts_come_from_service (lower : str -> str) (isoformat : Z -> str)
    (env : config) (argv : list str) (w : world) (text : str)
    (answer : exn + str) :
  In (EvTweet text answer) (fst (exec (main lower isoformat env argv) w)) ->
  exists key,
    nth_error argv 1 = Some key /\
    rendering key (items_of (fst (exec (main lower isoformat env argv) w)))
              text.
Proof.
  unfold exec, main, ensure_env.
  destruct (missing_env env); [|intros []].
  cbn [bind].
  destruct (Z.of_nat (List.length argv) <? 2); [intros []|].
  destruct (nth_error argv 1) as [key|]; [|intros []].
  destruct (modes_get (MODES lower isoformat env) key) as [f|] eqn:E;
    [|intros []].
  intros Hin. exists key. split; [reflexivity|].
  apply modes_get_In_key in E.
  apply (sourced_run (rendering key) f w (rendering_mono key)
           [] 0%nat 0%nat text answer); [|exact Hin].
  exact (sourced_modes lower isoformat env key f E).
Qed.

Lemma posts_come_from_service_witness :
  let t := fst (exec (main ascii_lower iso_of_ordinal full_env
                        [U "bot.py"; U "5"]) wordy_world) in
  posted t <> [] /\
  exists key, nth_error [U "bot.py"; U "5"] 1 = Some key /\
              rendering key (items_of t) (hd [] (posted t)).
Proof.
  intros t. split; [vm_compute; discriminate|].
  apply (posts_come_from_service ascii_lower iso_of_ordinal full_env
           [U "bot.py"; U "5"] wordy_world _ (inr (U "ok"))).
  vm_compute. do 4 right. left. reflexivity.
Defined.

Lemma contains_skip (sub p s : str) :
  contains sub s = true -> contains sub (p ++ s) = true.
Proof.
  intros H. induction p as [|c p IH]; [exact H|].
  simpl. rewrite IH. apply orb_true_r.
Qed.

Lemma contains_here (x y post : str) :
  contains (x ++ y) (x ++ y ++ post) = true.
Proof.
  rewrite app_assoc. apply (contains_app (x ++ y) [] post).
Qed.

Lemma Ret_inj {A} (a b : A) : @Ret A a = Ret b -> a = b.
Proof. intros H. now inversion H. Qed.

Lemma poster_rendering_mono (seen more : list movie) (text : str) :
  poster_rendering seen text -> poster_rendering (seen ++ more) text.
Proof.
  intros (m & path & t & Hm & H). exists m, path, t.
  split; [apply in_or_app; now left | exact H].
Qed.

Lemma sourced_poster_post (m : movie) (seen : list movie)
    (lower : str -> str) :
  In m seen -> has_poster m = true ->
  sourced poster_rendering seen
    (bind (mode_14_text m) (fun text => tweet lower text)).
Proof.
  intros Hm Hp. unfold has_poster in Hp.
  destruct (poster_path m) as [| |path] eqn:Ep; try discriminate Hp.
  destruct path as [|c path]; [discriminate Hp|].
  destruct (text_result (U "14") mode_14_text m
              ltac:(do 8 right; left; reflexivity)) as [[t E]|[e E]];
    rewrite E; cbn [bind]; [|exact I].
  apply sourced_tweet. exists m, (c :: path), t.
  repeat split; auto; [discriminate|].
  unfold mode_14_text in E. rewrite Ep in E.
  destruct (title m); cbn [bind item] in E; [|discriminate E].
  destruct (get_default (release_date m) []); cbn [bind slice_opt] in E;
    [|discriminate E].
  cbn [bind item_jstr] in E.
  destruct (movie_id m); cbn [bind item] in E; [|discriminate E].
  apply Ret_inj in E. subst t.
  change (fmt (build_poster_url (Some (c :: path))))
    with (TMDB_IMAGE_BASE ++ c :: path).
  repeat first [ apply contains_here | apply contains_skip ].
Qed.

(** X12: mode 14 only ever posts an item of the answer that has a poster:
    the text posted is the clipped mode-14 text of such an item, and that
    text holds the image URL made of the image base and the poster path. *)
Theorem mode_14_posts_poster (lower : str -> str) (env : config) (w : world)
    (text : str) (answer : exn + str) :
  In (EvTweet text answer) (fst (exec (mode_14_best_poster lower env) w)) ->
  poster_rendering (items_of (fst (exec (mode_14_best_poster lower env) w)))
                   text.
Proof.
  intros Hin.
  apply (sourced_run poster_rendering (mode_14_best_poster lower env) w
           poster_rendering_mono [] 0%nat 0%nat text answer); [|exact Hin].
  unfold mode_14_best_poster.
  apply sourced_bind_get. intros data. cbv zeta.
  destruct (filter has_poster (results_of data)) as [|x l] eqn:E;
    [exact I|].
  apply sourced_bind_choice. intros m Hm.
  rewrite <- E in Hm. apply filter_In in Hm as [Hm Hp].
  apply sourced_poster_post; [|exact Hp].
  apply in_or_app. now right.
Qed.

Lemma mode_14_posts_poster_witness :
  let t := fst (exec (mode_14_best_poster ascii_lower full_env) poster_world) in
  posted t <> [] /\ poster_rendering (items_of t) (hd [] (posted t)).
Proof.
  intros t. split; [vm_compute; discriminate|].
  apply (mode_14_posts_poster ascii_lower full_env poster_world _
           (inr (U "ok"))).
  vm_compute. do 2 right. left. reflexivity.
Defined.

(** ** The request for the random page *)

Lemma draw_inv (u0 u0' u1 u1' : str) (p0 p0' p1 p1' : dict)
    (a0 a0' a1 a1' : exn + reply) (n n' v v' : Z) (rest rest' : list event) :
  EvGet u0 p0 a0 :: EvRandom n v :: EvGet u1 p1 a1 :: rest =
  EvGet u0' p0' a0' :: EvRandom n' v' :: EvGet u1' p1' a1' :: rest' ->
  u0 = u0' /\ p0 = p0' /\ v = v' /\ u1 = u1' /\ p1 = p1'.
Proof. intros H. inversion H. repeat split; reflexivity. Qed.

Lemma relaxed_inv (u0 u0' u1 u1' u2 u2' : str) (p0 p0' p1 p1' p2 p2' : dict)
    (a0 a0' a1 a1' a2 a2' : exn + reply) (l l' : str) (n n' v v' : Z)
    (rest rest' : list event) :
  EvGet u0 p0 a0 :: EvPrint l :: EvGet u1 p1 a1 :: EvRandom n v
    :: EvGet u2 p2 a2 :: rest =
  EvGet u0' p0' a0' :: EvPrint l' :: EvGet u1' p1' a1' :: EvRandom n' v'
    :: EvGet u2' p2' a2' :: rest' ->
  p0 = p0' /\ u1 = u1' /\ p1 = p1' /\ v = v' /\ u2 = u2' /\ p2 = p2'.
Proof. intros H. inversion H. repeat split; reflexivity. Qed.

Ltac answer_of H :=
  rewrite run_bind_tmdb_get in H;
  match type of H with
  | context [http ?w ?g ?u ?p] => destruct (http w g u p)
  end;
  cbn [fst] in H; [discriminate H|].

Ltac page_asked :=
  unfold asks_page; split; [reflexivity|];
  split; [intros k x Hk; cbn in Hk |- *; tauto|];
  split; [cbn; tauto | reflexivity].

(** X13: in the random modes the request that follows the page draw asks
    for the page drawn of the very query that produced the page count: same
    address and parameters, plus [page].  In mode 17 this holds after the
    narrow search and after the relaxed one; the page request after the
    relaxed search carries the relaxed vote bound and no upper vote bound. *)
Theorem page_request_same_query (lower : str -> str) (env : config)
    (w : world) :
  (forall f u0 p0 a0 n v u1 p1 a1 rest,
     f = mode_5_random_quality lower env \/
     f = mode_16_classic_of_day lower env \/
     f = mode_17_hidden_gem lower env ->
     fst (exec f w) =
     EvGet u0 p0 a0 :: EvRandom n v :: EvGet u1 p1 a1 :: rest ->
     asks_page u0 p0 (1 + v) u1 p1) /\
  (forall u0 p0 a0 line u1 p1 a1 n v u2 p2 a2 rest,
     fst (exec (mode_17_hidden_gem lower env) w) =
     EvGet u0 p0 a0 :: EvPrint line :: EvGet u1 p1 a1 :: EvRandom n v
       :: EvGet u2 p2 a2 :: rest ->
     asks_page u1 p1 (1 + v) u2 p2 /\
     In ("vote_count.lte", PInt 2000) p0 /\
     In ("vote_count.gte", PInt 50) p2 /\
     forall x, ~ In ("vote_count.lte", x) p2).
Proof.
  split.
  - intros f u0 p0 a0 n v u1 p1 a1 rest [ -> | [ -> | -> ] ] H; unfold exec in H.
    + unfold mode_5_random_quality in H. cbv zeta in H. answer_of H.
      rewrite run_bind_random_page in H. cbn [fst] in H.
      rewrite run_bind_tmdb_get in H.
      destruct (http w 1%nat _ _); cbn [fst] in H;
        apply draw_inv in H as (<- & <- & <- & <- & <-); page_asked.
    + unfold mode_16_classic_of_day in H. cbv zeta in H. answer_of H.
      rewrite run_bind_random_page in H. cbn [fst] in H.
      rewrite run_bind_tmdb_get in H.
      destruct (http w 1%nat _ _); cbn [fst] in H;
        apply draw_inv in H as (<- & <- & <- & <- & <-); page_asked.
    + unfold mode_17_hidden_gem in H. cbv zeta in H. answer_of H.
      unfold or_list at 1 in H.
      destruct (results_of r) as [|m l].
      * rewrite run_bind_print in H. cbn [fst] in H. discriminate H.
      * unfold mode_17_draw in H. cbv zeta in H.
        rewrite run_bind_random_page in H. cbn [fst] in H.
        rewrite run_bind_tmdb_get in H.
        destruct (http w 1%nat _ _); cbn [fst] in H;
          apply draw_inv in H as (<- & <- & <- & <- & <-); page_asked.
  - intros u0 p0 a0 line u1 p1 a1 n v u2 p2 a2 rest H. unfold exec in H.
    unfold mode_17_hidden_gem in H. cbv zeta in H. answer_of H.
    unfold or_list at 1 in H.
    destruct (results_of r) as [|m l].
    + rewrite run_bind_print in H. cbn [fst] in H.
      rewrite run_bind_tmdb_get in H.
      destruct (http w 1%nat _ _) as [e|r']; cbn [fst] in H;
        [discriminate H|].
      unfold or_list at 1 in H.
      destruct (results_of r') as [|m' l'].
      * cbn [run print fst] in H. discriminate H.
      * unfold mode_17_draw in H. cbv zeta in H.
        rewrite run_bind_random_page in H. cbn [fst] in H.
        rewrite run_bind_tmdb_get in H.
        destruct (http w 2%nat _ _); cbn [fst] in H;
          apply relaxed_inv in H as (<- & <- & <- & <- & <- & <-);
          (split; [page_asked|]);
          (split; [cbn; tauto|]);
          (split; [cbn; tauto|]);
          intros x Hx; cbn in Hx;
          repeat (destruct Hx as [Hx|Hx]; [discriminate Hx|]); exact Hx.
    + unfold mode_17_draw in H. cbv zeta in H.
      rewrite run_bind_random_page in H. cbn [fst] in H. discriminate H.
Qed.

Lemma page_request_same_query_witness :
  exists p0 u1 p1 v u2 p2,
    asks_page u1 p1 (1 + v) u2 p2 /\
    In ("vote_count.lte", PInt 2000) p0 /\
    In ("vote_count.gte", PInt 50) p2 /\
    forall x, ~ In ("vote_count.lte", x) p2.
Proof.
  do 6 eexists.
  eapply (proj2 (page_request_same_query ascii_lower full_env relaxing_world)).
  reflexivity.
Defined.

(** ** More on the text helpers *)

Lemma len_shorten (text : option str) (budget : Z) :
  1 <= budget -> len (shorten text budget) <= budget.
Proof.
  intros Hb. destruct text as [t|]; [|unfold len; simpl; lia].
  destruct (Z_le_gt_dec (len t) budget) as [Hs|Hl].
  - now rewrite shorten_short.
  - rewrite shorten_long by lia. rewrite len_app.
    set (n := Z.to_nat (budget - 1)).
    assert (Hn : (List.length (firstn n t) <= n)%nat)
      by (rewrite length_firstn; lia).
    change (len [ellipsis]) with 1.
    destruct (rsplit1_head (firstn n t)) as [(a & b & E & _ & ->)|[_ ->]].
    + rewrite E, length_app in Hn. unfold len. simpl in Hn. lia.
    + unfold len. lia.
Qed.

(** X15: for every budget of at least 1, [shorten] gives at most [budget]
    characters, and shortening its result again with the same budget changes
    nothing. *)
Theorem shorten_idempotent (text : option str) (budget : Z) :
  1 <= budget ->
  len (shorten text budget) <= budget /\
  shorten (Some (shorten text budget)) budget = shorten text budget.
Proof.
  intros Hb. split; [now apply len_shorten|].
  apply shorten_short. now apply len_shorten.
Qed.

Lemma shorten_idempotent_witness :
  shorten (Some (shorten (Some two_lines) 150)) 150
  = shorten (Some two_lines) 150.
Proof.
  apply (proj2 (shorten_idempotent (Some two_lines) 150 ltac:(lia))).
Defined.

(** With a budget of 0 the result is longer than the budget. *)
Example shorten_budget_zero : shorten (Some (U "ab")) 0 = U "a…".
Proof. reflexivity. Qed.

(** X16: the clip of [tweet] only drops the end of a text: the first 267
    characters sent are the first 267 characters of the text, and a clipped
    text is not clipped further. *)
Theorem tweet_clip_keeps_head (text : str) :
  firstn 267 (tweet_clip text) = firstn 267 text /\
  tweet_clip (tweet_clip text) = tweet_clip text.
Proof.
  split.
  - unfold tweet_clip, max_len.
    destruct (len text >? 270) eqn:E; [|reflexivity].
    rewrite Z.gtb_ltb in E. apply Z.ltb_lt in E.
    rewrite slice_to_nonneg by lia.
    change (Z.to_nat (270 - 3)) with 267%nat.
    rewrite firstn_app, firstn_firstn, Nat.min_id.
    rewrite length_firstn.
    replace (267 - Nat.min 267 (List.length text))%nat with 0%nat
      by (unfold len in E; lia).
    simpl firstn at 2. apply app_nil_r.
  - pose proof (len_tweet_clip text) as H.
    unfold tweet_clip at 1. unfold max_len.
    destruct (len (tweet_clip text) >? 270) eqn:E; [|reflexivity].
    rewrite Z.gtb_ltb in E. apply Z.ltb_lt in E. lia.
Qed.

(** ** More on the configuration check *)

(** X17: as soon as one of the five platform variables is unset, the
    error of [main] names all five of them, those that are set included; it
    names [TMDB_API_KEY] exactly when that one is unset.  When only
    [TMDB_API_KEY] is unset the message names it alone. *)
Theorem ensure_env_message (lower : str -> str) (isoformat : Z -> str)
    (env : config) (argv : list str) (w : world) :
  (forallb truthy (platform_values env) = false ->
   exists msg,
     exec (main lower isoformat env argv) w = ([], Raised (RuntimeError msg)) /\
     forallb (fun name => contains name msg) platform_names = true /\
     contains (U "TMDB_API_KEY") msg = negb (truthy (TMDB_API_KEY env))) /\
  (forallb truthy (platform_values env) = true ->
   truthy (TMDB_API_KEY env) = false ->
   exec (main lower isoformat env argv) w =
   ([], Raised (RuntimeError
                  (U "Eksik environment değişkenleri: TMDB_API_KEY")))).
Proof.
  unfold exec, main, ensure_env, missing_env, platform_values.
  cbn [forallb].
  destruct (truthy (TMDB_API_KEY env)),
           (truthy (X_BEARER_TOKEN env)),
           (truthy (X_API_KEY env)),
           (truthy (X_API_SECRET env)),
           (truthy (X_ACCESS_TOKEN env)),
           (truthy (X_ACCESS_SECRET env));
    cbn [negb andb app];
    (split;
     [ intros H;
       first [ discriminate H
             | eexists; split; [reflexivity|]; vm_compute; split; reflexivity ]
     | intros H1 H2;
       first [ discriminate H1 | discriminate H2 | vm_compute; reflexivity ] ]).
Qed.

Lemma ensure_env_message_witness :
  exists msg,
    exec (main ascii_lower iso_of_ordinal partial_env [U "bot.py"; U "1"])
         wordy_world
    = ([], Raised (RuntimeError msg)) /\
    forallb (fun name => contains name msg) platform_names = true /\
    contains (U "TMDB_API_KEY") msg
    = negb (truthy (TMDB_API_KEY partial_env)).
Proof.
  apply (proj1 (ensure_env_message ascii_lower iso_of_ordinal partial_env
                  [U "bot.py"; U "1"] wordy_world)).
  reflexivity.
Defined.

(** ** More on the selection *)

(** X18: when some item of the list has a poster reference that is a
    non-empty string, the item chosen has one, whatever the threshold and
    whatever the ratings and numbers of votes of the items without. *)
Theorem pick_best_result_prefers_poster (results : list movie) (thr : Z)
    (a : movie) (pa : str) :
  In a results -> poster_path a = Str pa -> pa <> [] ->
  exists r pr,
    pick_best_result results thr = Some r /\ In r results /\
    poster_path r = Str pr /\ pr <> [].
Proof.
  intros Ha Hp Hne.
  assert (Hs : In a (poster_stage results)).
  { apply filter_In. split; [exact Ha|]. apply with_poster_spec.
    now exists pa. }
  assert (Hf : forall r, In r (surviving results thr) ->
                         In r results /\ with_poster r = true).
  { unfold surviving.
    destruct (strict_stage results thr) as [|x l] eqn:E.
    - destruct (poster_stage results) as [|y l'] eqn:E2;
        [contradiction Hs|].
      rewrite <- E2. intros r Hr. now apply filter_In in Hr.
    - rewrite <- E. intros r Hr. apply filter_In in Hr as [Hin Hr].
      apply andb_true_iff in Hr. tauto. }
  destruct (pick_best_result_surviving results thr) as (r & E & Hr).
  - rewrite <- filtered_surviving, filtered_nil. intros ->. contradiction Ha.
  - destruct (Hf r Hr) as [Hin Hw].
    apply with_poster_spec in Hw as (pr & Hw & Hw').
    exists r, pr. auto.
Qed.

Lemma pick_best_result_prefers_poster_witness :
  exists r pr,
    pick_best_result [bare_movie; modest_movie] 50 = Some r /\
    In r [bare_movie; modest_movie] /\
    poster_path r = Str pr /\ pr <> [].
Proof.
  apply (pick_best_result_prefers_poster [bare_movie; modest_movie] 50
           modest_movie (U "/m.jpg")).
  - right. left. reflexivity.
  - reflexivity.
  - vm_compute. discriminate.
Defined.

(** ** A rejected post *)

Lemma returns_run {A} (p : prog A) (w : world) :
  returns p -> forall g d, exists a, snd (run p w g d) = Returned a.
Proof.
  induction p as [a|e|url params k IH|n k IH|k IH|line k IH|txt k IH];
    intros Hp g d; simpl in *.
  - now exists a.
  - contradiction.
  - destruct (IH _ (Hp (http w g url params)) (S g) d) as [a Ha].
    destruct (run (k (http w g url params)) w (S g) d). now exists a.
  - destruct (IH _ (Hp (entropy w d mod n)) g (S d)) as [a Ha].
    destruct (run (k (entropy w d mod n)) w g (S d)). now exists a.
  - destruct (IH _ (Hp (today w)) g d) as [a Ha].
    destruct (run (k (today w)) w g d). now exists a.
  - destruct (IH Hp g d) as [a Ha].
    destruct (run k w g d). now exists a.
  - destruct (IH _ (Hp (twitter w txt)) g d) as [a Ha].
    destruct (run (k (twitter w txt)) w g d). now exists a.
Qed.

Lemma forgiving_run {A} (p : prog A) (w : world) :
  forgiving p ->
  forall g d text msg,
    In (EvTweet text (inl (Forbidden msg))) (fst (run p w g d)) ->
    exists a, snd (run p w g d) = Returned a.
Proof.
  induction p as [a|e|url params k IH|n k IH|k IH|line k IH|txt k IH];
    intros Hp g d text msg Hin; simpl in *.
  - contradiction.
  - contradiction.
  - specialize (IH _ (Hp (http w g url params)) (S g) d text msg).
    destruct (run (k (http w g url params)) w (S g) d). simpl in *.
    destruct Hin as [Hin|Hin]; [discriminate Hin | now apply IH].
  - specialize (IH _ (Hp (entropy w d mod n)) g (S d) text msg).
    destruct (run (k (entropy w d mod n)) w g (S d)). simpl in *.
    destruct Hin as [Hin|Hin]; [discriminate Hin | now apply IH].
  - specialize (IH _ (Hp (today w)) g d text msg).
    destruct (run (k (today w)) w g d). simpl in *.
    destruct Hin as [Hin|Hin]; [discriminate Hin | now apply IH].
  - specialize (IH Hp g d text msg).
    destruct (run k w g d). simpl in *.
    destruct Hin as [Hin|Hin]; [discriminate Hin | now apply IH].
  - destruct Hp as [Hf Hk].
    remember (twitter w txt) as r eqn:Er.
    specialize (IH r (Hk r) g d text msg).
    destruct (run (k r) w g d) as [t o] eqn:E. simpl in *.
    destruct Hin as [Hin|Hin]; [|now apply IH].
    assert (Hr : r = inl (Forbidden msg)) by (now inversion Hin).
    assert (Hret : returns (k r)) by (rewrite Hr; apply Hf).
    destruct (returns_run _ w Hret g d) as [a Ha].
    rewrite E in Ha. now exists a.
Qed.

Lemma forgiving_bind_quiet {A B} (p : prog A) (k : A -> prog B) :
  always (fun c => match c with CTweet _ => False | _ => True end) p ->
  (forall a, forgiving (k a)) -> forgiving (bind p k).
Proof.
  intros Hp Hk.
  induction p as [a|e|url params k' IH|n k' IH|k' IH|line k' IH|txt k' IH];
    simpl in *; auto.
  - destruct Hp as [_ H2]. intros r. apply IH, H2.
  - destruct Hp as [_ H2]. intros r. apply IH, H2.
  - destruct Hp as [_ H2]. intros r. apply IH, H2.
  - destruct Hp as [_ H2]. apply IH, H2.
  - destruct Hp as [[] _].
Qed.

Lemma forgiving_quiet {A} (p : prog A) :
  always (fun c => match c with CTweet _ => False | _ => True end) p ->
  forgiving p.
Proof.
  induction p as [a|e|url params k' IH|n k' IH|k' IH|line k' IH|txt k' IH];
    simpl in *; auto.
  - intros [_ H2] r. apply IH, H2.
  - intros [_ H2] r. apply IH, H2.
  - intros [_ H2] r. apply IH, H2.
  - intros [_ H2]. apply IH, H2.
  - intros [[] _].
Qed.

Lemma forgiving_tweet (lower : str -> str) (text : str) :
  forgiving (tweet lower text).
Proof.
  unfold tweet. simpl. split.
  - intros msg. simpl. destruct (contains (U "duplicate") (lower msg));
      simpl; exact I.
  - intros [e|r]; simpl; [|exact I].
    destruct e; simpl; try exact I.
    destruct (contains (U "duplicate") (lower msg)); simpl; exact I.
Qed.

Lemma forgiving_if_not_movie {A} (picked : option movie) (absent : prog A)
    (present : movie -> prog A) :
  forgiving absent -> (forall m, forgiving (present m)) ->
  forgiving (if_not_movie picked absent present).
Proof.
  intros Ha Hp. unfold if_not_movie.
  destruct picked as [m|]; [destruct (dict_is_empty m)|]; auto.
Qed.

Ltac no_tweet_tac :=
  repeat first
    [ exact I
    | apply always_item
    | apply always_item_jstr
    | apply always_slice_opt
    | apply always_print; intros; exact I
    | apply always_today; exact I
    | apply always_random_page; intros; exact I
    | apply always_choice; intros; exact I
    | apply always_tmdb_get; intros; exact I
    | apply always_bind; [|intros ?]
    | progress cbv zeta ].

Ltac forgiving_step :=
  first
    [ exact I
    | apply forgiving_tweet
    | apply forgiving_bind_quiet; [solve [no_tweet_tac] | intros ?]
    | apply forgiving_if_not_movie; [|intros ?]
    | apply forgiving_quiet; solve [no_tweet_tac]
    | progress cbv zeta
    | match goal with
      | |- forgiving (match ?l with [] => _ | _ :: _ => _ end) => destruct l
      end ].

Lemma forgiving_modes (lower : str -> str) (isoformat : Z -> str)
    (env : config) (key : str) (f : prog unit) :
  In (key, f) (MODES lower isoformat env) -> forgiving f.
Proof.
  intros H. unfold MODES in H. cbn [In] in H.
  repeat (destruct H as [H|H]; [inversion H; subst; clear H|]);
    try contradiction.
  - unfold mode_1_turkey_popular_today. repeat forgiving_step.
  - unfold mode_2_world_popular_today. repeat forgiving_step.
  - unfold mode_3_new_release_today. repeat forgiving_step.
  - unfold mode_4_week_top_rated. repeat forgiving_step.
  - unfold mode_5_random_quality. repeat forgiving_step.
  - unfold mode_8_netflix_tr_popular. repeat forgiving_step.
  - unfold mode_10_box_office_like. repeat forgiving_step.
  - unfold mode_13_trending_riser. repeat forgiving_step.
  - unfold mode_14_best_poster. repeat forgiving_step.
  - unfold mode_15_turkish_movies_popular. repeat forgiving_step.
  - unfold mode_16_classic_of_day. repeat forgiving_step.
  - unfold mode_17_hidden_gem, mode_17_draw. repeat forgiving_step.
Qed.

(** X14: a post that the platform rejects with [Forbidden], as a duplicate
    or otherwise, never makes the run fail: the run of [main] in which it
    happens returns normally. *)
Theorem forbidden_ends_normally (lower : str -> str) (isoformat : Z -> str)
    (env : config) (argv : list str) (w : world) (text msg : str) :
  In (EvTweet text (inl (Forbidden msg)))
     (fst (exec (main lower isoformat env argv) w)) ->
  snd (exec (main lower isoformat env argv) w) = Returned tt.
Proof.
  intros Hin.
  assert (Hf : forgiving (main lower isoformat env argv)).
  { unfold main, ensure_env.
    destruct (missing_env env); [|exact I].
    cbn [bind].
    destruct (Z.of_nat (List.length argv) <? 2); [exact I|].
    destruct (nth_error argv 1) as [key|]; [|exact I].
    destruct (modes_get (MODES lower isoformat env) key) as [f|] eqn:E;
      [|exact I].
    apply modes_get_In_key in E.
    exact (forgiving_modes lower isoformat env key f E). }
  destruct (forgiving_run _ w Hf 0%nat 0%nat text msg Hin) as [[] Ha].
  exact Ha.
Qed.

Lemma forbidden_ends_normally_witness :
  snd (exec (main ascii_lower iso_of_ordinal full_env [U "bot.py"; U "2"])
            duplicate_world) = Returned tt.
Proof.
  apply (forbidden_ends_normally ascii_lower iso_of_ordinal full_env
           [U "bot.py"; U "2"] duplicate_world
           (hd [] (posted (fst (exec (main ascii_lower iso_of_ordinal full_env
                                        [U "bot.py"; U "2"])
                                     duplicate_world))))
           (U "403 Forbidden: duplicate content")).
  vm_compute. right. left. reflexivity.
Defined.

(** ** Fallback searches *)

Lemma today_answer_inv (d d' : Z) (u u' : str) (p p' : dict) (r r' : reply)
    (t t' : list event) :
  EvToday d :: EvGet u p (inr r) :: t = EvToday d' :: EvGet u' p' (inr r') :: t' ->
  r = r' /\ t = t'.
Proof. intros H. inversion H. split; reflexivity. Qed.

Lemma no_get_after (p : prog unit) (w : world) (g d : nat) :
  bounded get_cost p 0 -> filter is_get (fst (run p w g d)) = [].
Proof.
  intros H. pose proof (bounded_run get_cost p w 0 H g d) as Hn.
  rewrite total_get_cost in Hn.
  destruct (filter is_get (fst (run p w g d))); [reflexivity|].
  simpl in Hn. lia.
Qed.

(** X19: the fallback searches are sent exactly when the first search
    yields nothing.  Mode 3 asks the trending list when, and only when, the
    search of the last 7 days gives no item ([pick_best_result] finds none);
    otherwise it sends no further request.  Mode 17 sends the relaxed search
    (vote_count.gte = 50) when, and only when, the narrow search returns an
    empty list; otherwise it goes on to the page draw. *)
Theorem fallback_only_when_empty (lower : str -> str) (isoformat : Z -> str)
    (env : config) (w : world) :
  (forall day u0 p0 r0 rest,
     fst (exec (mode_3_new_release_today lower isoformat env) w) =
     EvToday day :: EvGet u0 p0 (inr r0) :: rest ->
     (found (pick_best_result (results_of r0) 1) = true ->
      filter is_get rest = []) /\
     (found (pick_best_result (results_of r0) 1) = false ->
      exists line p1 a1 rest',
        rest = EvPrint line
               :: EvGet (TMDB_BASE_URL ++ U "/trending/movie/day") p1 a1
               :: rest')) /\
  (forall u0 p0 first rest,
     fst (exec (mode_17_hidden_gem lower env) w) =
     EvGet u0 p0 (inr first) :: rest ->
     (results_of first = [] ->
      exists line u1 p1 a1 rest',
        rest = EvPrint line :: EvGet u1 p1 a1 :: rest' /\
        In ("vote_count.gte", PInt 50) p1) /\
     (results_of first <> [] ->
      exists n v rest', rest = EvRandom n v :: rest')).
Proof.
  split.
  - intros day u0 p0 r0 rest H. unfold exec, mode_3_new_release_today in H.
    rewrite run_bind_today in H. cbn [fst] in H. cbv zeta in H.
    rewrite run_bind_tmdb_get in H.
    destruct (http w 0%nat _ _) as [e|r]; cbn [fst] in H; [discriminate H|].
    apply today_answer_inv in H as [-> H]. subst rest.
    unfold found, if_not_movie.
    destruct (pick_best_result (results_of r0) 1) as [m|].
    + destruct (dict_is_empty m).
      * split; [discriminate|]. intros _.
        rewrite run_bind_print. cbn [fst]. rewrite run_bind_tmdb_get.
        destruct (http w 1%nat _ _); cbn [fst]; do 4 eexists; reflexivity.
      * split; [|discriminate]. intros _. apply no_get_after.
        repeat bounded_step.
    + split; [discriminate|]. intros _.
      rewrite run_bind_print. cbn [fst]. rewrite run_bind_tmdb_get.
      destruct (http w 1%nat _ _); cbn [fst]; do 4 eexists; reflexivity.
  - intros u0 p0 first rest H. unfold exec, mode_17_hidden_gem in H.
    cbv zeta in H. rewrite run_bind_tmdb_get in H.
    destruct (http w 0%nat _ _) as [e|r]; cbn [fst] in H; [discriminate H|].
    apply first_answer_inv in H as [-> H]. subst rest.
    destruct (results_of first) as [|m l]; cbn [or_list].
    + split; [|congruence]. intros _.
      rewrite run_bind_print. cbn [fst]. rewrite run_bind_tmdb_get.
      destruct (http w 1%nat _ _); cbn [fst]; do 5 eexists;
        (split; [reflexivity | cbn; tauto]).
    + split; [discriminate|]. intros _.
      unfold mode_17_draw. cbv zeta.
      rewrite run_bind_random_page. cbn [fst]. do 3 eexists. reflexivity.
Qed.

Lemma fallback_only_when_empty_witness :
  exists line u1 p1 a1 rest',
    tl (fst (exec (mode_17_hidden_gem ascii_lower full_env) relaxing_world))
    = EvPrint line :: EvGet u1 p1 a1 :: rest' /\
    In ("vote_count.gte", PInt 50) p1.
Proof.
  eapply (proj2 (fallback_only_when_empty ascii_lower iso_of_ordinal full_env
                   relaxing_world)).
  - reflexivity.
  - reflexivity.
Defined.

(** ** The item of a random mode *)

Lemma run_bind_choice {A B} (seq : list A) (k : A -> prog B) (w : world)
    (g d : nat) :
  seq <> [] ->
  exists i a,
    nth_error seq (Z.to_nat i) = Some a /\
    run (bind (choice seq) k) w g d =
    (EvRandom (Z.of_nat (List.length seq)) i :: fst (run (k a) w g (S d)),
     snd (run (k a) w g (S d))).
Proof.
  intros Hne. destruct seq as [|x seq]; [congruence|].
  unfold choice. cbn [bind run].
  set (n := Z.of_nat (List.length (x :: seq))).
  set (i := entropy w d mod n).
  assert (Hi : 0 <= i < n).
  { apply Z.mod_pos_bound. unfold n. simpl List.length. lia. }
  destruct (nth_error (x :: seq) (Z.to_nat i)) as [a|] eqn:E.
  - exists i, a. split; [exact E|]. cbn [bind].
    destruct (run (k a) w g (S d)); reflexivity.
  - apply nth_error_None in E. unfold n in Hi. lia.
Qed.

Lemma tweet_posts (lower : str -> str) (t : str) (w : world) (g d : nat)
    (text : str) (answer : exn + str) :
  In (EvTweet text answer) (fst (run (tweet lower t) w g d)) ->
  text = tweet_clip t.
Proof.
  intros Hin.
  apply (sourced_run (fun _ x => x = tweet_clip t) (tweet lower t) w
           (fun _ _ _ H => H) [] g d text answer); [|exact Hin].
  now apply sourced_tweet.
Qed.

Lemma or_list_nil_r {A} (l : list A) : or_list l [] = l.
Proof. destruct l; reflexivity. Qed.

Lemma draw_answers_inv (u0 u0' u1 u1' : str) (p0 p0' p1 p1' : dict)
    (r r' : reply) (a1 : exn + reply) (r1' : reply) (n n' v v' : Z)
    (t t' : list event) :
  EvGet u0 p0 (inr r) :: EvRandom n v :: EvGet u1 p1 a1 :: t =
  EvGet u0' p0' (inr r') :: EvRandom n' v' :: EvGet u1' p1' (inr r1') :: t' ->
  r = r' /\ a1 = inr r1' /\ t = t'.
Proof. intros H. inversion H. repeat split; reflexivity. Qed.

Lemma chosen_item_post (lower : str -> str) (key : str)
    (textf : movie -> prog str) (L : list movie) (w : world) (g d : nat) :
  In (key, textf) TEXTS ->
  (L <> [] ->
   exists i m rest',
     fst (run (bind (choice L)
                 (fun movie => bind (textf movie)
                                 (fun text => tweet lower text))) w g d)
     = EvRandom (Z.of_nat (List.length L)) i :: rest' /\
     nth_error L (Z.to_nat i) = Some m /\
     forall text answer,
       In (EvTweet text answer) rest' ->
       exists t, textf m = Ret t /\ text = tweet_clip t).
Proof.
  intros Hf Hne.
  destruct (run_bind_choice L
              (fun movie => bind (textf movie) (fun text => tweet lower text))
              w g d Hne) as (i & m & Hm & ->).
  exists i, m, (fst (run (bind (textf m) (fun text => tweet lower text))
                        w g (S d))).
  cbn [fst]. repeat split; [exact Hm|].
  intros text answer Hin.
  destruct (text_result key textf m Hf) as [[t E]|[e E]]; rewrite E in Hin;
    cbn [bind] in Hin; [|contradiction Hin].
  exists t. split; [exact E|]. now apply tweet_posts in Hin.
Qed.

(** X20: in modes 5 and 16 the item is drawn from the results of the
    random page, and from the results of the first page when the random
    page has none; when both are empty the mode logs and stops.  What is
    posted is the clipped text of the item drawn. *)
Theorem random_item_source (lower : str -> str) (env : config) (w : world)
    (f : prog unit) (textf : movie -> prog str) :
  (f = mode_5_random_quality lower env /\ textf = mode_5_text) \/
  (f = mode_16_classic_of_day lower env /\ textf = mode_16_text) ->
  forall u0 p0 first n v u1 p1 data rest,
    fst (exec f w) =
    EvGet u0 p0 (inr first) :: EvRandom n v :: EvGet u1 p1 (inr data) :: rest ->
    let L := or_list (results_of data) (results_of first) in
    (L = [] -> exists line, rest = [EvPrint line]) /\
    (L <> [] ->
     exists i m rest',
       rest = EvRandom (Z.of_nat (List.length L)) i :: rest' /\
       nth_error L (Z.to_nat i) = Some m /\
       forall text answer,
         In (EvTweet text answer) rest' ->
         exists t, textf m = Ret t /\ text = tweet_clip t).
Proof.
  intros [[-> ->]|[-> ->]] u0 p0 first n v u1 p1 data rest H L;
    unfold exec in H.
  - unfold mode_5_random_quality in H. cbv zeta in H. answer_of H.
    rewrite run_bind_random_page in H. cbn [fst] in H.
    rewrite run_bind_tmdb_get in H.
    destruct (http w 1%nat _ _) as [e|r1]; cbn [fst] in H;
      apply draw_answers_inv in H as (-> & Hd & H); [discriminate Hd|].
    apply (f_equal answer_items) in Hd. simpl in Hd.
    subst rest. rewrite or_list_nil_r. rewrite Hd. fold L.
    pose proof (chosen_item_post lower (U "5") mode_5_text L w 2 1
                  ltac:(do 4 right; left; reflexivity)) as H1.
    destruct L as [|x l] eqn:EL.
    + split; [|congruence]. intros _. eexists. reflexivity.
    + split; [discriminate|]. intros Hne. exact (H1 Hne).
  - unfold mode_16_classic_of_day in H. cbv zeta in H. answer_of H.
    rewrite run_bind_random_page in H. cbn [fst] in H.
    rewrite run_bind_tmdb_get in H.
    destruct (http w 1%nat _ _) as [e|r1]; cbn [fst] in H;
      apply draw_answers_inv in H as (-> & Hd & H); [discriminate Hd|].
    apply (f_equal answer_items) in Hd. simpl in Hd.
    subst rest. rewrite or_list_nil_r. rewrite Hd. fold L.
    pose proof (chosen_item_post lower (U "16") mode_16_text L w 2 1
                  ltac:(do 10 right; left; reflexivity)) as H1.
    destruct L as [|x l] eqn:EL.
    + split; [|congruence]. intros _. eexists. reflexivity.
    + split; [discriminate|]. intros Hne. exact (H1 Hne).
Qed.

Lemma random_item_source_witness :
  exists i m rest',
    tl (tl (tl (fst (exec (mode_5_random_quality ascii_lower full_env)
                          thin_world))))
    = EvRandom 1 i :: rest' /\
    nth_error [test_movie] (Z.to_nat i) = Some m /\
    forall text answer,
      In (EvTweet text answer) rest' ->
      exists t, mode_5_text m = Ret t /\ text = tweet_clip t.
Proof.
  assert (H : exists u0 p0 n v u1 p1 rest,
             fst (exec (mode_5_random_quality ascii_lower full_env) thin_world)
             = EvGet u0 p0 (inr (reply_of [test_movie] 9)) :: EvRandom n v
               :: EvGet u1 p1 (inr (reply_of [] 9)) :: rest)
    by (do 7 eexists; reflexivity).
  destruct H as (u0 & p0 & n & v & u1 & p1 & rest & H).
  rewrite H. cbn [tl].
  apply (proj2 (random_item_source ascii_lower full_env thin_world
                  (mode_5_random_quality ascii_lower full_env) mode_5_text
                  (or_introl (conj eq_refl eq_refl))
                  u0 p0 (reply_of [test_movie] 9) n v u1 p1 (reply_of [] 9)
                  rest H)).
  discriminate.
Defined.

(** ** The end of a message text *)

Lemma starts_with_app_l (p x y : str) :
  starts_with p x = true -> starts_with p (x ++ y) = true.
Proof.
  revert x; induction p as [|c p IH]; intros x H; [reflexivity|].
  destruct x as [|d x]; [discriminate H|].
  simpl in *. apply andb_true_iff in H as [Hc Hp].
  now rewrite Hc, (IH x Hp).
Qed.

Lemma ends_with_app_r (suffix a b : str) :
  ends_with suffix b = true -> ends_with suffix (a ++ b) = true.
Proof.
  unfold ends_with. intros H. rewrite rev_app_distr.
  now apply starts_with_app_l.
Qed.

Lemma contains_prefix (y post : str) : contains y (y ++ post) = true.
Proof. apply (contains_app y [] post). Qed.

(** X21: a message text, when there is one, ends with the tag [#tmdb] and
    holds the detail link of the item: its identifier after
    [https://tmdb.org/movie/] in mode 1 and after
    [https://www.themoviedb.org/movie/] in every other mode. *)
Theorem text_link_and_tags (key : str) (f : movie -> prog str) (m : movie)
    (t : str) (id : Z) :
  In (key, f) TEXTS ->
  f m = Ret t ->
  movie_id m = Some id ->
  ends_with (U "#tmdb") t = true /\
  contains (detail_base key ++ str_of_Z id) t = true.
Proof.
  intros H E Hid. revert E. text_cases H; intros E; rewrite Hid in E;
    (destruct (title m); cbn [bind item] in E; [|discriminate E]);
    try (destruct (get_default (release_date m) []);
         cbn [bind slice_opt item] in E; [|discriminate E]);
    try (destruct (poster_path m); cbn [bind item_jstr item] in E;
         [discriminate E | |]);
    apply Ret_inj in E; subst t;
    (split;
     [ repeat first [ apply ends_with_app_r | reflexivity ]
     | match goal with
       | |- context [detail_base ?k] =>
         let b := eval vm_compute in (str_eqb k (U "1")) in
         unfold detail_base; change (str_eqb k (U "1")) with b; cbv iota
       end;
       repeat first [ apply contains_prefix | apply contains_skip ] ]).
Qed.

Lemma text_link_and_tags_witness :
  ends_with (U "#tmdb")
    (match mode_1_text test_movie with Ret t => t | _ => [] end) = true /\
  contains (detail_base (U "1") ++ str_of_Z 42)
    (match mode_1_text test_movie with Ret t => t | _ => [] end) = true.
Proof.
  apply (text_link_and_tags (U "1") mode_1_text test_movie).
  - left. reflexivity.
  - vm_compute. reflexivity.
  - reflexivity.
Defined.

(** ** No silent exit *)

Lemma logs_bind {A B} (p : prog A) (k : A -> prog B) (seen : bool) :
  (forall a b, logs b (k a)) -> logs seen (bind p k).
Proof.
  intros Hk. revert seen.
  induction p as [a|e|url params k' IH|n k' IH|k' IH|line k' IH|txt k' IH];
    intros seen; simpl; auto.
Qed.

Lemma logs_run {A} (p : prog A) (w : world) :
  forall seen g d a,
    logs seen p -> snd (run p w g d) = Returned a ->
    seen = true \/ exists line, In (EvPrint line) (fst (run p w g d)).
Proof.
  induction p as [a|e|url params k IH|n k IH|k IH|line k IH|txt k IH];
    intros seen g d b Hp Hr; simpl in *.
  - now left.
  - discriminate Hr.
  - specialize (IH (http w g url params) seen (S g) d b (Hp _)).
    destruct (run (k (http w g url params)) w (S g) d). simpl in *.
    destruct (IH Hr) as [H|[ln H]]; [now left | right; exists ln; now right].
  - specialize (IH (entropy w d mod n) seen g (S d) b (Hp _)).
    destruct (run (k (entropy w d mod n)) w g (S d)). simpl in *.
    destruct (IH Hr) as [H|[ln H]]; [now left | right; exists ln; now right].
  - specialize (IH (today w) seen g d b (Hp _)).
    destruct (run (k (today w)) w g d). simpl in *.
    destruct (IH Hr) as [H|[ln H]]; [now left | right; exists ln; now right].
  - destruct (run k w g d). simpl in *.
    right. exists line. now left.
  - specialize (IH (twitter w txt) seen g d b (Hp _)).
    destruct (run (k (twitter w txt)) w g d). simpl in *.
    destruct (IH Hr) as [H|[ln H]]; [now left | right; exists ln; now right].
Qed.

Lemma logs_tweet (lower : str -> str) (text : str) (seen : bool) :
  logs seen (tweet lower text).
Proof.
  unfold tweet. simpl. intros [e|r]; simpl; [|reflexivity].
  destruct e; simpl; try exact I.
  destruct (contains (U "duplicate") (lower msg)); reflexivity.
Qed.

Lemma logs_print (line : str) (seen : bool) : logs seen (print line).
Proof. reflexivity. Qed.

Lemma logs_if_not_movie {A} (seen : bool) (picked : option movie)
    (absent : prog A) (present : movie -> prog A) :
  logs seen absent -> (forall m, logs seen (present m)) ->
  logs seen (if_not_movie picked absent present).
Proof.
  intros Ha Hp. unfold if_not_movie.
  destruct picked as [m|]; [destruct (dict_is_empty m)|]; auto.
Qed.

Ltac logs_step :=
  first
    [ apply logs_print
    | apply logs_tweet
    | apply logs_if_not_movie; [|intros ?]
    | apply logs_bind; intros ? ?
    | progress cbv zeta
    | match goal with
      | |- logs _ (match ?l with [] => _ | _ :: _ => _ end) => destruct l
      end ].

Lemma logs_modes (lower : str -> str) (isoformat : Z -> str)
    (env : config) (key : str) (f : prog unit) (seen : bool) :
  In (key, f) (MODES lower isoformat env) -> logs seen f.
Proof.
  intros H. unfold MODES in H. cbn [In] in H.
  repeat (destruct H as [H|H]; [inversion H; subst; clear H|]);
    try contradiction.
  - unfold mode_1_turkey_popular_today. repeat logs_step.
  - unfold mode_2_world_popular_today. repeat logs_step.
  - unfold mode_3_new_release_today. repeat logs_step.
  - unfold mode_4_week_top_rated. repeat logs_step.
  - unfold mode_5_random_quality. repeat logs_step.
  - unfold mode_8_netflix_tr_popular. repeat logs_step.
  - unfold mode_10_box_office_like. repeat logs_step.
  - unfold mode_13_trending_riser. repeat logs_step.
  - unfold mode_14_best_poster. repeat logs_step.
  - unfold mode_15_turkish_movies_popular. repeat logs_step.
  - unfold mode_16_classic_of_day. repeat logs_step.
  - unfold mode_17_hidden_gem, mode_17_draw. repeat logs_step.
Qed.

(** X22: the bot never ends silently: a run of [main] that returns
    normally has printed at least one line (the result of the post, the
    skip of a rejected post, or the reason why nothing was posted). *)
Theorem no_silent_exit (lower : str -> str) (isoformat : Z -> str)
    (env : config) (argv : list str) (w : world) :
  snd (exec (main lower isoformat env argv) w) = Returned tt ->
  exists line, In (EvPrint line) (fst (exec (main lower isoformat env argv) w)).
Proof.
  intros Hr.
  assert (Hl : logs false (main lower isoformat env argv)).
  { unfold main, ensure_env.
    destruct (missing_env env); [|exact I].
    cbn [bind].
    destruct (Z.of_nat (List.length argv) <? 2); [exact I|].
    destruct (nth_error argv 1) as [key|]; [|exact I].
    destruct (modes_get (MODES lower isoformat env) key) as [f|] eqn:E;
      [|exact I].
    apply modes_get_In_key in E.
    exact (logs_modes lower isoformat env key f false E). }
  destruct (logs_run _ w false 0%nat 0%nat tt Hl Hr) as [H|H];
    [discriminate H | exact H].
Qed.

Lemma no_silent_exit_witness :
  exists line,
    In (EvPrint line)
       (fst (exec (main ascii_lower iso_of_ordinal full_env
                     [U "bot.py"; U "14"])
                  (quiet_world [bare_movie] 1 (inr (U "ok"))))).
Proof.
  apply (no_silent_exit ascii_lower iso_of_ordinal full_env
           [U "bot.py"; U "14"] (quiet_world [bare_movie] 1 (inr (U "ok")))).
  vm_compute. reflexivity.
Defined.

(** ** Where an exception comes from *)

Lemma exits_mono {A} (p : prog A) (seen seen' : list exn) :
  incl seen seen' -> exits seen p -> exits seen' p.
Proof.
  revert seen seen'.
  induction p as [a|e|url params k IH|n k IH|k IH|line k IH|txt k IH];
    intros seen seen' Hi; simpl; auto.
  - intros [H|H]; [now left | right; now apply Hi].
  - intros H r. apply (IH r (seen ++ exn_of r)); [|apply H].
    apply incl_app; [now apply incl_appl | apply incl_appr, incl_refl].
  - intros [H1 H2]. split; [exact H1|]. intros v Hv.
    apply (IH v seen); [exact Hi | now apply H2].
  - intros H d. apply (IH d seen); [exact Hi | apply H].
  - apply IH. exact Hi.
  - intros H r. apply (IH r (seen ++ exn_of r)); [|apply H].
    apply incl_app; [now apply incl_appl | apply incl_appr, incl_refl].
Qed.

Lemma exits_bind {A B} (p : prog A) (k : A -> prog B) (seen : list exn) :
  exits seen p -> (forall a, exits seen (k a)) -> exits seen (bind p k).
Proof.
  revert seen.
  induction p as [a|e|url params k' IH|n k' IH|k' IH|line k' IH|txt k' IH];
    intros seen Hp Hk; simpl in *; auto.
  - intros r. apply IH; [apply Hp|].
    intros a. apply (exits_mono _ seen); [now apply incl_appl | apply Hk].
  - destruct Hp as [H1 H2]. split; [exact H1|]. intros v Hv.
    apply IH; [now apply H2 | exact Hk].
  - intros r. apply IH; [apply Hp|].
    intros a. apply (exits_mono _ seen); [now apply incl_appl | apply Hk].
Qed.

Lemma exits_run {A} (p : prog A) (w : world) :
  forall seen g d e,
    exits seen p -> snd (run p w g d) = Raised e ->
    own_exit e \/ In e (seen ++ errors_of (fst (run p w g d))).
Proof.
  induction p as [a|x|url params k IH|n k IH|k IH|line k IH|txt k IH];
    intros seen g d e Hp Hr; simpl in *.
  - discriminate Hr.
  - inversion Hr; subst. destruct Hp as [H|H]; [now left|].
    right. apply in_or_app. now left.
  - specialize (IH (http w g url params) (seen ++ exn_of (http w g url params))
                   (S g) d e (Hp _)).
    destruct (run (k (http w g url params)) w (S g) d). simpl in *.
    destruct (IH Hr) as [H|H]; [now left|]. right.
    unfold errors_of. simpl. now rewrite <- app_assoc in H.
  - destruct Hp as [Hn Hk].
    assert (Hv : 0 <= entropy w d mod n < n) by (apply Z.mod_pos_bound; lia).
    specialize (IH (entropy w d mod n) seen g (S d) e (Hk _ Hv)).
    destruct (run (k (entropy w d mod n)) w g (S d)). simpl in *.
    now apply IH.
  - specialize (IH (today w) seen g d e (Hp _)).
    destruct (run (k (today w)) w g d). simpl in *. now apply IH.
  - specialize (IH seen g d e Hp).
    destruct (run k w g d). simpl in *. now apply IH.
  - specialize (IH (twitter w txt) (seen ++ exn_of (twitter w txt))
                   g d e (Hp _)).
    destruct (run (k (twitter w txt)) w g d). simpl in *.
    destruct (IH Hr) as [H|H]; [now left|]. right.
    unfold errors_of. simpl. now rewrite <- app_assoc in H.
Qed.

Lemma exits_tmdb_get (env : config) (path : str) (params : dict)
    (seen : list exn) :
  exits seen (tmdb_get env path params).
Proof.
  unfold tmdb_get. simpl. intros [e|r]; simpl; [|exact I].
  right. apply in_or_app. right. now left.
Qed.

Lemma exits_print (line : str) (seen : list exn) : exits seen (print line).
Proof. exact I. Qed.

Lemma exits_today (seen : list exn) : exits seen (Today Ret).
Proof. simpl. auto. Qed.

Lemma exits_random_page (first : reply) (ceiling : Z) (seen : list exn) :
  exits seen (random_page first ceiling).
Proof.
  unfold random_page, randint.
  pose proof (page_limit_pos first ceiling) as Hn.
  destruct (page_limit first ceiling - 1 + 1 <=? 0) eqn:E;
    [apply Z.leb_le in E; lia|].
  simpl. split; [lia | intros; exact I].
Qed.

Lemma exits_choice {A} (seq : list A) (seen : list exn) :
  seq <> [] -> exits seen (choice seq).
Proof.
  intros Hne. destruct seq as [|x seq]; [congruence|].
  unfold choice. cbn [exits]. split; [cbn [List.length]; lia|].
  intros v Hv.
  destruct (nth_error (x :: seq) (Z.to_nat v)) eqn:E; [exact I|].
  apply nth_error_None in E. lia.
Qed.

Lemma exits_item {A} (key : string) (o : option A) (seen : list exn) :
  exits seen (item key o).
Proof. destruct o; simpl; auto. Qed.

Lemma exits_item_jstr (key : string) (f : jstr) (seen : list exn) :
  exits seen (item_jstr key f).
Proof. destruct f; simpl; auto. Qed.

Lemma exits_slice_opt (x : option str) (n : Z) (seen : list exn) :
  exits seen (slice_opt x n).
Proof. destruct x; simpl; auto. Qed.

Lemma exits_tweet (lower : str -> str) (text : str) (seen : list exn) :
  exits seen (tweet lower text).
Proof.
  unfold tweet. simpl. intros [e|r]; simpl; [|exact I].
  destruct e; simpl; try (right; apply in_or_app; right; now left).
  destruct (contains (U "duplicate") (lower msg)); exact I.
Qed.

Lemma exits_if_not_movie {A} (seen : list exn) (picked : option movie)
    (absent : prog A) (present : movie -> prog A) :
  exits seen absent -> (forall m, exits seen (present m)) ->
  exits seen (if_not_movie picked absent present).
Proof.
  intros Ha Hp. unfold if_not_movie.
  destruct picked as [m|]; [destruct (dict_is_empty m)|]; auto.
Qed.

Lemma or_list_cons_r {A} (a : list A) (x : A) (l : list A) :
  or_list a (x :: l) <> [].
Proof. destruct a; discriminate. Qed.

Ltac exits_step :=
  first
    [ exact I
    | apply exits_item
    | apply exits_item_jstr
    | apply exits_slice_opt
    | apply exits_tmdb_get
    | apply exits_print
    | apply exits_today
    | apply exits_random_page
    | apply exits_tweet
    | apply exits_choice; first [ discriminate | apply or_list_cons_r ]
    | apply exits_if_not_movie; [|intros ?]
    | apply exits_bind; [|intros ?]
    | progress cbv zeta
    | match goal with
      | |- exits _ (match ?l with [] => _ | _ :: _ => _ end) => destruct l
      end ].

Lemma exits_modes (lower : str -> str) (isoformat : Z -> str)
    (env : config) (key : str) (f : prog unit) :
  In (key, f) (MODES lower isoformat env) -> exits [] f.
Proof.
  intros H. unfold MODES in H. cbn [In] in H.
  repeat (destruct H as [H|H]; [inversion H; subst; clear H|]);
    try contradiction.
  - unfold mode_1_turkey_popular_today. repeat exits_step.
  - unfold mode_2_world_popular_today. repeat exits_step.
  - unfold mode_3_new_release_today. repeat exits_step.
  - unfold mode_4_week_top_rated. repeat exits_step.
  - unfold mode_5_random_quality. repeat exits_step.
  - unfold mode_8_netflix_tr_popular. repeat exits_step.
  - unfold mode_10_box_office_like. repeat exits_step.
  - unfold mode_13_trending_riser. repeat exits_step.
  - unfold mode_14_best_poster. repeat exits_step.
  - unfold mode_15_turkish_movies_popular. repeat exits_step.
  - unfold mode_16_classic_of_day. repeat exits_step.
  - unfold mode_17_hidden_gem, mode_17_draw. repeat exits_step.
Qed.

Lemma exits_main (lower : str -> str) (isoformat : Z -> str) (env : config)
    (argv : list str) :
  exits [] (main lower isoformat env argv).
Proof.
  unfold main, ensure_env.
  destruct (missing_env env); [|simpl; now left].
  cbn [bind].
  destruct argv as [|script [|key rest]];
    try (simpl; now left).
  destruct (Z.of_nat (List.length (script :: key :: rest)) <? 2) eqn:E.
  { apply Z.ltb_lt in E. simpl List.length in E. lia. }
  cbn [nth_error].
  destruct (modes_get (MODES lower isoformat env) key) as [f|] eqn:Ef;
    [|simpl; now left].
  apply modes_get_In_key in Ef.
  exact (exits_modes lower isoformat env key f Ef).
Qed.

(** X23: an exception that ends a run of [main] is either one of the
    bot's own ([RuntimeError] for the environment, [SystemExit] for the
    arguments, [KeyError] or [TypeError] for an item that is not as
    expected) or an exception that the metadata service or the publishing
    platform raised during that run.  In particular [main] never fails with
    an [IndexError] or [ValueError] of the random module or of [sys.argv]. *)
Theorem exception_origin (lower : str -> str) (isoformat : Z -> str)
    (env : config) (argv : list str) (w : world) (e : exn) :
  snd (exec (main lower isoformat env argv) w) = Raised e ->
  own_exit e \/
  In e (errors_of (fst (exec (main lower isoformat env argv) w))).
Proof.
  intros Hr.
  exact (exits_run _ w [] 0%nat 0%nat e
           (exits_main lower isoformat env argv) Hr).
Qed.

Lemma exception_origin_witness :
  own_exit (OtherError (U "ConnectionError")) \/
  In (OtherError (U "ConnectionError"))
     (errors_of (fst (exec (main ascii_lower iso_of_ordinal full_env
                              [U "bot.py"; U "4"]) down_world))).
Proof.
  apply (exception_origin ascii_lower iso_of_ordinal full_env
           [U "bot.py"; U "4"] down_world).
  vm_compute. reflexivity.
Defined.
